(** * Ticker resolution engine: a shallow embedding of
      [lib/stringUtils.js], [lib/openaiService.js] (the resolver, the
      enriched query and the rate limiter), [lib/tickerResolution.js] and
      [app/api/ticker-resolution/route.js], with the properties of the
      specification checked against it.

    Conventions of the embedding.
    - JavaScript strings are modelled by [string], and the string operations
      ([trim], [toUpperCase], [toLowerCase], the class [\s]) are the ones of
      JavaScript on ASCII strings.  Above code unit 127 JavaScript has more
      white space (U+00A0 is trimmed) and more case mappings (U+00DF is
      capitalised to SS) than the model, where such characters are inert;
      a statement whose truth depends on what these operations do to its
      inputs is made for ASCII inputs ([Notions.ascii_only]).
    - JavaScript numbers are IEEE-754 binary64 values, modelled by
      [spec_float] with precision 53 and maximal exponent 1024; integer
      quantities that only count or index (string lengths, edit distances,
      millisecond clock readings) are kept in [nat] or [Z] and injected into
      binary64 where the source does arithmetic on them.
    - Module-level mutable state ([resolutionCache], [localTickerMapping]) is
      passed explicitly; the clock, the process environment and the network
      are read from an environment record.
    - [throw] / [try ... catch] are modelled by an error monad.

    Layout.
    - [JsString], [Regex], [JsNum], [Js], [JsMap]: the fragment of the
      language the code relies on.
    - [StringUtils], [TickerResolution], [OpenaiService], [Route]: the code.
    - [Notions], [Fixtures]: the vocabulary of the statements and the
      concrete surroundings of the worked runs.
    - [NumFacts], [SortFacts], [MapFacts], [EditDistance]: supporting lemmas.
    - [TickerShape], [CacheProperties], [Runs], [Totality], [NotFound],
      [Echo], [Fuzzy], [Invariant]: the properties of the specification.
    - [MapUpdates], [CharFacts], [StringFacts], [SplitFacts],
      [EditDistanceLaws], [CatalogFacts], [Endings], [StateFacts],
      [IncludesFacts]: supporting lemmas of the further properties.
    - [Normalization], [Metric], [CatalogLaws], [CacheLaws], [Orchestrator],
      [Providers], [AddedNames], [Enrichment], [RateLimiter], [Handlers]:
      further properties of the code (X1 to X27).
    - [UnitTests]: the cases of the test file. *)

From Stdlib Require Import ZArith List Bool Lia Ascii String.
From Stdlib Require Import Floats.SpecFloat Sorting.Sorted.
Import ListNotations.

Set Implicit Arguments.
Set Warnings "-register-all".

(* ================================================================== *)
(** * JavaScript strings (ASCII fragment) *)
(* ================================================================== *)

Module JsString.

Definition code (c : ascii) : nat := nat_of_ascii c.

Definition is_upper (c : ascii) : bool :=
  (65 <=? code c)%nat && (code c <=? 90)%nat.

Definition is_lower (c : ascii) : bool :=
  (97 <=? code c)%nat && (code c <=? 122)%nat.

(** The ASCII white space, as [String.prototype.trim] and the regular
    expression class [\s] match it: TAB, LF, VT, FF, CR and SPACE. *)
Definition is_space (c : ascii) : bool :=
  ((9 <=? code c)%nat && (code c <=? 13)%nat) || (code c =? 32)%nat.

Definition upper_char (c : ascii) : ascii :=
  if is_lower c then ascii_of_nat (code c - 32) else c.

Definition lower_char (c : ascii) : ascii :=
  if is_upper c then ascii_of_nat (code c + 32) else c.

Fixpoint map_chars (f : ascii -> ascii) (s : string) : string :=
  match s with
  | EmptyString => EmptyString
  | String c s' => String (f c) (map_chars f s')
  end.

(** [s.toUpperCase()] and [s.toLowerCase()] of an ASCII string. *)
Definition toUpperCase : string -> string := map_chars upper_char.
Definition toLowerCase : string -> string := map_chars lower_char.

Fixpoint trimStart (s : string) : string :=
  match s with
  | EmptyString => EmptyString
  | String c s' => if is_space c then trimStart s' else s
  end.

Fixpoint trimEnd (s : string) : string :=
  match s with
  | EmptyString => EmptyString
  | String c s' =>
      match trimEnd s' with
      | EmptyString => if is_space c then EmptyString else String c EmptyString
      | t => String c t
      end
  end.

Definition trim (s : string) : string := trimEnd (trimStart s).

(** [s.replace(/[cls]/g, '')]: every character of the class is dropped. *)
Fixpoint remove_class (cls : ascii -> bool) (s : string) : string :=
  match s with
  | EmptyString => EmptyString
  | String c s' =>
      if cls c then remove_class cls s' else String c (remove_class cls s')
  end.

(** [s.replace(/[cls]+/g, r)]: every maximal run of class characters is
    replaced by the single character [r].  [in_run] tells that the previous
    character belonged to the run being replaced. *)
Fixpoint collapse_from (in_run : bool) (cls : ascii -> bool) (r : ascii)
    (s : string) : string :=
  match s with
  | EmptyString => EmptyString
  | String c s' =>
      if cls c
      then (if in_run then collapse_from true cls r s'
            else String r (collapse_from true cls r s'))
      else String c (collapse_from false cls r s')
  end.

Definition collapse_runs : (ascii -> bool) -> ascii -> string -> string :=
  collapse_from false.

(** A string is truthy exactly when it is not empty. *)
Definition truthy (s : string) : bool :=
  match s with EmptyString => false | _ => true end.

(** [s.replace(/[cls]/g, r)] for a replacement of one character. *)
Definition replace_class (cls : ascii -> bool) (r : ascii) : string -> string :=
  map_chars (fun c => if cls c then r else c).

(** [s.split(/[cls]+/)]: the pieces between the maximal runs of class
    characters, empty pieces at both ends included.  The head of the result
    is the piece being read; [in_run] tells that the previous character
    belonged to a separator. *)
Fixpoint split_from (in_run : bool) (cls : ascii -> bool) (s : string)
    : list string :=
  match s with
  | EmptyString => [EmptyString]
  | String c s' =>
      if cls c
      then (if in_run then split_from true cls s'
            else EmptyString :: split_from true cls s')
      else
        match split_from false cls s' with
        | piece :: pieces => String c piece :: pieces
        | [] => [String c EmptyString]
        end
  end.

Definition split_runs : (ascii -> bool) -> string -> list string :=
  split_from false.

(** [sub] stands at the front of [s]. *)
Fixpoint starts_with (s sub : string) {struct sub} : bool :=
  match sub with
  | EmptyString => true
  | String a sub' =>
      match s with
      | EmptyString => false
      | String b s' => Ascii.eqb a b && starts_with s' sub'
      end
  end.

(** [s.includes(sub)]: [sub] stands somewhere in [s]. *)
Fixpoint includes (s sub : string) : bool :=
  starts_with s sub
  || match s with
     | EmptyString => false
     | String _ s' => includes s' sub
     end.

End JsString.

(* ================================================================== *)
(** * Regular expressions (the fragment the source uses) *)
(* ================================================================== *)

Module Regex.

(** Character classes, concatenation and the greedy optional group; the
    bounded repetition [r{lo,hi}] is unfolded into these. *)
Inductive regex : Type :=
| Eps
| Class (p : ascii -> bool)
| Seq (r1 r2 : regex)
| Opt (r : regex).

Fixpoint exactly (n : nat) (r : regex) : regex :=
  match n with
  | O => Eps
  | S n' => Seq r (exactly n' r)
  end.

Fixpoint upto (n : nat) (r : regex) : regex :=
  match n with
  | O => Eps
  | S n' => Opt (Seq r (upto n' r))
  end.

(** [r{lo,hi}] *)
Definition range (lo hi : nat) (r : regex) : regex :=
  Seq (exactly lo r) (upto (hi - lo) r).

(** Backtracking matcher: [run r s k] matches [r] at the front of [s] and
    hands what is left to the continuation [k]; an optional group is tried
    first with its body, then without it. *)
Fixpoint run (r : regex) (s : string) (k : string -> bool) : bool :=
  match r with
  | Eps => k s
  | Class p =>
      match s with
      | EmptyString => false
      | String c s' => p c && k s'
      end
  | Seq r1 r2 => run r1 s (fun s' => run r2 s' k)
  | Opt r1 => run r1 s k || k s
  end.

Definition at_end (s : string) : bool :=
  match s with EmptyString => true | String _ _ => false end.

(** [/^r$/.test(s)] *)
Definition test_anchored (r : regex) (s : string) : bool := run r s at_end.

End Regex.

(* ================================================================== *)
(** * JavaScript numbers: IEEE-754 binary64 *)
(* ================================================================== *)

Module JsNum.

Definition prec : Z := 53.
Definition emax : Z := 1024.

Definition number : Type := spec_float.

Definition NaN : number := S754_nan.

(** The binary64 value nearest to an integer (exact below 2^53). *)
Definition of_Z (z : Z) : number := binary_normalize prec emax z 0 false.
Definition of_nat (n : nat) : number := of_Z (Z.of_nat n).

Definition add : number -> number -> number := SFadd prec emax.
Definition sub : number -> number -> number := SFsub prec emax.
Definition mul : number -> number -> number := SFmul prec emax.
Definition div : number -> number -> number := SFdiv prec emax.

(** [x < y], [x > y], [x >= y]; every comparison with NaN is false. *)
Definition lt (x y : number) : bool := SFltb x y.
Definition gt (x y : number) : bool := SFltb y x.
Definition ge (x y : number) : bool := SFleb y x.

(** A decimal literal [n/d] with [n] and [d] exactly representable: the
    nearest binary64 value, as the correctly rounded quotient gives it. *)
Definition lit (n d : Z) : number := div (of_Z n) (of_Z d).

(** [Math.round]: the nearest integer, ties towards +Infinity; the sign of
    the argument is kept when the result is zero. *)
Definition round (x : number) : number :=
  match x with
  | S754_finite s m e =>
      if (0 <=? e)%Z then x
      else
        let scale := Z.pow 2 (- e) in
        let n := Z.div (2 * cond_Zopp s (Zpos m) + scale) (2 * scale) in
        binary_normalize prec emax n 0 s
  | _ => x
  end.

(** ToBoolean on numbers: zero and NaN are falsy. *)
Definition truthy (x : number) : bool :=
  match x with
  | S754_zero _ | S754_nan => false
  | _ => true
  end.

End JsNum.

(* ================================================================== *)
(** * lib/stringUtils.js *)
(* ================================================================== *)

Module StringUtils.

Import JsString Regex.

Definition min3 (a b c : nat) : nat := Nat.min (Nat.min a b) c.

(** One pass of the inner loop [for i = 1 .. len1] on row [j] of the matrix.
    [prev] is row [j-1] from column [i-1] on, [left] is [matrix[j][i-1]],
    [c2] is [str2[j-1]]; the result is row [j] from column [i] on. *)
Fixpoint fill_row (c2 : ascii) (str1 : string) (prev : list nat) (left : nat)
    : list nat :=
  match str1, prev with
  | String c1 rest, diag :: ((up :: _) as prev') =>
      let cost := if Ascii.eqb c1 c2 then 0 else 1 in
      let v := min3 (left + 1) (up + 1) (diag + cost) in
      v :: fill_row c2 rest prev' v
  | _, _ => []
  end.

(** The outer loop [for j = 1 .. len2]: [row] is row [j-1] of the matrix. *)
Fixpoint fill_rows (str1 str2 : string) (j : nat) (row : list nat) : list nat :=
  match str2 with
  | EmptyString => row
  | String c2 rest => fill_rows str1 rest (S j) (j :: fill_row c2 str1 row j)
  end.

(** [levenshteinDistance(str1, str2)]: row 0 is [0, 1, ..., len1], column 0
    of row [j] is [j], and the answer is [matrix[len2][len1]]. *)
Definition levenshteinDistance (str1 str2 : string) : nat :=
  last (fill_rows str1 str2 1 (seq 0 (S (String.length str1)))) 0.

(** [calculateSimilarity(str1, str2)] *)
Definition calculateSimilarity (str1 str2 : string) : JsNum.number :=
  let distance := levenshteinDistance str1 str2 in
  let maxLen := Nat.max (String.length str1) (String.length str2) in
  JsNum.sub (JsNum.of_Z 1) (JsNum.div (JsNum.of_nat distance) (JsNum.of_nat maxLen)).

(** The punctuation class of [normalizeString]: full stop, comma, ampersand,
    apostrophe, quotation mark, hyphen and the two parentheses. *)
Definition is_punct (c : ascii) : bool :=
  existsb (Nat.eqb (code c)) [46; 44; 38; 39; 34; 45; 40; 41].

(** [normalizeString(input)] on a string argument. *)
Definition normalizeString (input : string) : string :=
  trim
    (remove_class is_space
       (collapse_runs is_space " "%char
          (remove_class is_punct
             (toLowerCase (trim input))))).

Definition is_dot (c : ascii) : bool := (code c =? 46)%nat.

(** [/^[A-Z]{1,5}(?:\.[A-Z]{1,2})?$/] *)
Definition validTickerPattern (upper dot : ascii -> bool) : regex :=
  Seq (range 1 5 (Class upper))
      (Opt (Seq (Class dot) (range 1 2 (Class upper)))).

(** [isValidTickerFormat(ticker)] *)
Definition isValidTickerFormat (ticker : string) : bool :=
  test_anchored (validTickerPattern is_upper is_dot) ticker.

(** [partialMatch(needle, haystack, threshold = 0.7)] *)
Definition partialMatch (needle haystack : string)
    (threshold : option JsNum.number) : bool :=
  let threshold :=
    match threshold with Some given => given | None => JsNum.lit 7 10 end in
  let needleWords :=
    filter (fun w => (0 <? String.length w)%nat)
           (split_runs is_space (toLowerCase needle)) in
  let haystackWords :=
    filter (fun w => (0 <? String.length w)%nat)
           (split_runs is_space (toLowerCase haystack)) in
  let matches :=
    filter (fun nw =>
              existsb (fun hw => includes hw nw || includes nw hw)
                      haystackWords)
           needleWords in
  JsNum.ge (JsNum.div (JsNum.of_nat (List.length matches))
                      (JsNum.of_nat (List.length needleWords)))
           threshold.

(** The class of [stripSpacesAndPunctuation]: white space, full stop, hyphen,
    the two parentheses, ampersand, comma, apostrophe and quotation mark. *)
Definition is_space_or_punct (c : ascii) : bool :=
  is_space c || existsb (Nat.eqb (code c)) [46; 45; 40; 41; 38; 44; 39; 34].

(** [stripSpacesAndPunctuation(input)] *)
Definition stripSpacesAndPunctuation (input : string) : string :=
  remove_class is_space_or_punct (toUpperCase input).

(** [tokenizeCompanyName(input)] *)
Definition tokenizeCompanyName (input : string) : list string :=
  filter (fun word => (0 <? String.length word)%nat)
         (split_runs is_space
            (replace_class is_punct " "%char (toLowerCase input))).

End StringUtils.

(* ================================================================== *)
(** * JavaScript values, exceptions, maps and objects *)
(* ================================================================== *)

Module Js.

(** Values that reach the resolver from parsed JSON or that it stores in the
    fields of its results. *)
Inductive value : Type :=
| VUndefined
| VNull
| VBool (b : bool)
| VNum (x : JsNum.number)
| VStr (s : string)
| VArr (items : list value)
| VObj (fields : list (string * value)).

(** ToBoolean *)
Definition truthy (v : value) : bool :=
  match v with
  | VUndefined | VNull => false
  | VBool b => b
  | VNum x => JsNum.truthy x
  | VStr s => JsString.truthy s
  | VArr _ | VObj _ => true
  end.

(** [a || b] *)
Definition or_else (a b : value) : value := if truthy a then a else b.

(** [v === s] for a string [s] *)
Definition is_str (v : value) (s : string) : bool :=
  match v with
  | VStr t => String.eqb t s
  | _ => false
  end.

Inductive exn : Type :=
| TypeError
| SyntaxError
| NetworkError.

(** A computation either completes with a value or throws. *)
Inductive comp (A : Type) : Type :=
| Ok (a : A)
| Throw (e : exn).

Arguments Ok {A} a.
Arguments Throw {A} e.

Definition bind {A B : Type} (c : comp A) (k : A -> comp B) : comp B :=
  match c with
  | Ok a => k a
  | Throw e => Throw e
  end.

(** [try { body } catch (error) { handler }] *)
Definition try_catch {A : Type} (body : comp A) (handler : exn -> comp A)
    : comp A :=
  match body with
  | Ok a => Ok a
  | Throw e => handler e
  end.

Fixpoint mapM {A B : Type} (f : A -> comp B) (l : list A) : comp (list B) :=
  match l with
  | [] => Ok []
  | x :: l' =>
      bind (f x) (fun y => bind (mapM f l') (fun ys => Ok (y :: ys)))
  end.

Fixpoint assoc {V : Type} (k : string) (l : list (string * V)) : option V :=
  match l with
  | [] => None
  | (k', v) :: l' => if String.eqb k' k then Some v else assoc k l'
  end.

(** [v.key] for the property names the resolver reads from parsed JSON
    ([result], [length], [symbol], [type], [mic], [description], [exchange],
    [name], [choices], [message], [content], [ticker], [companyName],
    [confidence]): reading a property of [null] or [undefined] throws, a
    missing property is [undefined], strings and arrays have a [length]. *)
Definition get (v : value) (key : string) : comp value :=
  match v with
  | VUndefined | VNull => Throw TypeError
  | VObj fields =>
      Ok match assoc key fields with Some x => x | None => VUndefined end
  | VArr items =>
      Ok (if String.eqb key "length"
          then VNum (JsNum.of_nat (List.length items)) else VUndefined)
  | VStr s =>
      Ok (if String.eqb key "length"
          then VNum (JsNum.of_nat (String.length s)) else VUndefined)
  | VBool _ | VNum _ => Ok VUndefined
  end.

(** [v[0]] *)
Definition get0 (v : value) : comp value :=
  match v with
  | VUndefined | VNull => Throw TypeError
  | VObj fields =>
      Ok match assoc "0" fields with Some x => x | None => VUndefined end
  | VArr items => Ok (nth 0 items VUndefined)
  | VStr (String c _) => Ok (VStr (String c EmptyString))
  | VStr EmptyString | VBool _ | VNum _ => Ok VUndefined
  end.

End Js.

Declare Scope comp_scope.
Delimit Scope comp_scope with comp.
Notation "x <- c ;; k" := (Js.bind c (fun x => k))
  (at level 61, c at next level, right associativity) : comp_scope.

(** A [Map] with string keys: entries in insertion order, [set] on a present
    key keeps its place. *)
Module JsMap.

Definition t (V : Type) : Type := list (string * V).

Definition get {V : Type} (k : string) (m : t V) : option V := Js.assoc k m.

Fixpoint has {V : Type} (k : string) (m : t V) : bool :=
  match m with
  | [] => false
  | (k', _) :: m' => String.eqb k' k || has k m'
  end.

Fixpoint replace {V : Type} (k : string) (v : V) (m : t V) : t V :=
  match m with
  | [] => []
  | (k', v') :: m' =>
      if String.eqb k' k then (k', v) :: m' else (k', v') :: replace k v m'
  end.

Definition set {V : Type} (k : string) (v : V) (m : t V) : t V :=
  if has k m then replace k v m else m ++ [(k, v)].

Fixpoint delete {V : Type} (k : string) (m : t V) : t V :=
  match m with
  | [] => []
  | (k', v') :: m' =>
      if String.eqb k' k then m' else (k', v') :: delete k m'
  end.

Definition size {V : Type} (m : t V) : nat := List.length m.

Definition clear {V : Type} (m : t V) : t V := [].

End JsMap.

(* ================================================================== *)
(** * lib/tickerResolution.js and the resolver of lib/openaiService.js *)
(* ================================================================== *)

Module TickerResolution.

Import JsString Regex Js StringUtils.
Local Open Scope string_scope.
Local Open Scope comp_scope.

(** ** Data *)

(** The objects the resolver builds all have the shape
    [{ticker, exchange, name, confidence, resolvedFrom}], with [companyName]
    on the answers of the AI resolver and [telemetry] once an event has been
    attached.  A field that an object does not have reads as [VUndefined].
    [Candidate] is the same shape for the elements of a result list, whose
    [confidence] is always a number and which carry no telemetry. *)

Record CandidateSummary : Type := {
  cs_ticker : value;
  cs_confidence : JsNum.number
}.

Record TelemetryEvent : Type := {
  ev_type : string;
  ev_input : string;
  ev_timestamp : Z;
  ev_ticker : value;
  ev_confidence : value;
  ev_resolvedFrom : value;
  ev_matches : value;
  ev_candidates : option (list CandidateSummary)
}.

Record Resolution : Type := {
  r_ticker : value;
  r_exchange : value;
  r_name : value;
  r_companyName : value;
  r_confidence : value;
  r_resolvedFrom : value;
  r_telemetry : option TelemetryEvent
}.

Record Candidate : Type := {
  c_ticker : value;
  c_exchange : value;
  c_name : value;
  c_confidence : JsNum.number;
  c_resolvedFrom : string
}.

(** The object of a result list seen as a single result. *)
Definition as_resolution (c : Candidate) : Resolution :=
  {| r_ticker := c_ticker c;
     r_exchange := c_exchange c;
     r_name := c_name c;
     r_companyName := VUndefined;
     r_confidence := VNum (c_confidence c);
     r_resolvedFrom := VStr (c_resolvedFrom c);
     r_telemetry := None |}.

(** [{matches, confidence: 'ambiguous', resolvedFrom, telemetry}] *)
Record Ambiguous : Type := {
  a_matches : list Candidate;
  a_confidence : string;
  a_resolvedFrom : string;
  a_telemetry : TelemetryEvent
}.

Inductive Outcome : Type :=
| Single (r : Resolution)
| Multiple (a : Ambiguous).

(** [obj.telemetry = ev] *)
Definition set_telemetry (ev : TelemetryEvent) (r : Resolution) : Resolution :=
  {| r_ticker := r_ticker r;
     r_exchange := r_exchange r;
     r_name := r_name r;
     r_companyName := r_companyName r;
     r_confidence := r_confidence r;
     r_resolvedFrom := r_resolvedFrom r;
     r_telemetry := Some ev |}.

(** [{type, input, timestamp}] *)
Definition new_event (type input : string) (stamp : Z) : TelemetryEvent :=
  {| ev_type := type;
     ev_input := input;
     ev_timestamp := stamp;
     ev_ticker := VUndefined;
     ev_confidence := VUndefined;
     ev_resolvedFrom := VUndefined;
     ev_matches := VUndefined;
     ev_candidates := None |}.

(** [ev.type = ...; ev.ticker = ...;] and so on. *)
Definition set_type (type : string) (ev : TelemetryEvent) : TelemetryEvent :=
  {| ev_type := type;
     ev_input := ev_input ev;
     ev_timestamp := ev_timestamp ev;
     ev_ticker := ev_ticker ev;
     ev_confidence := ev_confidence ev;
     ev_resolvedFrom := ev_resolvedFrom ev;
     ev_matches := ev_matches ev;
     ev_candidates := ev_candidates ev |}.

Definition set_ticker (v : value) (ev : TelemetryEvent) : TelemetryEvent :=
  {| ev_type := ev_type ev;
     ev_input := ev_input ev;
     ev_timestamp := ev_timestamp ev;
     ev_ticker := v;
     ev_confidence := ev_confidence ev;
     ev_resolvedFrom := ev_resolvedFrom ev;
     ev_matches := ev_matches ev;
     ev_candidates := ev_candidates ev |}.

Definition set_confidence (v : value) (ev : TelemetryEvent) : TelemetryEvent :=
  {| ev_type := ev_type ev;
     ev_input := ev_input ev;
     ev_timestamp := ev_timestamp ev;
     ev_ticker := ev_ticker ev;
     ev_confidence := v;
     ev_resolvedFrom := ev_resolvedFrom ev;
     ev_matches := ev_matches ev;
     ev_candidates := ev_candidates ev |}.

Definition set_resolvedFrom (v : value) (ev : TelemetryEvent) : TelemetryEvent :=
  {| ev_type := ev_type ev;
     ev_input := ev_input ev;
     ev_timestamp := ev_timestamp ev;
     ev_ticker := ev_ticker ev;
     ev_confidence := ev_confidence ev;
     ev_resolvedFrom := v;
     ev_matches := ev_matches ev;
     ev_candidates := ev_candidates ev |}.

Definition set_matches (n : nat) (l : list CandidateSummary)
    (ev : TelemetryEvent) : TelemetryEvent :=
  {| ev_type := ev_type ev;
     ev_input := ev_input ev;
     ev_timestamp := ev_timestamp ev;
     ev_ticker := ev_ticker ev;
     ev_confidence := ev_confidence ev;
     ev_resolvedFrom := ev_resolvedFrom ev;
     ev_matches := VNum (JsNum.of_nat n);
     ev_candidates := Some l |}.

(** ** The catalog [localTickerMapping] *)

Record Entry : Type := {
  e_ticker : string;
  e_exchange : string;
  e_confidence : JsNum.number
}.

Definition entry (ticker exchange : string) (confidence : JsNum.number) : Entry :=
  {| e_ticker := ticker; e_exchange := exchange; e_confidence := confidence |}.

(** The literals [0.99], [0.95], [0.85], [0.88], [0.65] and [0.7]. *)
Definition c99 : JsNum.number := JsNum.lit 99 100.
Definition c95 : JsNum.number := JsNum.lit 95 100.
Definition c85 : JsNum.number := JsNum.lit 85 100.
Definition c88 : JsNum.number := JsNum.lit 88 100.
Definition c65 : JsNum.number := JsNum.lit 65 100.
Definition c70 : JsNum.number := JsNum.lit 7 10.

(** An object whose property values are entries: its own properties in the
    order [Object.entries] lists them, and its prototype, which is
    [Object.prototype] ([None]) until an assignment to [__proto__] installs
    an entry object in its place. *)
Record Catalog : Type := {
  own : list (string * Entry);
  proto : option Entry
}.

Definition is_digit (c : ascii) : bool :=
  (48 <=? code c)%nat && (code c <=? 57)%nat.

Fixpoint digits_value (s : string) (acc : N) : option N :=
  match s with
  | EmptyString => Some acc
  | String c s' =>
      if is_digit c
      then digits_value s' (10 * acc + N.of_nat (code c - 48))%N
      else None
  end.

(** An array index: the canonical decimal form of an integer below
    [2^32 - 1].  Such keys are listed first, in ascending order. *)
Definition array_index (k : string) : option N :=
  match k with
  | EmptyString => None
  | String c rest =>
      if (code c =? 48)%nat && negb (at_end rest) then None
      else
        match digits_value k 0 with
        | Some n => if (n <? 4294967295)%N then Some n else None
        | None => None
        end
  end.

(** Where a new index key [n] goes among the own properties. *)
Fixpoint insert_index (n : N) (k : string) (e : Entry)
    (l : list (string * Entry)) : list (string * Entry) :=
  match l with
  | [] => [(k, e)]
  | (k', e') :: l' =>
      match array_index k' with
      | Some n' =>
          if (n' <? n)%N then (k', e') :: insert_index n k e l'
          else (k, e) :: l
      | None => (k, e) :: l
      end
  end.

(** [obj[k] = e] *)
Definition obj_set (k : string) (e : Entry) (o : Catalog) : Catalog :=
  if String.eqb k "__proto__" then {| own := own o; proto := Some e |}
  else if JsMap.has k (own o)
  then {| own := JsMap.replace k e (own o); proto := proto o |}
  else
    match array_index k with
    | Some n => {| own := insert_index n k e (own o); proto := proto o |}
    | None => {| own := own o ++ [(k, e)]; proto := proto o |}
    end.

(** The property names of [Object.prototype]; each holds a function. *)
Definition object_prototype_keys : list string :=
  [ "constructor"; "__defineGetter__"; "__defineSetter__"; "hasOwnProperty";
    "__lookupGetter__"; "__lookupSetter__"; "isPrototypeOf";
    "propertyIsEnumerable"; "toString"; "valueOf"; "toLocaleString" ].

(** What [obj[k]] evaluates to: an entry object, some other value along the
    prototype chain (of which only the truthiness matters: its [ticker],
    [exchange] and [confidence] are undefined), or [undefined]. *)
Inductive Found : Type :=
| FEntry (e : Entry)
| FOther (truthy : bool)
| FMissing.

Definition obj_get (o : Catalog) (k : string) : Found :=
  match assoc k (own o) with
  | Some e => FEntry e
  | None =>
      if String.eqb k "__proto__" then
        match proto o with
        | Some e => FEntry e
        | None => FOther true
        end
      else
        match proto o with
        | Some e =>
            if String.eqb k "ticker" then FOther (JsString.truthy (e_ticker e))
            else if String.eqb k "exchange"
            then FOther (JsString.truthy (e_exchange e))
            else if String.eqb k "confidence"
            then FOther (JsNum.truthy (e_confidence e))
            else if existsb (String.eqb k) object_prototype_keys
            then FOther true
            else FMissing
        | None =>
            if existsb (String.eqb k) object_prototype_keys
            then FOther true
            else FMissing
        end
  end.

Definition seed_literal : list (string * Entry) :=
  [
    ("apple", entry "AAPL" "NASDAQ" c99);
    ("apple inc", entry "AAPL" "NASDAQ" c99);
    ("apple corporation", entry "AAPL" "NASDAQ" c99);
    ("microsoft", entry "MSFT" "NASDAQ" c99);
    ("microsoft corporation", entry "MSFT" "NASDAQ" c99);
    ("msft", entry "MSFT" "NASDAQ" c99);
    ("nvidia", entry "NVDA" "NASDAQ" c99);
    ("nvidia corporation", entry "NVDA" "NASDAQ" c99);
    ("nvda", entry "NVDA" "NASDAQ" c99);
    ("google", entry "GOOGL" "NASDAQ" c95);
    ("alphabet", entry "GOOGL" "NASDAQ" c99);
    ("alphabet inc", entry "GOOGL" "NASDAQ" c99);
    ("googl", entry "GOOGL" "NASDAQ" c99);
    ("tesla", entry "TSLA" "NASDAQ" c99);
    ("tesla inc", entry "TSLA" "NASDAQ" c99);
    ("tsla", entry "TSLA" "NASDAQ" c99);
    ("amazon", entry "AMZN" "NASDAQ" c99);
    ("amazon.com", entry "AMZN" "NASDAQ" c99);
    ("amzn", entry "AMZN" "NASDAQ" c99);
    ("facebook", entry "META" "NASDAQ" c95);
    ("meta", entry "META" "NASDAQ" c99);
    ("meta platforms", entry "META" "NASDAQ" c99);
    ("jpmorgan", entry "JPM" "NYSE" c95);
    ("jpmorgan chase", entry "JPM" "NYSE" c99);
    ("jpm", entry "JPM" "NYSE" c99);
    ("berkshire", entry "BRK.B" "NYSE" c95);
    ("berkshire hathaway", entry "BRK.B" "NYSE" c99);
    ("brk", entry "BRK.B" "NYSE" c95);
    ("visa", entry "V" "NYSE" c99);
    ("netflix", entry "NFLX" "NASDAQ" c99);
    ("netflix inc", entry "NFLX" "NASDAQ" c99);
    ("nflx", entry "NFLX" "NASDAQ" c99);
    ("nvidia", entry "NVDA" "NASDAQ" c99);
    ("nvidia corporation", entry "NVDA" "NASDAQ" c99);
    ("nvda", entry "NVDA" "NASDAQ" c99);
    ("intel", entry "INTC" "NASDAQ" c99);
    ("intel corporation", entry "INTC" "NASDAQ" c99);
    ("intc", entry "INTC" "NASDAQ" c99);
    ("amd", entry "AMD" "NASDAQ" c99);
    ("advanced micro devices", entry "AMD" "NASDAQ" c99);
    ("oracle", entry "ORCL" "NYSE" c99);
    ("oracle corporation", entry "ORCL" "NYSE" c99);
    ("orcl", entry "ORCL" "NYSE" c99);
    ("salesforce", entry "CRM" "NYSE" c99);
    ("salesforce inc", entry "CRM" "NYSE" c99);
    ("crm", entry "CRM" "NYSE" c99);
    ("adobe", entry "ADBE" "NASDAQ" c99);
    ("adobe systems", entry "ADBE" "NASDAQ" c99);
    ("adbe", entry "ADBE" "NASDAQ" c99);
    ("accenture", entry "ACN" "NYSE" c99);
    ("acn", entry "ACN" "NYSE" c99);
    ("servicenow", entry "NOW" "NYSE" c99);
    ("now", entry "NOW" "NYSE" c99);
    ("datadog", entry "DDOG" "NASDAQ" c99);
    ("ddog", entry "DDOG" "NASDAQ" c99);
    ("crowdstrike", entry "CRWD" "NASDAQ" c99);
    ("crwd", entry "CRWD" "NASDAQ" c99);
    ("snowflake", entry "SNOW" "NYSE" c99);
    ("snow", entry "SNOW" "NYSE" c99);
    ("paypal", entry "PYPL" "NASDAQ" c99);
    ("pypl", entry "PYPL" "NASDAQ" c99);
    ("square", entry "SQ" "NYSE" c95);
    ("block inc", entry "SQ" "NYSE" c99);
    ("sq", entry "SQ" "NYSE" c99);
    ("uber", entry "UBER" "NYSE" c99);
    ("uber technologies", entry "UBER" "NYSE" c99);
    ("lyft", entry "LYFT" "NASDAQ" c99);
    ("airbnb", entry "ABNB" "NASDAQ" c99);
    ("abnb", entry "ABNB" "NASDAQ" c99);
    ("doordash", entry "DASH" "NYSE" c99);
    ("dash", entry "DASH" "NYSE" c99);
    ("shopify", entry "SHOP" "NYSE" c99);
    ("shop", entry "SHOP" "NYSE" c99);
    ("spotify", entry "SPOT" "NYSE" c99);
    ("spot", entry "SPOT" "NYSE" c99)
  ].

(** The object literal: a repeated key keeps its first place and takes the
    last value. *)
Definition seed_catalog : Catalog :=
  fold_left (fun o kv => obj_set (fst kv) (snd kv) o) seed_literal
            {| own := []; proto := None |}.

(** [addLocalMapping(companyName, ticker, exchange, confidence)] *)
Definition addLocalMapping (companyName ticker exchange : string)
    (confidence : JsNum.number) (catalog : Catalog) : Catalog :=
  let normalized := normalizeString companyName in
  obj_set normalized (entry ticker exchange confidence) catalog.

(** ** The resolution cache *)

Definition CACHE_TTL_MS : Z := 24 * 60 * 60 * 1000.

Record CacheEntry : Type := {
  data : Resolution;
  timestamp : Z
}.

Definition Cache : Type := JsMap.t CacheEntry.

(** [getCachedResolution(normalizedInput)], with [now] the reading of
    [Date.now()]; the cache after the call is returned with the answer. *)
Definition getCachedResolution (now : Z) (normalizedInput : string)
    (resolutionCache : Cache) : option Resolution * Cache :=
  match JsMap.get normalizedInput resolutionCache with
  | Some cached =>
      if (now - timestamp cached <? CACHE_TTL_MS)%Z
      then (Some (data cached), resolutionCache)
      else (None, JsMap.delete normalizedInput resolutionCache)
  | None => (None, resolutionCache)
  end.

(** [setCacheResolution(normalizedInput, resolution)] *)
Definition setCacheResolution (now : Z) (normalizedInput : string)
    (resolution : Resolution) (resolutionCache : Cache) : Cache :=
  JsMap.set normalizedInput {| data := resolution; timestamp := now |}
            resolutionCache.

(** [clearResolutionCache(normalizedInput = null)] *)
Definition clearResolutionCache (normalizedInput : option string)
    (resolutionCache : Cache) : Cache :=
  match normalizedInput with
  | None => JsMap.clear resolutionCache
  | Some k => JsMap.delete k resolutionCache
  end.

Record StatsEntry : Type := {
  se_input : string;
  se_ticker : value;
  se_age : Z
}.

Record CacheStats : Type := {
  cs_size : nat;
  cs_entries : list StatsEntry
}.

(** [getCacheStats()], with [now] the reading of [Date.now()]; as for the
    other cache operations the cache after the call is returned too. *)
Definition getCacheStats (now : Z) (resolutionCache : Cache)
    : CacheStats * Cache :=
  ({| cs_size := JsMap.size resolutionCache;
      cs_entries :=
        map (fun kv =>
               {| se_input := fst kv;
                  se_ticker := r_ticker (data (snd kv));
                  se_age := (now - timestamp (snd kv))%Z |})
            resolutionCache |},
   resolutionCache).

(** ** The surroundings of one call *)

(** A request is kept as the parts its URL or body is built from: the
    endpoint, the text sent as query and the credential. *)
Record Request : Type := {
  url : string;
  query : string;
  credential : string
}.

(** What the code reads of a response: [response.ok] and the outcome of
    [response.json()]. *)
Record Response : Type := {
  ok : bool;
  json : comp value
}.

(** The process environment, the network, the clock and the parts of the
    language runtime that are not spelled out here.  [fetch] may reject and
    [json] may throw; [now_event] is the instant of [new Date()] at the start
    of a call, [now_lookup] and [now_store] are the readings of [Date.now()]
    in [getCachedResolution] and [setCacheResolution]. *)
Record Env : Type := {
  FINNHUB_API_KEY : option string;
  IEX_CLOUD_API_KEY : option string;
  OPENAI_API_KEY : option string;
  fetch : Request -> comp Response;
  JSON_parse : string -> comp value;
  ToNumber : value -> comp JsNum.number;
  import_openaiService : comp unit;
  now_event : Z;
  now_lookup : Z;
  now_store : Z
}.

(** [options], after the defaults of the destructuring have been applied. *)
Record Options : Type := {
  o_exchange : option string;
  o_provider : string;
  o_forceRefresh : bool
}.

Definition default_options : Options :=
  {| o_exchange := None; o_provider := "auto"; o_forceRefresh := false |}.

(** Truthiness of a value that is a string, [null] or [undefined]. *)
Definition truthy_opt (s : option string) : bool :=
  match s with
  | Some t => JsString.truthy t
  | None => false
  end.

Record State : Type := {
  resolutionCache : Cache;
  localTickerMapping : Catalog
}.

Definition with_cache (c : Cache) (st : State) : State :=
  {| resolutionCache := c; localTickerMapping := localTickerMapping st |}.

(** ** Ticker detection *)

(** [/^[A-Z]{1,5}(\.?[A-Z]{1,2})?$/] *)
Definition tickerPattern (upper dot : ascii -> bool) : regex :=
  Seq (range 1 5 (Class upper))
      (Opt (Seq (Opt (Class dot)) (range 1 2 (Class upper)))).

(** [isTickerSymbol(input)] *)
Definition isTickerSymbol (input : string) : bool :=
  test_anchored (tickerPattern is_upper is_dot) input.

(** ** Catalog lookup *)

(** [tryLocalMapping(normalizedInput, exchange)] *)
Definition tryLocalMapping (catalog : Catalog) (normalizedInput : string)
    (exchange : option string) : option Resolution :=
  let hit (ticker xchg confidence : value) : option Resolution :=
    if truthy_opt exchange
       && negb (match exchange with Some x => is_str xchg x | None => false end)
    then None
    else Some {| r_ticker := ticker;
                 r_exchange := xchg;
                 r_name := VStr normalizedInput;
                 r_companyName := VUndefined;
                 r_confidence := confidence;
                 r_resolvedFrom := VStr "local_cache";
                 r_telemetry := None |} in
  match obj_get catalog normalizedInput with
  | FEntry e =>
      hit (VStr (e_ticker e)) (VStr (e_exchange e)) (VNum (e_confidence e))
  | FOther true => hit VUndefined VUndefined VUndefined
  | FOther false | FMissing => None
  end.

(** ** External lookups *)

Definition zero : JsNum.number := JsNum.of_Z 0.

(** [v > 0]; the conversion of strings, arrays and objects to a number is
    left to the runtime. *)
Definition gt_zero (env : Env) (v : value) : comp bool :=
  match v with
  | VNum x => Ok (JsNum.gt x zero)
  | VUndefined | VNull => Ok false
  | VBool b => Ok b
  | VStr _ | VArr _ | VObj _ =>
      x <- ToNumber env v ;; Ok (JsNum.gt x zero)
  end.

(** [v.map(f)]: only an array has a callable [map]. *)
Definition array_map {B : Type} (f : value -> comp B) (v : value)
    : comp (list B) :=
  match v with
  | VArr items => mapM f items
  | _ => Throw TypeError
  end.

Definition finnhub_item (item : value) : comp Candidate :=
  symbol <- get item "symbol" ;;
  type <- get item "type" ;;
  mic <- get item "mic" ;;
  description <- get item "description" ;;
  Ok {| c_ticker := symbol;
        c_exchange :=
          if is_str type "Common Stock" then or_else mic (VStr "NASDAQ")
          else mic;
        c_name := or_else description symbol;
        c_confidence := c85;
        c_resolvedFrom := "finnhub_api" |}.

(** [tryFinnhubLookup(input)]; [None] is the [null] it returns. *)
Definition tryFinnhubLookup (env : Env) (input : string)
    : comp (option (list Candidate)) :=
  match FINNHUB_API_KEY env with
  | None => Ok None
  | Some apiKey =>
      if negb (JsString.truthy apiKey) then Ok None
      else
        try_catch
          (response <- fetch env {| url := "https://finnhub.io/api/v1/search/symbol";
                                    query := input;
                                    credential := apiKey |} ;;
           if negb (ok response) then Ok None
           else
             data <- json response ;;
             result <- get data "result" ;;
             if truthy result then
               len <- get result "length" ;;
               nonempty <- gt_zero env len ;;
               if nonempty then
                 results <- array_map finnhub_item result ;;
                 Ok (Some results)
               else Ok None
             else Ok None)
          (fun error => Ok None)
  end.

Definition iex_item (item : value) : comp Candidate :=
  symbol <- get item "symbol" ;;
  exchange <- get item "exchange" ;;
  name <- get item "name" ;;
  Ok {| c_ticker := symbol;
        c_exchange := or_else exchange (VStr "UNKNOWN");
        c_name := or_else name symbol;
        c_confidence := c88;
        c_resolvedFrom := "iex_cloud_api" |}.

(** [tryIexCloudLookup(input)] *)
Definition tryIexCloudLookup (env : Env) (input : string)
    : comp (option (list Candidate)) :=
  match IEX_CLOUD_API_KEY env with
  | None => Ok None
  | Some apiKey =>
      if negb (JsString.truthy apiKey) then Ok None
      else
        try_catch
          (response <- fetch env {| url := "https://cloud.iexapis.com/stable/search";
                                    query := input;
                                    credential := apiKey |} ;;
           if negb (ok response) then Ok None
           else
             data <- json response ;;
             match data with
             | VArr ((_ :: _) as items) =>
                 results <- mapM iex_item items ;;
                 Ok (Some results)
             | _ => Ok None
             end)
          (fun error => Ok None)
  end.

(** [v.trim()] and [v.toUpperCase()]: only a string has these methods. *)
Definition str_trim (v : value) : comp string :=
  match v with
  | VStr s => Ok (trim s)
  | _ => Throw TypeError
  end.

Definition str_toUpperCase (v : value) : comp string :=
  match v with
  | VStr s => Ok (toUpperCase s)
  | _ => Throw TypeError
  end.

(** [resolveTickerWithOpenAI(companyName)] of [lib/openaiService.js] *)
Definition resolveTickerWithOpenAI (env : Env) (companyName : string)
    : comp (option Resolution) :=
  match OPENAI_API_KEY env with
  | None => Ok None
  | Some apiKey =>
      if negb (JsString.truthy apiKey) then Ok None
      else
        try_catch
          (response <- fetch env {| url := "https://api.openai.com/v1/chat/completions";
                                    query := companyName;
                                    credential := apiKey |} ;;
           if negb (ok response) then Ok None
           else
             data <- json response ;;
             choices <- get data "choices" ;;
             if negb (truthy choices) then Ok None
             else
               first <- get0 choices ;;
               if negb (truthy first) then Ok None
               else
                 message <- get first "message" ;;
                 if negb (truthy message) then Ok None
                 else
                   raw <- get message "content" ;;
                   content <- str_trim raw ;;
                   result <- JSON_parse env content ;;
                   ticker <- get result "ticker" ;;
                   if truthy ticker && negb (is_str ticker "null")
                   then
                     upper <- str_toUpperCase ticker ;;
                     name <- get result "companyName" ;;
                     confidence <- get result "confidence" ;;
                     Ok (Some {| r_ticker := VStr upper;
                                 r_exchange := VUndefined;
                                 r_name := VUndefined;
                                 r_companyName := or_else name (VStr companyName);
                                 r_confidence := or_else confidence (VNum c85);
                                 r_resolvedFrom := VStr "openai";
                                 r_telemetry := None |})
                   else Ok None)
          (fun error => Ok None)
  end.

(** ** Sorting and fuzzy matching *)

(** [list.sort(compare)], a stable sort: an element moves behind a later one
    exactly when [compare] of the two is positive. *)
Fixpoint sort_insert {A : Type} (compare : A -> A -> JsNum.number) (x : A)
    (l : list A) : list A :=
  match l with
  | [] => [x]
  | y :: l' =>
      if JsNum.gt (compare x y) zero
      then y :: sort_insert compare x l'
      else x :: l
  end.

Fixpoint sort {A : Type} (compare : A -> A -> JsNum.number) (l : list A)
    : list A :=
  match l with
  | [] => []
  | x :: l' => sort_insert compare x (sort compare l')
  end.

(** [(a, b) => b.confidence - a.confidence] *)
Definition by_confidence_desc (a b : Candidate) : JsNum.number :=
  JsNum.sub (c_confidence b) (c_confidence a).

(** The similarity computed in the loop of [fuzzyMatchLocalTickers]. *)
Definition similarity (normalizedInput company : string) : JsNum.number :=
  let distance := levenshteinDistance normalizedInput company in
  let maxLen := Nat.max (String.length normalizedInput) (String.length company) in
  JsNum.sub (JsNum.of_Z 1)
            (JsNum.div (JsNum.of_nat distance) (JsNum.of_nat maxLen)).

(** [Math.round(similarity * 100) / 100] *)
Definition round2 (x : JsNum.number) : JsNum.number :=
  JsNum.div (JsNum.round (JsNum.mul x (JsNum.of_Z 100))) (JsNum.of_Z 100).

Definition fuzzy_candidate (company : string) (tickerInfo : Entry)
    (sim : JsNum.number) : Candidate :=
  {| c_ticker := VStr (e_ticker tickerInfo);
     c_exchange := VStr (e_exchange tickerInfo);
     c_name := VStr company;
     c_confidence := round2 sim;
     c_resolvedFrom := "fuzzy_match" |}.

(** The loop over [Object.entries(localTickerMapping)]. *)
Fixpoint fuzzy_scan (normalizedInput : string) (threshold : JsNum.number)
    (entries : list (string * Entry)) : list Candidate :=
  match entries with
  | [] => []
  | (company, tickerInfo) :: rest =>
      let sim := similarity normalizedInput company in
      if JsNum.ge sim threshold
      then fuzzy_candidate company tickerInfo sim
             :: fuzzy_scan normalizedInput threshold rest
      else fuzzy_scan normalizedInput threshold rest
  end.

(** The parameter [threshold = 0.7]: an omitted argument takes the default. *)
Definition or_default (threshold : option JsNum.number) : JsNum.number :=
  match threshold with
  | Some given => given
  | None => c70
  end.

(** [fuzzyMatchLocalTickers(normalizedInput, threshold = 0.7)] *)
Definition fuzzyMatchLocalTickers (catalog : Catalog)
    (normalizedInput : string) (threshold : option JsNum.number)
    : list Candidate :=
  let threshold := or_default threshold in
  let matches := fuzzy_scan normalizedInput threshold (own catalog) in
  sort by_confidence_desc matches.

(** ** The orchestrator *)

Definition summary (r : Candidate) : CandidateSummary :=
  {| cs_ticker := c_ticker r; cs_confidence := c_confidence r |}.

(** [setCacheResolution(normalizedInput, obj)] on the state. *)
Definition store (env : Env) (key : string) (obj : Resolution) (st : State)
    : State :=
  with_cache (setCacheResolution (now_store env) key obj (resolutionCache st))
             st.

(** [obj.telemetry = ev; return obj] for an object that the cache entry of
    [key] holds, be it the one just stored or the one a lookup returned: the
    assignment is to the shared object, so the entry shows it too, with its
    time stamp as it was. *)
Definition tag_shared (key : string) (obj : Resolution) (ev : TelemetryEvent)
    (st : State) : Resolution * State :=
  let tagged := set_telemetry ev obj in
  (tagged,
   with_cache
     (match JsMap.get key (resolutionCache st) with
      | Some held =>
          JsMap.replace key {| data := tagged; timestamp := timestamp held |}
                        (resolutionCache st)
      | None => resolutionCache st
      end) st).

Definition not_found (trimmedInput : string) (telemetryEvent : TelemetryEvent)
    : Resolution :=
  {| r_ticker := VNull;
     r_exchange := VNull;
     r_name := VStr trimmedInput;
     r_companyName := VUndefined;
     r_confidence := VNum zero;
     r_resolvedFrom := VStr "not_found";
     r_telemetry := Some (set_type "symbol_not_found" telemetryEvent) |}.

(** [try { import(...); resolveTickerWithOpenAI(trimmedInput) } catch {}] *)
Definition ai_answer (env : Env) (trimmedInput : string)
    : comp (option Resolution) :=
  try_catch
    (_ <- import_openaiService env ;;
     resolveTickerWithOpenAI env trimmedInput)
    (fun error => Ok None).

(** The last resort: [resolveTickerWithOpenAI], then the not-found result. *)
Definition ai_fallback (env : Env) (normalizedInput trimmedInput : string)
    (telemetryEvent : TelemetryEvent) (st : State) : comp (Outcome * State) :=
  aiResult <- ai_answer env trimmedInput ;;
  match aiResult with
  | Some aiResult =>
      if truthy (r_ticker aiResult) then
        let ev :=
          set_resolvedFrom (VStr "openai")
            (set_confidence (r_confidence aiResult)
               (set_ticker (r_ticker aiResult)
                  (set_type "symbol_resolved" telemetryEvent))) in
        let st := store env normalizedInput aiResult st in
        let (result, st') := tag_shared normalizedInput aiResult ev st in
        Ok (Single result, st')
      else Ok (Single (not_found trimmedInput telemetryEvent), st)
  | None => Ok (Single (not_found trimmedInput telemetryEvent), st)
  end.

(** The fuzzy fallback and what follows it. *)
Definition fuzzy_fallback (env : Env) (normalizedInput trimmedInput : string)
    (telemetryEvent : TelemetryEvent) (st : State) : comp (Outcome * State) :=
  let fuzzyMatches :=
    fuzzyMatchLocalTickers (localTickerMapping st) normalizedInput (Some c65) in
  match fuzzyMatches with
  | [] => ai_fallback env normalizedInput trimmedInput telemetryEvent st
  | first :: others =>
      if (List.length fuzzyMatches =? 1)%nat
         && JsNum.gt (c_confidence first) c85
      then
        let ev :=
          set_resolvedFrom (VStr "fuzzy_match")
            (set_confidence (VNum (c_confidence first))
               (set_ticker (c_ticker first)
                  (set_type "symbol_resolved" telemetryEvent))) in
        let st := store env normalizedInput (as_resolution first) st in
        let (result, st') :=
          tag_shared normalizedInput (as_resolution first) ev st in
        Ok (Single result, st')
      else
        let ev :=
          set_matches (List.length fuzzyMatches)
            (map summary (firstn 3 fuzzyMatches))
            (set_type "symbol_ambiguous" telemetryEvent) in
        Ok (Multiple {| a_matches := fuzzyMatches;
                        a_confidence := "ambiguous";
                        a_resolvedFrom := "fuzzy_match";
                        a_telemetry := ev |}, st)
  end.

(** The candidates of the external providers, after the exchange filter. *)
Definition api_results (env : Env) (trimmedInput : string)
    (exchange : option string) (provider : string) : comp (list Candidate) :=
  finnhubResults <-
    (if String.eqb provider "auto" || String.eqb provider "finnhub"
     then tryFinnhubLookup env trimmedInput
     else Ok None) ;;
  let apiResults :=
    match finnhubResults with Some found => found | None => [] end in
  iexResults <-
    (if (List.length apiResults =? 0)%nat
        && (String.eqb provider "auto" || String.eqb provider "iex")
     then tryIexCloudLookup env trimmedInput
     else Ok None) ;;
  let apiResults :=
    match iexResults with Some found => found | None => apiResults end in
  Ok (if truthy_opt exchange && (0 <? List.length apiResults)%nat then
        let filtered :=
          filter (fun r =>
                    match exchange with
                    | Some x => is_str (c_exchange r) x
                    | None => false
                    end) apiResults in
        if (0 <? List.length filtered)%nat then filtered else apiResults
      else apiResults).

(** The external providers and what follows them. *)
Definition api_lookup (env : Env) (normalizedInput trimmedInput : string)
    (exchange : option string) (provider : string)
    (telemetryEvent : TelemetryEvent) (st : State) : comp (Outcome * State) :=
  apiResults <- api_results env trimmedInput exchange provider ;;
  (* [if (apiResults.length > 0)], read off the sorted array, which has the
     same elements; [topResult] is its first element. *)
  match sort by_confidence_desc apiResults with
  | [] => fuzzy_fallback env normalizedInput trimmedInput telemetryEvent st
  | (topResult :: _) as apiResults =>
      let st := store env normalizedInput (as_resolution topResult) st in
      if (List.length apiResults =? 1)%nat then
        let ev :=
          set_resolvedFrom (VStr (c_resolvedFrom topResult))
            (set_confidence (VNum (c_confidence topResult))
               (set_ticker (c_ticker topResult)
                  (set_type "symbol_resolved" telemetryEvent))) in
        let (result, st') :=
          tag_shared normalizedInput (as_resolution topResult) ev st in
        Ok (Single result, st')
      else
        let ev :=
          set_matches (List.length apiResults)
            (map summary (firstn 3 apiResults))
            (set_type "symbol_ambiguous" telemetryEvent) in
        Ok (Multiple {| a_matches := apiResults;
                        a_confidence := "ambiguous";
                        a_resolvedFrom := "api_search";
                        a_telemetry := ev |}, st)
  end.

(** [resolveTickerOrCompanyName(input, options)] *)
Definition resolveTickerOrCompanyName (env : Env) (input : string)
    (options : Options) (st : State) : comp (Outcome * State) :=
  let exchange := o_exchange options in
  let provider := o_provider options in
  let forceRefresh := o_forceRefresh options in
  let normalizedInput := normalizeString input in
  let trimmedInput := trim input in
  let telemetryEvent :=
    new_event "ticker_resolution_attempt" trimmedInput (now_event env) in
  if isTickerSymbol (toUpperCase trimmedInput) then
    let ev :=
      set_resolvedFrom (VStr "input_detection")
        (set_ticker (VStr (toUpperCase trimmedInput))
           (set_type "ticker_resolution_detected_ticker" telemetryEvent)) in
    Ok (Single {| r_ticker := VStr (toUpperCase trimmedInput);
                  r_exchange :=
                    VStr (match exchange with
                          | Some x => if JsString.truthy x then x else "UNKNOWN"
                          | None => "UNKNOWN"
                          end);
                  r_name := VNull;
                  r_companyName := VUndefined;
                  r_confidence := VNum (JsNum.of_Z 1);
                  r_resolvedFrom := VStr "input_detection";
                  r_telemetry := Some ev |}, st)
  else
    let (cached, st) :=
      if forceRefresh then (None, st)
      else
        let (found, cache') :=
          getCachedResolution (now_lookup env) normalizedInput
            (resolutionCache st) in
        (found, with_cache cache' st) in
    match cached with
    | Some cached =>
        let ev :=
          set_ticker (r_ticker cached)
            (set_type "ticker_resolution_cache_hit" telemetryEvent) in
        let (result, st') := tag_shared normalizedInput cached ev st in
        Ok (Single result, st')
    | None =>
        match tryLocalMapping (localTickerMapping st) normalizedInput exchange with
        | Some localMatch =>
            let ev :=
              set_resolvedFrom (VStr "local_cache")
                (set_confidence (r_confidence localMatch)
                   (set_ticker (r_ticker localMatch)
                      (set_type "symbol_resolved" telemetryEvent))) in
            let st := store env normalizedInput localMatch st in
            let (result, st') :=
              tag_shared normalizedInput localMatch ev st in
            Ok (Single result, st')
        | None =>
            api_lookup env normalizedInput trimmedInput exchange provider
              telemetryEvent st
        end
    end.

(** ** The call with arguments of any type *)

(** The second argument of a call: left out or [undefined], [null], or an
    object.  Of an object each of the three properties is there or not; one
    that is there has the type the documentation of the function gives it,
    [exchange] being a string or [null]. *)
Inductive OptionsArgument : Type :=
| Omitted
| PassedNull
| Passed (exchange : option (option string)) (provider : option string)
         (forceRefresh : option bool).

(** [options = {}] in the parameter list, then
    [const { exchange = null, provider = 'auto', forceRefresh = false } =
    options]: a property that is not there takes its default, and [null]
    cannot be destructured. *)
Definition destructure (options : OptionsArgument) : comp Options :=
  match options with
  | Omitted => Ok default_options
  | PassedNull => Throw TypeError
  | Passed exchange provider forceRefresh =>
      Ok {| o_exchange :=
              match exchange with Some given => given | None => None end;
            o_provider :=
              match provider with Some given => given | None => "auto" end;
            o_forceRefresh :=
              match forceRefresh with Some given => given | None => false end |}
  end.

(** [normalizeString(input)] for an argument of any type: the guard
    [typeof input !== 'string'] answers the empty string. *)
Definition normalizeString_of (input : value) : string :=
  match input with
  | VStr s => normalizeString s
  | _ => ""
  end.

(** [resolveTickerOrCompanyName(input, options)] for arguments of any type.
    The body starts, outside any [try], with the destructuring of [options],
    [normalizeString(input)] and [input.trim()].  The last is a method call:
    [null] and [undefined] have no properties, and of the other values only
    a string has a method [trim].  For a string the call goes on as
    [resolveTickerOrCompanyName] above describes. *)
Definition resolveTickerOrCompanyName_call (env : Env) (input : value)
    (options : OptionsArgument) (st : State) : comp (Outcome * State) :=
  options <- destructure options ;;
  match input with
  | VStr s => resolveTickerOrCompanyName env s options st
  | VUndefined | VNull | VBool _ | VNum _ | VArr _ | VObj _ =>
      (* [normalizeString(input)] is [''], then [input.trim()] throws *)
      Throw TypeError
  end.

End TickerResolution.

(* ================================================================== *)
(** * The helpers of lib/openaiService.js *)
(* ================================================================== *)

Module OpenaiService.

Import JsString Js.
Local Open Scope string_scope.

(** [constructEnrichedQuery(userQuery, ticker, companyName)], the company
    name being a string or [null]. *)
Definition constructEnrichedQuery (userQuery ticker : string)
    (companyName : option string) : string :=
  let enriched := userQuery in
  let enriched :=
    if negb (includes (toUpperCase enriched) (toUpperCase ticker))
    then enriched ++ " (Ticker: " ++ ticker ++ ")"
    else enriched in
  let enriched :=
    match companyName with
    | Some name =>
        if JsString.truthy name
           && negb (includes (toLowerCase enriched) (toLowerCase name))
        then enriched ++ " - " ++ name
        else enriched
    | None => enriched
    end in
  enriched.




End OpenaiService.

(* ================================================================== *)
(** * app/api/ticker-resolution/route.js *)
(* ================================================================== *)

Module Route.

Import JsString Js StringUtils TickerResolution.
Local Open Scope string_scope.

(** What [searchParams.get] gives for the five parameters the handlers
    read: the text of the parameter, or [null] when it is not there. *)
Record SearchParams : Type := {
  sp_query : option string;
  sp_exchange : option string;
  sp_provider : option string;
  sp_refresh : option string;
  sp_stats : option string
}.

(** The body of a request as [request.json()] parses it: [null], a value
    without properties of its own names (a boolean, a number, a string, an
    array), or an object.  Of an object the property [query] is any value;
    each of the other three is there or not, and one that is there has the
    type the resolver documents for it. *)
Inductive RequestBody : Type :=
| BodyNull
| BodyPlain
| BodyObject (query : value) (exchange : option (option string))
             (provider : option string) (forceRefresh : option bool).

(** The bodies of the responses.  The [timestamp] of a body is the instant
    the response is built. *)
Inductive ResponseBody : Type :=
| Required (error : string)
| Failed (error : exn)
| Stats (cacheStats : CacheStats)
| Resolved (query : value) (resolution : Outcome) (timestamp : Z)
           (cacheStats : option CacheStats)
| Cleared (message : string) (timestamp : Z).

(** [NextResponse.json(body, { status })]; the status is 200 when none is
    given. *)
Record HttpResponse : Type := {
  status : nat;
  body : ResponseBody
}.

(** [param === 'true'] *)
Definition is_true (param : option string) : bool :=
  match param with
  | Some text => String.eqb text "true"
  | None => false
  end.

(** [!resolution.ticker && resolution.confidence !== 'ambiguous']: an
    ambiguous result has no [ticker]. *)
Definition unresolved (resolution : Outcome) : bool :=
  match resolution with
  | Single r =>
      negb (truthy (r_ticker r)) && negb (is_str (r_confidence r) "ambiguous")
  | Multiple a => negb (String.eqb (a_confidence a) "ambiguous")
  end.

(** [GET(request)], with [now_stats] the reading of [Date.now()] in
    [getCacheStats] and [now_response] the instant of [new Date()].  An
    exception of the resolver is caught with the state as the handler found
    it. *)
Definition GET (env : Env) (now_stats now_response : Z)
    (searchParams : SearchParams) (st : State) : HttpResponse * State :=
  let query := sp_query searchParams in
  let exchange := sp_exchange searchParams in
  let provider :=
    match sp_provider searchParams with
    | Some given => if JsString.truthy given then given else "auto"
    | None => "auto"
    end in
  let forceRefresh := is_true (sp_refresh searchParams) in
  let includeStats := is_true (sp_stats searchParams) in
  match query with
  | Some query =>
      if JsString.truthy query then
        match
          resolveTickerOrCompanyName env query
            {| o_exchange := exchange;
               o_provider := provider;
               o_forceRefresh := forceRefresh |} st
        with
        | Ok (resolution, st') =>
            let cacheStats :=
              if includeStats
              then Some (fst (getCacheStats now_stats (resolutionCache st')))
              else None in
            let response :=
              Resolved (VStr query) resolution now_response cacheStats in
            if unresolved resolution
            then ({| status := 404; body := response |}, st')
            else ({| status := 200; body := response |}, st')
        | Throw error => ({| status := 500; body := Failed error |}, st)
        end
      else if includeStats
      then ({| status := 200;
               body := Stats (fst (getCacheStats now_stats
                                     (resolutionCache st))) |}, st)
      else ({| status := 400;
               body := Required "query parameter is required" |}, st)
  | None =>
      if includeStats
      then ({| status := 200;
               body := Stats (fst (getCacheStats now_stats
                                     (resolutionCache st))) |}, st)
      else ({| status := 400;
               body := Required "query parameter is required" |}, st)
  end.

(** [POST(request)], with [json] the outcome of [request.json()].  A body
    that is [null] cannot be destructured; a query that is falsy is refused;
    any other query is passed to the resolver as it is. *)
Definition POST (env : Env) (now_response : Z) (json : comp RequestBody)
    (st : State) : HttpResponse * State :=
  match json with
  | Throw error => ({| status := 500; body := Failed error |}, st)
  | Ok BodyNull => ({| status := 500; body := Failed TypeError |}, st)
  | Ok BodyPlain =>
      ({| status := 400; body := Required "query field is required" |}, st)
  | Ok (BodyObject query exchange provider forceRefresh) =>
      let provider :=
        match provider with Some given => given | None => "auto" end in
      let forceRefresh :=
        match forceRefresh with Some given => given | None => false end in
      if negb (truthy query)
      then ({| status := 400; body := Required "query field is required" |},
            st)
      else
        match
          resolveTickerOrCompanyName_call env query
            (Passed exchange (Some provider) (Some forceRefresh)) st
        with
        | Ok (resolution, st') =>
            ({| status := 200;
                body :=
                  Resolved query resolution now_response None |}, st')
        | Throw error => ({| status := 500; body := Failed error |}, st)
        end
  end.


End Route.

(* ================================================================== *)
(** * Notions used to state the properties *)
(* ================================================================== *)

Module Notions.

Import JsString Regex Js StringUtils TickerResolution.
Local Open Scope string_scope.

(** ** Numbers and sorting *)

(** [x > 0] *)
Definition positive_float (x : JsNum.number) : bool :=
  SFltb (S754_zero false) x.

(** [x] may stand right before [y] in a list sorted with [compare]: the
    comparator does not ask for [y] first. *)
Definition in_order {A : Type} (compare : A -> A -> JsNum.number)
    (x y : A) : Prop :=
  JsNum.gt (compare x y) zero = false.

(** Structural equality of two numbers. *)
Definition same_number (x y : JsNum.number) : bool :=
  match x, y with
  | S754_zero s, S754_zero s' => Bool.eqb s s'
  | S754_infinity s, S754_infinity s' => Bool.eqb s s'
  | S754_nan, S754_nan => true
  | S754_finite s m e, S754_finite s' m' e' =>
      Bool.eqb s s' && Pos.eqb m m' && Z.eqb e e'
  | _, _ => false
  end.

(** [a] may stand right before [b] in a list sorted with the comparator of
    the source: [b.confidence - a.confidence] is not positive. *)
Definition not_after (a b : Candidate) : Prop :=
  JsNum.gt (by_confidence_desc a b) zero = false.

(** ** Strings *)

(** Every character is an ASCII character: on such a string the string
    operations of the model are those of JavaScript. *)
Definition ascii_only (s : string) : bool :=
  forallb (fun c => (code c <? 128)%nat) (list_ascii_of_string s).

(** ** Maps *)

(** A [Map] holds one entry for a key. *)
Definition wf {V : Type} (m : JsMap.t V) : Prop := NoDup (map fst m).

Definition cache_wf (st : State) : Prop := wf (resolutionCache st).

(** ** Edit distance *)

(** The cells of a row from column [i] on are at most [max column j]. *)
Fixpoint bounded (i j : nat) (cells : list nat) : Prop :=
  match cells with
  | [] => True
  | v :: rest => v <= Nat.max i j /\ bounded (S i) j rest
  end.

(** ** The ticker shape *)

Section Shape.

Variables upper dot : ascii -> bool.

Fixpoint all_in (cls : ascii -> bool) (s : string) : bool :=
  match s with
  | EmptyString => true
  | String c s' => cls c && all_in cls s'
  end.

(** The number of leading letters, and what follows them. *)
Fixpoint leading (s : string) : nat :=
  match s with
  | EmptyString => 0
  | String c s' => if upper c then S (leading s') else 0
  end.

Fixpoint after_leading (s : string) : string :=
  match s with
  | EmptyString => EmptyString
  | String c s' => if upper c then after_leading s' else s
  end.

(** The shape as the specification words it: 1 to 5 uppercase letters,
    optionally followed by a dot and 1 to 2 uppercase letters. *)
Definition shaped (s : string) : bool :=
  (1 <=? leading s)%nat && (leading s <=? 5)%nat
  && match after_leading s with
     | EmptyString => true
     | String c suffix =>
         dot c && (1 <=? String.length suffix)%nat
         && (String.length suffix <=? 2)%nat && all_in upper suffix
     end.

(** Between [lo] and [hi] uppercase letters and nothing else. *)
Definition plain_letters (lo hi : nat) (s : string) : bool :=
  (lo <=? leading s)%nat && (leading s <=? hi)%nat && at_end (after_leading s).

End Shape.

(** ** The network *)

(** The network gives no usable answer: the request is rejected, or the
    response has an error status, or its body does not parse, or it parses to
    [null]. *)
Definition unanswered (env : Env) : Prop :=
  forall req,
    match fetch env req with
    | Throw _ => True
    | Ok response =>
        ok response = false
        \/ match json response with
           | Throw _ => True
           | Ok v => v = VNull
           end
    end.

(** The providers and the AI adapter are asked with the trimmed input; they
    answer two queries alike when each returns the same for both. *)
Definition answered_alike (env : Env) (raw1 raw2 : string) : Prop :=
  tryFinnhubLookup env raw1 = tryFinnhubLookup env raw2
  /\ tryIexCloudLookup env raw1 = tryIexCloudLookup env raw2
  /\ resolveTickerWithOpenAI env raw1 = resolveTickerWithOpenAI env raw2.

(** ** What a result echoes of the raw input

    The trimmed input is copied into the [input] field of the telemetry
    event and into the [name] field of a not-found result.  The functions
    below blank these two places, in a result and in the objects a cache
    holds. *)

Definition scrub_event (ev : TelemetryEvent) : TelemetryEvent :=
  {| ev_type := ev_type ev;
     ev_input := "";
     ev_timestamp := ev_timestamp ev;
     ev_ticker := ev_ticker ev;
     ev_confidence := ev_confidence ev;
     ev_resolvedFrom := ev_resolvedFrom ev;
     ev_matches := ev_matches ev;
     ev_candidates := ev_candidates ev |}.

Definition scrub_resolution (r : Resolution) : Resolution :=
  {| r_ticker := r_ticker r;
     r_exchange := r_exchange r;
     r_name :=
       if is_str (r_resolvedFrom r) "not_found" then VNull else r_name r;
     r_companyName := r_companyName r;
     r_confidence := r_confidence r;
     r_resolvedFrom := r_resolvedFrom r;
     r_telemetry := option_map scrub_event (r_telemetry r) |}.

Definition scrub_outcome (o : Outcome) : Outcome :=
  match o with
  | Single r => Single (scrub_resolution r)
  | Multiple a =>
      Multiple {| a_matches := a_matches a;
                  a_confidence := a_confidence a;
                  a_resolvedFrom := a_resolvedFrom a;
                  a_telemetry := scrub_event (a_telemetry a) |}
  end.

Definition scrub_entry (e : CacheEntry) : CacheEntry :=
  {| data := scrub_resolution (data e); timestamp := timestamp e |}.

Definition scrub_cache (c : Cache) : Cache :=
  map (fun kv => (fst kv, scrub_entry (snd kv))) c.

Definition scrub_state (st : State) : State :=
  with_cache (scrub_cache (resolutionCache st)) st.

Definition scrub_run (c : comp (Outcome * State)) : comp (Outcome * State) :=
  match c with
  | Ok (o, st) => Ok (scrub_outcome o, scrub_state st)
  | Throw e => Throw e
  end.

(** Two events that differ in their input only. *)
Definition alike (ev1 ev2 : TelemetryEvent) : Prop :=
  scrub_event ev1 = scrub_event ev2.

(** ** Normal forms of strings *)

(** A character that normalisation has nothing to do with: no white space,
    none of the punctuation marks, no capital letter. *)
Definition settled (c : ascii) : bool :=
  negb (is_space c) && negb (is_punct c) && negb (is_upper c).

(** White space or one of the punctuation marks. *)
Definition dropped (c : ascii) : bool := is_space c || is_punct c.

(** [typeof v === 'string'] *)
Definition is_string (v : value) : bool :=
  match v with
  | VStr _ => true
  | _ => false
  end.

(** ** The edit distance *)

(** The edit distance of two words by its recurrence on their first
    characters: what is left of one word when the other is used up, and
    otherwise the cheapest of dropping a character of each word or of
    both, the last for free when the two characters agree. *)
Fixpoint edit_distance (a b : list ascii) {struct a} : nat :=
  match a with
  | [] => List.length b
  | x :: a' =>
      (fix against (b : list ascii) : nat :=
         match b with
         | [] => List.length a
         | y :: b' =>
             min3 (edit_distance a' (y :: b') + 1)
                  (against b' + 1)
                  (edit_distance a' b' + (if Ascii.eqb x y then 0 else 1))
         end) b
  end.

(** Row [q] of the matrix from the column of [pre] on, the words being read
    from their ends: [pre] is the part of the first word already passed,
    [rest] the part to come. *)
Fixpoint row_of (pre : list ascii) (rest : string) (q : list ascii)
    : list nat :=
  edit_distance pre q
  :: match rest with
     | EmptyString => []
     | String c rest' => row_of (c :: pre) rest' q
     end.

(** ** The catalog *)

(** An object as the literal and assignments build it: [__proto__] is not
    among its own properties (an assignment to that name goes to the
    prototype). *)
Definition assignable (o : Catalog) : Prop :=
  assoc "__proto__" (own o) = None.

(** The result of [tryLocalMapping] for an entry found under [key]. *)
Definition local_match (key : string) (e : Entry) : Resolution :=
  {| r_ticker := VStr (e_ticker e);
     r_exchange := VStr (e_exchange e);
     r_name := VStr key;
     r_companyName := VUndefined;
     r_confidence := VNum (e_confidence e);
     r_resolvedFrom := VStr "local_cache";
     r_telemetry := None |}.

(** ** The ways a call ends *)

(** The event of a call: it names the trimmed input and the instant the
    call started, and has the given type. *)
Definition stamped (env : Env) (raw type : string) (ev : TelemetryEvent)
    : Prop :=
  ev_type ev = type /\ ev_input ev = raw /\ ev_timestamp ev = now_event env.

(** The event of an ambiguous result counts the candidates and lists the
    first three of them. *)
Definition counted (matches : list Candidate) (ev : TelemetryEvent) : Prop :=
  ev_matches ev = VNum (JsNum.of_nat (List.length matches))
  /\ ev_candidates ev = Some (map summary (firstn 3 matches)).

(** What a caller sees of a run: the outcome, or the exception. *)
Definition outcome_of (run : comp (Outcome * State)) : comp Outcome :=
  match run with
  | Ok (out, _) => Ok out
  | Throw e => Throw e
  end.

(** The event an outcome carries. *)
Definition event_of (out : Outcome) : option TelemetryEvent :=
  match out with
  | Single r => r_telemetry r
  | Multiple a => Some (a_telemetry a)
  end.

(** The state after [obj] has been stored under [key] and given its event. *)
Definition stored_and_tagged (env : Env) (key : string) (obj : Resolution)
    (ev : TelemetryEvent) (st : State) : State :=
  snd (tag_shared key obj ev (store env key obj st)).

(** How a call that has passed ticker detection and the cache ends, [st0]
    being the state it has reached: not found, with nothing written; with an
    ambiguous list of the fuzzy matcher, nothing written; with an ambiguous
    list of the providers, the first candidate written; or resolved, the
    result written and then given its event. *)
Inductive ending (env : Env) (raw key : string) (st0 : State)
    : Outcome -> State -> Prop :=
| ends_not_found : forall r ev,
    r_telemetry r = Some ev ->
    stamped env raw "symbol_not_found" ev ->
    r_ticker r = VNull ->
    r_resolvedFrom r = VStr "not_found" ->
    ending env raw key st0 (Single r) st0
| ends_fuzzy_ambiguous : forall a first others,
    stamped env raw "symbol_ambiguous" (a_telemetry a) ->
    counted (a_matches a) (a_telemetry a) ->
    a_confidence a = "ambiguous" ->
    a_resolvedFrom a = "fuzzy_match" ->
    a_matches a = first :: others ->
    Sorted not_after (a_matches a) ->
    ending env raw key st0 (Multiple a) st0
| ends_api_ambiguous : forall a top second others,
    stamped env raw "symbol_ambiguous" (a_telemetry a) ->
    counted (a_matches a) (a_telemetry a) ->
    a_confidence a = "ambiguous" ->
    a_resolvedFrom a = "api_search" ->
    a_matches a = top :: second :: others ->
    Sorted not_after (a_matches a) ->
    ending env raw key st0 (Multiple a) (store env key (as_resolution top) st0)
| ends_resolved : forall obj ev,
    stamped env raw "symbol_resolved" ev ->
    ev_ticker ev = r_ticker obj ->
    r_telemetry obj = None ->
    ending env raw key st0 (Single (set_telemetry ev obj))
           (stored_and_tagged env key obj ev st0).

(** How a call ends: the input is taken for a ticker and the state is left
    alone; or the cache holds a fresh entry for the key, which is returned
    with the event of this call; or the call goes on from the state the
    cache lookup leaves. *)
Inductive resolved_as (env : Env) (input : string) (options : Options)
    (st : State) : Outcome -> State -> Prop :=
| as_detected : forall r ev,
    isTickerSymbol (toUpperCase (trim input)) = true ->
    r_telemetry r = Some ev ->
    stamped env (trim input) "ticker_resolution_detected_ticker" ev ->
    r_ticker r = VStr (toUpperCase (trim input)) ->
    r_confidence r = VNum (JsNum.of_Z 1) ->
    r_resolvedFrom r = VStr "input_detection" ->
    resolved_as env input options st (Single r) st
| as_cache_hit : forall held ev,
    isTickerSymbol (toUpperCase (trim input)) = false ->
    o_forceRefresh options = false ->
    JsMap.get (normalizeString input) (resolutionCache st) = Some held ->
    (now_lookup env - timestamp held < CACHE_TTL_MS)%Z ->
    stamped env (trim input) "ticker_resolution_cache_hit" ev ->
    ev_ticker ev = r_ticker (data held) ->
    resolved_as env input options st
      (Single (set_telemetry ev (data held)))
      (snd (tag_shared (normalizeString input) (data held) ev st))
| as_looked_up : forall st0 out st',
    isTickerSymbol (toUpperCase (trim input)) = false ->
    st0 = (if o_forceRefresh options then st
           else with_cache
                  (snd (getCachedResolution (now_lookup env)
                          (normalizeString input) (resolutionCache st))) st) ->
    (o_forceRefresh options = true
     \/ fst (getCachedResolution (now_lookup env) (normalizeString input)
               (resolutionCache st)) = None) ->
    ending env (trim input) (normalizeString input) st0 out st' ->
    resolved_as env input options st out st'.

End Notions.

(* ================================================================== *)
(** * Fixtures: concrete surroundings used by the worked examples *)
(* ================================================================== *)

Module Fixtures.

Import Js TickerResolution.
Local Open Scope string_scope.

(** No credential configured and no network; the clock reads 1000, 1001 and
    1002 milliseconds at the three points of a call. *)
Definition offline : Env :=
  {| FINNHUB_API_KEY := None;
     IEX_CLOUD_API_KEY := None;
     OPENAI_API_KEY := None;
     fetch := fun _ => Throw NetworkError;
     JSON_parse := fun _ => Throw SyntaxError;
     ToNumber := fun _ => Ok JsNum.NaN;
     import_openaiService := Ok tt;
     now_event := 1000;
     now_lookup := 1001;
     now_store := 1002 |}.

(** The state of a fresh process: empty cache, catalog as in the source. *)
Definition fresh : State :=
  {| resolutionCache := []; localTickerMapping := seed_catalog |}.

(** Surroundings with the given credentials and network, all three clock
    readings being [t]. *)
Definition surroundings (finnhub iex openai : option string)
    (net : Request -> comp Response) (t : Z) : Env :=
  {| FINNHUB_API_KEY := finnhub;
     IEX_CLOUD_API_KEY := iex;
     OPENAI_API_KEY := openai;
     fetch := net;
     JSON_parse := fun _ => Throw SyntaxError;
     ToNumber := fun _ => Ok JsNum.NaN;
     import_openaiService := Ok tt;
     now_event := t;
     now_lookup := t;
     now_store := t |}.

(** A symbol search that lists two companies. *)
Definition two_listings : value :=
  VObj [ ("count", VNum (JsNum.of_Z 2));
         ("result",
          VArr [ VObj [ ("description", VStr "ACME CORP");
                        ("displaySymbol", VStr "ACME");
                        ("symbol", VStr "ACME");
                        ("type", VStr "Common Stock") ];
                 VObj [ ("description", VStr "ACME HOLDINGS PLC");
                        ("displaySymbol", VStr "ACMH.L");
                        ("symbol", VStr "ACMH.L");
                        ("type", VStr "Common Stock") ] ]) ].

(** All three credentials are set and every request is rejected. *)
Definition unreachable : Env :=
  surroundings (Some "token") (Some "token") (Some "token")
    (fun _ => Throw NetworkError) 1000.

(** The first provider is configured and answers with a body whose [result]
    is a string. *)
Definition garbled : Env :=
  surroundings (Some "token") None None
    (fun _ => Ok {| ok := true;
                    json := Ok (VObj [("result", VStr "oops")]) |}) 1000.

Definition quoted (s : string) : string :=
  String (ascii_of_nat 34) (s ++ String (ascii_of_nat 34) EmptyString).

(** The JSON text of an answer of the AI provider, and the object it parses
    to. *)
Definition qntm_text : string :=
  "{" ++ quoted "ticker" ++ ": " ++ quoted "QNTM" ++ ", "
      ++ quoted "companyName" ++ ": " ++ quoted "Quantum Widgets Inc" ++ ", "
      ++ quoted "confidence" ++ ": 0.95}".

Definition qntm_object : value :=
  VObj [ ("ticker", VStr "QNTM");
         ("companyName", VStr "Quantum Widgets Inc");
         ("confidence", VNum c95) ].

Definition completion : value :=
  VObj [ ("choices",
          VArr [ VObj [ ("index", VNum (JsNum.of_Z 0));
                        ("message",
                         VObj [ ("role", VStr "assistant");
                                ("content", VStr qntm_text) ]) ] ]) ].

(** Only the AI credential is set; at instant 0 the completion endpoint
    answers every request with that chat completion. *)
Definition ai_answers : Env :=
  {| FINNHUB_API_KEY := None;
     IEX_CLOUD_API_KEY := None;
     OPENAI_API_KEY := Some "token";
     fetch := fun _ => Ok {| ok := true; json := Ok completion |};
     JSON_parse := fun text =>
       if String.eqb text qntm_text then Ok qntm_object
       else Throw SyntaxError;
     ToNumber := fun _ => Ok JsNum.NaN;
     import_openaiService := Ok tt;
     now_event := 0;
     now_lookup := 0;
     now_store := 0 |}.

(** Twenty-four hours later nothing is configured or reachable. *)
Definition next_day : Env :=
  surroundings None None None (fun _ => Throw NetworkError) 86400000.

(** Only the first provider is configured, and it answers every search with
    the two listings. *)
Definition two_hits : Env :=
  surroundings (Some "token") None None
    (fun _ => Ok {| ok := true; json := Ok two_listings |}) 1000.

(** As [two_hits], except that the provider lists the two companies for the
    query Acme Holdings spelled exactly so, and nothing for any other. *)
Definition picky : Env :=
  surroundings (Some "token") None None
    (fun req =>
       Ok {| ok := true;
             json :=
               Ok (if String.eqb (query req) "Acme Holdings" then two_listings
                   else VObj [ ("count", VNum (JsNum.of_Z 0));
                               ("result", VArr []) ]) |}) 1000.

(** A cached resolution. *)
Definition sample : Resolution :=
  {| r_ticker := VStr "NVDA";
     r_exchange := VStr "NASDAQ";
     r_name := VStr "nvidia";
     r_companyName := VUndefined;
     r_confidence := VNum c99;
     r_resolvedFrom := VStr "local_cache";
     r_telemetry := None |}.

(** The first of the two listings as the provider adapter renders it. *)
Definition acme : Candidate :=
  {| c_ticker := VStr "ACME";
     c_exchange := VStr "NASDAQ";
     c_name := VStr "ACME CORP";
     c_confidence := c85;
     c_resolvedFrom := "finnhub_api" |}.

Definition acme_holdings : Candidate :=
  {| c_ticker := VStr "ACMH.L";
     c_exchange := VStr "NASDAQ";
     c_name := VStr "ACME HOLDINGS PLC";
     c_confidence := c85;
     c_resolvedFrom := "finnhub_api" |}.

(** The state after a call for Acme Holdings on a fresh process with
    [two_hits]. *)
Definition after_two_hits : State :=
  {| resolutionCache :=
       [("acmeholdings",
         {| data := as_resolution acme; timestamp := 1000 |})];
     localTickerMapping := seed_catalog |}.

(** A catalog to which two names have been added. *)
Definition with_meridian : Catalog :=
  addLocalMapping "Meridian Labs B" "MLB.B" "NYSE" c99
    (addLocalMapping "Meridian Lab" "MLAB" "NYSE" c99 seed_catalog).

Definition c92 : JsNum.number := JsNum.lit 92 100.

(** The event and the result of a first call for Microsoft on a fresh
    process without network, and the state the call leaves. *)
Definition microsoft_event : TelemetryEvent :=
  set_resolvedFrom (VStr "local_cache")
    (set_confidence (VNum c99)
       (set_ticker (VStr "MSFT")
          (set_type "symbol_resolved"
             (new_event "ticker_resolution_attempt" "Microsoft" 1000)))).

Definition microsoft_resolved : Resolution :=
  set_telemetry microsoft_event
    (Notions.local_match "microsoft" (entry "MSFT" "NASDAQ" c99)).

Definition after_microsoft : State :=
  {| resolutionCache :=
       [("microsoft", {| data := microsoft_resolved; timestamp := 1002 |})];
     localTickerMapping := seed_catalog |}.

(** Options that ask for another exchange, and options that bypass the
    cache. *)
Definition on_nyse : Options :=
  {| o_exchange := Some "NYSE"; o_provider := "auto"; o_forceRefresh := false |}.

Definition refreshing : Options :=
  {| o_exchange := None; o_provider := "auto"; o_forceRefresh := true |}.

End Fixtures.

(* ================================================================== *)
(** * Lemmas on numbers, sorting and maps *)
(* ================================================================== *)

Module NumFacts.

Import JsNum Notions.

Lemma round_aux_sign : forall sx mx ex lx,
  let r := binary_round_aux prec emax sx mx ex lx in
  r = S754_zero sx \/ r = S754_infinity sx \/ r = S754_nan
  \/ exists m e, r = S754_finite sx m e.
Proof.
  intros sx mx ex lx. unfold binary_round_aux.
  destruct (shr_fexp prec emax mx ex lx) as [mrs' e'].
  destruct (shr_fexp prec emax _ e' loc_Exact) as [mrs'' e''].
  destruct (shr_m mrs'') as [|m|m]; auto.
  destruct (e'' <=? emax - prec)%Z; eauto 6.
Qed.

Lemma normalize_nonpositive : forall d e,
  (d <= 0)%Z -> positive_float (binary_normalize prec emax d e false) = false.
Proof.
  intros [|p|p] e Hd; try reflexivity; [lia|].
  unfold binary_normalize, binary_round.
  destruct (shl_align p e _) as [mz ez].
  destruct (round_aux_sign true (Zpos mz) ez loc_Exact)
    as [-> | [-> | [-> | (m & e' & ->)]]]; reflexivity.
Qed.

(** The comparator of a descending sort never ranks two numbers both ways:
    if [x - y > 0] then [y - x > 0] fails. *)
Lemma sub_positive_asym : forall x y : number,
  gt (sub x y) (of_Z 0) = true -> gt (sub y x) (of_Z 0) = false.
Proof.
  intros x y. change (gt ?a (of_Z 0)) with (positive_float a).
  destruct x as [sx|sx| |sx mx ex], y as [sy|sy| |sy my ey];
    try (cbn; congruence);
    try (destruct sx; try destruct sy; cbn; congruence);
    try (destruct sy; cbn; congruence).
  unfold sub, SFsub. rewrite (Z.min_comm ey ex).
  set (ez := Z.min ex ey).
  set (a := cond_Zopp sx (Zpos (fst (shl_align mx ex ez)))).
  set (b := cond_Zopp sy (Zpos (fst (shl_align my ey ez)))).
  intros H. apply normalize_nonpositive.
  destruct (Z_le_gt_dec (a - b) 0) as [Hle|Hgt]; [|lia].
  rewrite (normalize_nonpositive ez Hle) in H. discriminate H.
Qed.

End NumFacts.

Module SortFacts.

Import JsNum TickerResolution Notions.

Section Sorting.

Context {A : Type}.
Variable compare : A -> A -> number.

Hypothesis asym : forall x y,
  gt (compare x y) zero = true -> gt (compare y x) zero = false.

Lemma sort_insert_In : forall x y l,
  In y (sort_insert compare x l) <-> y = x \/ In y l.
Proof.
  intros x y l. induction l as [|z l IH]; simpl.
  - intuition.
  - destruct (gt (compare x z) zero); simpl; rewrite ?IH; intuition.
Qed.

Lemma sort_In : forall y l, In y (sort compare l) <-> In y l.
Proof.
  intros y l. induction l as [|x l IH]; simpl.
  - tauto.
  - rewrite sort_insert_In, IH. intuition.
Qed.

Lemma sort_insert_length : forall x l,
  List.length (sort_insert compare x l) = S (List.length l).
Proof.
  intros x l. induction l as [|z l IH]; simpl; auto.
  destruct (gt (compare x z) zero); simpl; auto.
Qed.

Lemma sort_length : forall l, List.length (sort compare l) = List.length l.
Proof.
  induction l as [|x l IH]; simpl; auto.
  rewrite sort_insert_length, IH. reflexivity.
Qed.

Lemma sort_insert_sorted : forall x l,
  Sorted (in_order compare) l -> Sorted (in_order compare) (sort_insert compare x l).
Proof.
  intros x l Hl. induction Hl as [|z l Hl IH Hz]; simpl.
  - repeat constructor.
  - destruct (gt (compare x z) zero) eqn:E.
    + constructor; [exact IH|].
      destruct Hz as [|w l' Hzw]; simpl.
      * constructor. apply asym, E.
      * destruct (gt (compare x w) zero); constructor; auto.
        apply asym, E.
    + constructor; [constructor; assumption|]. constructor. exact E.
Qed.

Lemma sort_sorted : forall l, Sorted (in_order compare) (sort compare l).
Proof.
  induction l as [|x l IH]; simpl.
  - constructor.
  - apply sort_insert_sorted, IH.
Qed.

(** Stability: the elements a predicate selects keep their relative order,
    provided the comparator never moves one selected element behind
    another. *)
Lemma sort_insert_filter : forall (p : A -> bool) x l,
  (forall y, p x = true -> p y = true -> gt (compare x y) zero = false) ->
  filter p (sort_insert compare x l) = filter p (x :: l).
Proof.
  intros p x l Hp. induction l as [|z l IH]; simpl; auto.
  destruct (gt (compare x z) zero) eqn:E; simpl; auto.
  rewrite IH. simpl.
  destruct (p x) eqn:Px, (p z) eqn:Pz; auto.
  rewrite (Hp z eq_refl Pz) in E. discriminate E.
Qed.

Lemma sort_filter : forall (p : A -> bool) l,
  (forall x y, p x = true -> p y = true -> gt (compare x y) zero = false) ->
  filter p (sort compare l) = filter p l.
Proof.
  intros p l Hp. induction l as [|x l IH]; simpl; auto.
  rewrite sort_insert_filter by (intros; apply Hp; assumption).
  simpl. rewrite IH. reflexivity.
Qed.

End Sorting.

End SortFacts.

Module MapFacts.

Import Js Notions.

Section Maps.

Context {V : Type}.

Lemma get_In : forall k v (m : JsMap.t V),
  JsMap.get k m = Some v -> In (k, v) m.
Proof.
  intros k v m. unfold JsMap.get. induction m as [|[k' v'] m IH]; simpl.
  - discriminate.
  - destruct (String.eqb k' k) eqn:E.
    + apply String.eqb_eq in E. intros [= ->]. left. congruence.
    + intros H. right. auto.
Qed.

Lemma has_get : forall k (m : JsMap.t V),
  JsMap.has k m = true <-> exists v, JsMap.get k m = Some v.
Proof.
  intros k m. unfold JsMap.get. induction m as [|[k' v'] m IH]; simpl.
  - split; [discriminate | intros [v H]; discriminate].
  - destruct (String.eqb k' k); simpl; eauto. split; eauto.
Qed.

Lemma has_false_notin : forall k (m : JsMap.t V),
  JsMap.has k m = false -> ~ In k (map fst m).
Proof.
  intros k m. induction m as [|[k' v'] m IH]; simpl; auto.
  destruct (String.eqb k' k) eqn:E; simpl; [discriminate|].
  apply String.eqb_neq in E. intros H [H1|H1].
  - exact (E H1).
  - exact (IH H H1).
Qed.

Lemma get_replace_same : forall k v (m : JsMap.t V),
  JsMap.has k m = true -> JsMap.get k (JsMap.replace k v m) = Some v.
Proof.
  intros k v m. unfold JsMap.get. induction m as [|[k' v'] m IH]; simpl.
  - discriminate.
  - destruct (String.eqb k' k) eqn:E; simpl; rewrite E; auto.
Qed.

Lemma get_app_last : forall k v (m : JsMap.t V),
  JsMap.has k m = false -> JsMap.get k (m ++ [(k, v)]) = Some v.
Proof.
  intros k v m. unfold JsMap.get. induction m as [|[k' v'] m IH]; simpl.
  - rewrite String.eqb_refl. reflexivity.
  - destruct (String.eqb k' k); simpl; [discriminate | auto].
Qed.

Lemma get_set_same : forall k v (m : JsMap.t V),
  JsMap.get k (JsMap.set k v m) = Some v.
Proof.
  intros k v m. unfold JsMap.set. destruct (JsMap.has k m) eqn:E.
  - apply get_replace_same, E.
  - apply get_app_last, E.
Qed.

Lemma replace_keys : forall k v (m : JsMap.t V),
  map fst (JsMap.replace k v m) = map fst m.
Proof.
  intros k v m. induction m as [|[k' v'] m IH]; simpl; auto.
  destruct (String.eqb k' k); simpl; congruence.
Qed.

Lemma NoDup_snoc : forall (k : string) (l : list string),
  NoDup l -> ~ In k l -> NoDup (l ++ [k]).
Proof.
  intros k l Hl. induction Hl as [|x l Hx Hl IH]; simpl; intros Hk.
  - repeat constructor. auto.
  - constructor.
    + rewrite in_app_iff. simpl. intuition.
    + apply IH. intuition.
Qed.

Lemma wf_set : forall k v (m : JsMap.t V), wf m -> wf (JsMap.set k v m).
Proof.
  intros k v m Hm. unfold wf, JsMap.set. destruct (JsMap.has k m) eqn:E.
  - rewrite replace_keys. exact Hm.
  - rewrite map_app. simpl. apply NoDup_snoc; [exact Hm|].
    apply has_false_notin, E.
Qed.

Lemma delete_keys_incl : forall k k' (m : JsMap.t V),
  In k' (map fst (JsMap.delete k m)) -> In k' (map fst m).
Proof.
  intros k k' m. induction m as [|[k0 v0] m IH]; simpl; auto.
  destruct (String.eqb k0 k); simpl; intuition.
Qed.

Lemma wf_delete : forall k (m : JsMap.t V), wf m -> wf (JsMap.delete k m).
Proof.
  intros k m. unfold wf. induction m as [|[k0 v0] m IH]; simpl; auto.
  intros H. inversion H as [|? ? Hn Hm]; subst.
  destruct (String.eqb k0 k); simpl; auto.
  constructor; auto. intros Hin. apply Hn. eapply delete_keys_incl, Hin.
Qed.

Lemma get_notin : forall k (m : JsMap.t V),
  ~ In k (map fst m) -> JsMap.get k m = None.
Proof.
  intros k m. unfold JsMap.get. induction m as [|[k0 v0] m IH]; simpl; auto.
  intros H. destruct (String.eqb k0 k) eqn:E.
  - apply String.eqb_eq in E. exfalso. auto.
  - auto.
Qed.

Lemma get_delete_same : forall k (m : JsMap.t V),
  wf m -> JsMap.get k (JsMap.delete k m) = None.
Proof.
  intros k m. unfold wf. induction m as [|[k0 v0] m IH]; simpl; auto.
  intros H. inversion H as [|? ? Hn Hm]; subst.
  destruct (String.eqb k0 k) eqn:E.
  - apply String.eqb_eq in E. subst. apply get_notin, Hn.
  - unfold JsMap.get in *. simpl. rewrite E. auto.
Qed.

Lemma get_delete_other : forall k k' (m : JsMap.t V),
  k' <> k -> JsMap.get k' (JsMap.delete k m) = JsMap.get k' m.
Proof.
  intros k k' m Hk. unfold JsMap.get. induction m as [|[k0 v0] m IH]; simpl; auto.
  destruct (String.eqb k0 k) eqn:E.
  - apply String.eqb_eq in E. subst.
    destruct (String.eqb k k') eqn:E'; auto.
    apply String.eqb_eq in E'. congruence.
  - simpl. destruct (String.eqb k0 k'); auto.
Qed.

Lemma size_delete : forall k (m : JsMap.t V),
  JsMap.has k m = true -> S (JsMap.size (JsMap.delete k m)) = JsMap.size m.
Proof.
  intros k m. unfold JsMap.size. induction m as [|[k0 v0] m IH]; simpl.
  - discriminate.
  - destruct (String.eqb k0 k); simpl; auto.
Qed.

Lemma size_delete_le : forall k (m : JsMap.t V),
  JsMap.size (JsMap.delete k m) <= JsMap.size m.
Proof.
  intros k m. unfold JsMap.size. induction m as [|[k0 v0] m IH]; simpl; auto.
  destruct (String.eqb k0 k); simpl; lia.
Qed.

End Maps.

End MapFacts.

(* ================================================================== *)
(** * The edit distance is at most the longer length *)
(* ================================================================== *)

Module EditDistance.

Import StringUtils Notions.

Lemma bounded_seq : forall n i, bounded i 0 (seq i n).
Proof.
  induction n as [|n IH]; intros i; simpl; auto.
  split; [lia | apply IH].
Qed.

Lemma bounded_last : forall cells i j,
  cells <> [] -> bounded i j cells ->
  last cells 0 <= Nat.max (i + List.length cells - 1) j.
Proof.
  induction cells as [|v rest IH]; intros i j Hne Hb; [congruence|].
  destruct Hb as [Hv Hrest]. destruct rest as [|w rest'].
  - simpl. replace (i + 1 - 1) with i by lia. exact Hv.
  - change (last (v :: w :: rest') 0) with (last (w :: rest') 0).
    specialize (IH (S i) j ltac:(discriminate) Hrest).
    simpl List.length in *.
    replace (i + S (S (List.length rest')) - 1)
      with (S i + S (List.length rest') - 1) by lia.
    exact IH.
Qed.

Lemma fill_row_bounded : forall str1 c2 prev left i j,
  List.length prev = S (String.length str1) ->
  bounded i j prev ->
  left <= Nat.max i (S j) ->
  bounded (S i) (S j) (fill_row c2 str1 prev left)
  /\ List.length (fill_row c2 str1 prev left) = String.length str1.
Proof.
  induction str1 as [|c1 rest IH]; intros c2 prev left i j Hlen Hb Hleft.
  - simpl. auto.
  - destruct prev as [|diag [|up prev']]; simpl in Hlen; try lia.
    destruct Hb as [Hdiag Hup].
    cbn [fill_row].
    set (cost := if Ascii.eqb c1 c2 then 0 else 1).
    set (v := min3 (left + 1) (up + 1) (diag + cost)).
    assert (Hv : v <= Nat.max (S i) (S j)).
    { unfold v, min3.
      assert (cost <= 1) by (unfold cost; destruct (Ascii.eqb c1 c2); lia).
      lia. }
    destruct (IH c2 (up :: prev') v (S i) j) as [Hb' Hlen'];
      [simpl; lia | exact Hup | lia |].
    split; [split; assumption | simpl; lia].
Qed.

Lemma fill_rows_bounded : forall str2 str1 j row,
  List.length row = S (String.length str1) ->
  bounded 0 j row ->
  bounded 0 (j + String.length str2) (fill_rows str1 str2 (S j) row)
  /\ List.length (fill_rows str1 str2 (S j) row) = S (String.length str1).
Proof.
  induction str2 as [|c2 rest IH]; intros str1 j row Hlen Hb.
  - simpl. rewrite Nat.add_0_r. auto.
  - cbn [fill_rows String.length].
    destruct (@fill_row_bounded str1 c2 row (S j) 0 j Hlen Hb ltac:(lia))
      as [Hb' Hlen'].
    replace (j + S (String.length rest)) with (S j + String.length rest)
      by lia.
    apply IH.
    + simpl. lia.
    + split; [lia | exact Hb'].
Qed.

(** [levenshteinDistance(a, b)] never exceeds [max(a.length, b.length)]: in
    [calculateSimilarity] the quotient [distance / maxLen] is a quotient of
    two integers [0 <= distance <= maxLen], and it is [0 / 0] exactly when
    both strings are empty. *)
Lemma levenshteinDistance_le_maxLen : forall str1 str2,
  levenshteinDistance str1 str2
  <= Nat.max (String.length str1) (String.length str2).
Proof.
  intros str1 str2. unfold levenshteinDistance.
  destruct (@fill_rows_bounded str2 str1 0 (seq 0 (S (String.length str1))))
    as [Hb Hlen].
  - apply length_seq.
  - apply bounded_seq.
  - pose proof (@bounded_last _ 0 (0 + String.length str2)
                  ltac:(intros E; rewrite E in Hlen; discriminate) Hb) as H.
    rewrite Hlen in H. simpl in H. rewrite Nat.sub_0_r in H. exact H.
Qed.

End EditDistance.

(* ================================================================== *)
(** * The ticker shape *)
(* ================================================================== *)

Module TickerShape.

Import JsString Regex StringUtils TickerResolution Notions.
Local Open Scope string_scope.

Section Shape.

Variables upper dot : ascii -> bool.

Hypothesis letter_not_dot : forall c, upper c = true -> dot c = false.

Ltac split_char :=
  match goal with
  | U : upper ?c = true, D : dot ?c = true |- _ =>
      rewrite (@letter_not_dot _ U) in D; discriminate D
  | U : upper ?c = true |- context [dot ?c] => rewrite (@letter_not_dot _ U)
  | |- context [upper ?c] => destruct (upper c) eqn:?
  | |- context [dot ?c] => destruct (dot c) eqn:?
  | |- context [match ?s with EmptyString => _ | String _ _ => _ end] =>
      is_var s; destruct s
  | |- context [at_end ?s] => is_var s; destruct s
  end.

Ltac by_cases :=
  cbn;
  repeat (first [ reflexivity
                | progress rewrite ?andb_false_r, ?andb_true_r, ?orb_false_r
                | split_char; try cbn ]).

Lemma valid_pattern_is_shape : forall s,
  test_anchored (validTickerPattern upper dot) s = shaped upper dot s.
Proof.
  unfold test_anchored, validTickerPattern, shaped, range.
  intros s. by_cases.
Qed.

Lemma ticker_pattern_is_wider : forall s,
  test_anchored (tickerPattern upper dot) s
  = shaped upper dot s || plain_letters upper 6 7 s.
Proof.
  unfold test_anchored, tickerPattern, shaped, plain_letters, range.
  intros s. by_cases.
Qed.

End Shape.

Lemma upper_is_not_dot : forall c, is_upper c = true -> is_dot c = false.
Proof.
  intros [[] [] [] [] [] [] [] []]; vm_compute; intros; congruence.
Qed.

(** [isValidTickerFormat] of [stringUtils.js] is the shape of the
    specification. *)
Lemma isValidTickerFormat_shaped : forall s,
  isValidTickerFormat s = shaped is_upper is_dot s.
Proof.
  intros s. apply valid_pattern_is_shape, upper_is_not_dot.
Qed.

(** [isTickerSymbol] of [tickerResolution.js] accepts that shape and, with
    its optional dot, six or seven plain letters as well. *)
Lemma isTickerSymbol_shaped_or_long : forall s,
  isTickerSymbol s
  = shaped is_upper is_dot s || plain_letters is_upper 6 7 s.
Proof.
  intros s. apply ticker_pattern_is_wider, upper_is_not_dot.
Qed.

End TickerShape.

(* ================================================================== *)
(** * The cache *)
(* ================================================================== *)

Module CacheProperties.

Import Js TickerResolution Notions Fixtures MapFacts.
Local Open Scope string_scope.
Local Open Scope Z_scope.

(** C5.  A resolution stored under a key at time [T] is what a read at time
    [T'] returns as long as [T' - T] is less than 24 hours, and the cache is
    left as it is; once [T' - T] has reached 24 hours the read returns
    nothing and removes the entry: the key is no longer in the cache, which
    is one entry smaller, and the other keys are untouched. *)
Theorem cache_read_respects_ttl :
  forall (key : string) (r : Resolution) (T T' : Z) (cache : Cache),
    wf cache ->
    let stored := setCacheResolution T key r cache in
    let read := getCachedResolution T' key stored in
    (T' - T < CACHE_TTL_MS -> read = (Some r, stored))
    /\ (CACHE_TTL_MS <= T' - T ->
        fst read = None
        /\ snd read = JsMap.delete key stored
        /\ JsMap.get key (snd read) = None
        /\ S (JsMap.size (snd read)) = JsMap.size stored
        /\ forall k, k <> key -> JsMap.get k (snd read) = JsMap.get k stored).
Proof.
  intros key r T T' cache Hwf stored read.
  assert (Hget : JsMap.get key stored
                 = Some {| data := r; timestamp := T |})
    by apply get_set_same.
  assert (Hwf' : wf stored) by (apply wf_set, Hwf).
  unfold read, getCachedResolution. rewrite Hget. simpl.
  unfold CACHE_TTL_MS.
  split; intros H.
  - destruct (Z.ltb_spec (T' - T) (24 * 60 * 60 * 1000)); [reflexivity | lia].
  - destruct (Z.ltb_spec (T' - T) (24 * 60 * 60 * 1000)); [lia|]. simpl.
    repeat split.
    + apply get_delete_same, Hwf'.
    + apply size_delete, has_get. eauto.
    + intros k Hk. apply get_delete_other, Hk.
Qed.

Lemma cache_read_respects_ttl_witness :
  wf (@nil (string * CacheEntry))
  /\ getCachedResolution 86399999 "nvidia"
       (setCacheResolution 0 "nvidia" sample [])
     = (Some sample, setCacheResolution 0 "nvidia" sample [])
  /\ getCachedResolution 86400000 "nvidia"
       (setCacheResolution 0 "nvidia" sample [])
     = (None, []).
Proof.
  split; [constructor|].
  destruct (@cache_read_respects_ttl "nvidia" sample 0 86399999 []
              (NoDup_nil _)) as [Hfresh _].
  destruct (@cache_read_respects_ttl "nvidia" sample 0 86400000 []
              (NoDup_nil _)) as [_ Hstale].
  split.
  - apply Hfresh. reflexivity.
  - destruct Hstale as (H1 & H2 & _); [discriminate|].
    rewrite (surjective_pairing (getCachedResolution _ _ _)), H1, H2.
    reflexivity.
Defined.

(** C10.  [getCacheStats] leaves the cache exactly as it found it, reports
    as size the number of entries whatever their age, and lists every entry;
    in particular an entry whose age has reached 24 hours is listed with that
    age although a lookup of its key at the same instant returns nothing. *)
Theorem getCacheStats_reads_only :
  forall (now : Z) (cache : Cache),
    let stats := fst (getCacheStats now cache) in
    snd (getCacheStats now cache) = cache
    /\ cs_size stats = List.length cache
    /\ List.length (cs_entries stats) = List.length cache
    /\ forall key e,
         JsMap.get key cache = Some e ->
         CACHE_TTL_MS <= now - timestamp e ->
         In {| se_input := key;
               se_ticker := r_ticker (data e);
               se_age := now - timestamp e |} (cs_entries stats)
         /\ fst (getCachedResolution now key cache) = None.
Proof.
  intros now cache stats. unfold stats, getCacheStats. simpl.
  repeat split.
  - apply length_map.
  - apply get_In in H.
    change {| se_input := key; se_ticker := r_ticker (data e);
              se_age := now - timestamp e |}
      with ((fun kv : string * CacheEntry =>
               {| se_input := fst kv; se_ticker := r_ticker (data (snd kv));
                  se_age := now - timestamp (snd kv) |}) (key, e)).
    apply in_map, H.
  - unfold getCachedResolution. rewrite H. unfold CACHE_TTL_MS in *.
    destruct (Z.ltb_spec (now - timestamp e) (24 * 60 * 60 * 1000));
      [lia | reflexivity].
Qed.

Lemma getCacheStats_reads_only_witness :
  let cache := setCacheResolution 0 "nvidia" sample [] in
  JsMap.get "nvidia" cache = Some {| data := sample; timestamp := 0 |}
  /\ CACHE_TTL_MS <= 86400000 - 0
  /\ snd (getCacheStats 86400000 cache) = cache
  /\ cs_size (fst (getCacheStats 86400000 cache)) = 1%nat
  /\ In {| se_input := "nvidia"; se_ticker := VStr "NVDA"; se_age := 86400000 |}
        (cs_entries (fst (getCacheStats 86400000 cache)))
  /\ fst (getCachedResolution 86400000 "nvidia" cache) = None.
Proof.
  intros cache.
  destruct (getCacheStats_reads_only 86400000 cache) as (H1 & H2 & _ & H4).
  assert (Hget : JsMap.get "nvidia" cache
                 = Some {| data := sample; timestamp := 0 |}) by reflexivity.
  assert (Hage : CACHE_TTL_MS <= 86400000 - 0) by discriminate.
  destruct (H4 "nvidia" _ Hget Hage) as [H5 H6].
  repeat split; assumption.
Defined.

End CacheProperties.

(* ================================================================== *)
(** * Worked runs of the resolver *)
(* ================================================================== *)

Module Runs.

Import JsString Js StringUtils TickerResolution Notions Fixtures TickerShape.
Local Open Scope string_scope.
Local Open Scope Z_scope.

(** C1.  On a fresh process, whatever the surroundings, the input NVIDIA
    does not reach the catalog: its six letters pass [isTickerSymbol], and the
    call returns the input itself as ticker, found by input detection with
    confidence 1 and exchange UNKNOWN, and leaves the cache empty.  The
    catalog does hold NVDA with confidence 0.99 under the key of that input. *)
Theorem nvidia_is_taken_for_a_ticker :
  forall env : Env,
    resolveTickerOrCompanyName env "NVIDIA" default_options fresh
    = Ok (Single
            {| r_ticker := VStr "NVIDIA";
               r_exchange := VStr "UNKNOWN";
               r_name := VNull;
               r_companyName := VUndefined;
               r_confidence := VNum (JsNum.of_Z 1);
               r_resolvedFrom := VStr "input_detection";
               r_telemetry :=
                 Some {| ev_type := "ticker_resolution_detected_ticker";
                         ev_input := "NVIDIA";
                         ev_timestamp := now_event env;
                         ev_ticker := VStr "NVIDIA";
                         ev_confidence := VUndefined;
                         ev_resolvedFrom := VStr "input_detection";
                         ev_matches := VUndefined;
                         ev_candidates := None |} |},
          fresh)
    /\ isTickerSymbol (toUpperCase (trim "NVIDIA")) = true
    /\ tryLocalMapping seed_catalog (normalizeString "NVIDIA") None
       = Some {| r_ticker := VStr "NVDA";
                 r_exchange := VStr "NASDAQ";
                 r_name := VStr "nvidia";
                 r_companyName := VUndefined;
                 r_confidence := VNum c99;
                 r_resolvedFrom := VStr "local_cache";
                 r_telemetry := None |}.
Proof.
  intros env. repeat split; reflexivity.
Qed.

(** C4.  [isTickerSymbol] is true of the seven plain letters TOOLONG and of
    the six letters of nvidia once uppercased, although neither has the shape
    of 1 to 5 letters with an optional dot and 1 to 2 letters; for
    [isValidTickerFormat] both are invalid. *)
Theorem long_plain_words_pass_isTickerSymbol :
  isTickerSymbol (toUpperCase "TOOLONG") = true
  /\ isTickerSymbol (toUpperCase "nvidia") = true
  /\ shaped is_upper is_dot (toUpperCase "TOOLONG") = false
  /\ shaped is_upper is_dot (toUpperCase "nvidia") = false
  /\ isValidTickerFormat (toUpperCase "TOOLONG") = false
  /\ isValidTickerFormat (toUpperCase "nvidia") = false.
Proof.
  repeat split; reflexivity.
Qed.

(** C9.  For two empty strings the edit distance and the longer length are
    both 0, their quotient is NaN, and so is the similarity, in
    [calculateSimilarity] as in the loop of the fuzzy matcher; NaN is neither
    at least 0 nor at most 1, and it is not 1. *)
Theorem similarity_of_empty_strings_is_NaN :
  levenshteinDistance "" "" = 0%nat
  /\ calculateSimilarity "" "" = JsNum.NaN
  /\ similarity "" "" = JsNum.NaN
  /\ JsNum.ge (calculateSimilarity "" "") (JsNum.of_Z 0) = false
  /\ JsNum.ge (JsNum.of_Z 1) (calculateSimilarity "" "") = false
  /\ calculateSimilarity "" "" <> JsNum.of_Z 1.
Proof.
  repeat (split; [reflexivity|]).
  intros H. vm_compute in H. discriminate H.
Qed.

(** C3.  With a provider that lists two companies for the query Acme
    Holdings, the call on a fresh process returns the ambiguous result with
    both candidates and has by then written the first of them to the cache
    under the key of the input: the cache goes from empty to one entry.  One
    second later the same call no longer consults any provider: whatever the
    credentials and the network, it returns the cached first candidate as a
    single result tagged as a cache hit. *)
Theorem ambiguous_provider_answer_is_cached :
  resolveTickerOrCompanyName two_hits "Acme Holdings" default_options fresh
  = Ok (Multiple
          {| a_matches := [acme; acme_holdings];
             a_confidence := "ambiguous";
             a_resolvedFrom := "api_search";
             a_telemetry :=
               {| ev_type := "symbol_ambiguous";
                  ev_input := "Acme Holdings";
                  ev_timestamp := 1000;
                  ev_ticker := VUndefined;
                  ev_confidence := VUndefined;
                  ev_resolvedFrom := VUndefined;
                  ev_matches := VNum (JsNum.of_Z 2);
                  ev_candidates :=
                    Some [ {| cs_ticker := VStr "ACME"; cs_confidence := c85 |};
                           {| cs_ticker := VStr "ACMH.L";
                              cs_confidence := c85 |} ] |} |},
        after_two_hits)
  /\ cs_size (fst (getCacheStats 1000 (resolutionCache fresh))) = 0%nat
  /\ cs_size (fst (getCacheStats 1000 (resolutionCache after_two_hits))) = 1%nat
  /\ forall (finnhub iex openai : option string)
            (net : Request -> comp Response),
       exists st,
         resolveTickerOrCompanyName (surroundings finnhub iex openai net 2000)
           "Acme Holdings" default_options after_two_hits
         = Ok (Single
                 (set_telemetry
                    {| ev_type := "ticker_resolution_cache_hit";
                       ev_input := "Acme Holdings";
                       ev_timestamp := 2000;
                       ev_ticker := VStr "ACME";
                       ev_confidence := VUndefined;
                       ev_resolvedFrom := VUndefined;
                       ev_matches := VUndefined;
                       ev_candidates := None |}
                    (as_resolution acme)),
               st).
Proof.
  split; [reflexivity|]. split; [reflexivity|]. split; [reflexivity|].
  intros finnhub iex openai net. eexists. reflexivity.
Qed.

End Runs.

(* ================================================================== *)
(** * Outcomes are values *)
(* ================================================================== *)

Module Totality.

Import JsString Js StringUtils TickerResolution Notions.
Local Open Scope string_scope.

Ltac case_if :=
  match goal with
  | |- context [if ?c then _ else _] => destruct c eqn:?
  end.

(** A [catch] that returns a value absorbs whatever the body throws. *)
Lemma try_catch_absorbs : forall (A : Type) (body : comp (option A)),
  exists r, try_catch body (fun _ => Ok None) = Ok r.
Proof.
  intros A [a|e]; simpl; eauto.
Qed.

Lemma tryFinnhubLookup_total : forall env q,
  exists r, tryFinnhubLookup env q = Ok r.
Proof.
  intros env q. unfold tryFinnhubLookup.
  destruct (FINNHUB_API_KEY env) as [k|]; [|eauto].
  destruct (negb (JsString.truthy k)); [eauto|].
  apply try_catch_absorbs.
Qed.

Lemma tryIexCloudLookup_total : forall env q,
  exists r, tryIexCloudLookup env q = Ok r.
Proof.
  intros env q. unfold tryIexCloudLookup.
  destruct (IEX_CLOUD_API_KEY env) as [k|]; [|eauto].
  destruct (negb (JsString.truthy k)); [eauto|].
  apply try_catch_absorbs.
Qed.

Lemma resolveTickerWithOpenAI_total : forall env q,
  exists r, resolveTickerWithOpenAI env q = Ok r.
Proof.
  intros env q. unfold resolveTickerWithOpenAI.
  destruct (OPENAI_API_KEY env) as [k|]; [|eauto].
  destruct (negb (JsString.truthy k)); [eauto|].
  apply try_catch_absorbs.
Qed.

Lemma ai_answer_total : forall env q, exists r, ai_answer env q = Ok r.
Proof.
  intros env q. apply try_catch_absorbs.
Qed.

Lemma api_results_total : forall env q exchange provider,
  exists l, api_results env q exchange provider = Ok l.
Proof.
  intros env q exchange provider. unfold api_results.
  destruct (tryFinnhubLookup_total env q) as [r1 H1].
  destruct (tryIexCloudLookup_total env q) as [r2 H2].
  destruct (String.eqb provider "auto" || String.eqb provider "finnhub");
    [rewrite H1|]; simpl;
    match goal with
    | |- context [if ?c then tryIexCloudLookup env q else _] =>
        destruct c; [rewrite H2|]; simpl; eauto
    end.
Qed.

Lemma ai_fallback_total : forall env key raw ev st,
  exists out st', ai_fallback env key raw ev st = Ok (out, st').
Proof.
  intros env key raw ev st. unfold ai_fallback.
  destruct (ai_answer_total env raw) as [[ai|] ->]; simpl; eauto.
  destruct (truthy (r_ticker ai)); eauto.
Qed.

Lemma fuzzy_fallback_total : forall env key raw ev st,
  exists out st', fuzzy_fallback env key raw ev st = Ok (out, st').
Proof.
  intros env key raw ev st. unfold fuzzy_fallback.
  destruct (fuzzyMatchLocalTickers _ _ _) as [|first others].
  - apply ai_fallback_total.
  - case_if; simpl; eauto.
Qed.

Lemma api_lookup_total : forall env key raw exchange provider ev st,
  exists out st',
    api_lookup env key raw exchange provider ev st = Ok (out, st').
Proof.
  intros env key raw exchange provider ev st. unfold api_lookup.
  destruct (api_results_total env raw exchange provider) as [l ->]. simpl.
  destruct (sort by_confidence_desc l) as [|top rest].
  - apply fuzzy_fallback_total.
  - case_if; simpl; eauto.
Qed.

Lemma resolve_total : forall env input options st,
  exists out st',
    resolveTickerOrCompanyName env input options st = Ok (out, st').
Proof.
  intros env input options st. unfold resolveTickerOrCompanyName.
  destruct (isTickerSymbol _); [eauto|].
  destruct (o_forceRefresh options).
  - destruct (tryLocalMapping _ _ _); simpl; eauto.
    apply api_lookup_total.
  - destruct (getCachedResolution _ _ _) as [[cached|] cache']; simpl; eauto.
    destruct (tryLocalMapping _ _ _); simpl; eauto.
    apply api_lookup_total.
Qed.

Lemma finnhub_unanswered : forall env q,
  unanswered env -> tryFinnhubLookup env q = Ok None.
Proof.
  intros env q H. unfold tryFinnhubLookup.
  destruct (FINNHUB_API_KEY env) as [k|]; [|reflexivity].
  destruct (negb (JsString.truthy k)); [reflexivity|].
  match goal with |- context [fetch env ?r] => specialize (H r) end.
  destruct (fetch env _) as [resp|e]; simpl; [|reflexivity].
  destruct H as [-> | H]; [reflexivity|].
  destruct (ok resp); simpl; [|reflexivity].
  destruct (json resp) as [v|e]; simpl; [|reflexivity].
  subst v. reflexivity.
Qed.

Lemma iex_unanswered : forall env q,
  unanswered env -> tryIexCloudLookup env q = Ok None.
Proof.
  intros env q H. unfold tryIexCloudLookup.
  destruct (IEX_CLOUD_API_KEY env) as [k|]; [|reflexivity].
  destruct (negb (JsString.truthy k)); [reflexivity|].
  match goal with |- context [fetch env ?r] => specialize (H r) end.
  destruct (fetch env _) as [resp|e]; simpl; [|reflexivity].
  destruct H as [-> | H]; [reflexivity|].
  destruct (ok resp); simpl; [|reflexivity].
  destruct (json resp) as [v|e]; simpl; [|reflexivity].
  subst v. reflexivity.
Qed.

Lemma openai_unanswered : forall env q,
  unanswered env -> resolveTickerWithOpenAI env q = Ok None.
Proof.
  intros env q H. unfold resolveTickerWithOpenAI.
  destruct (OPENAI_API_KEY env) as [k|]; [|reflexivity].
  destruct (negb (JsString.truthy k)); [reflexivity|].
  match goal with |- context [fetch env ?r] => specialize (H r) end.
  destruct (fetch env _) as [resp|e]; simpl; [|reflexivity].
  destruct H as [-> | H]; [reflexivity|].
  destruct (ok resp); simpl; [|reflexivity].
  destruct (json resp) as [v|e]; simpl; [|reflexivity].
  subst v. reflexivity.
Qed.

(** For every input string, every choice of options, every state and
    whatever the network, the environment and the runtime do,
    [resolveTickerOrCompanyName] completes with a value (a single result or
    an ambiguous one) and a state; so do the three adapters.  An adapter whose
    credential is unset, and an adapter whose request is rejected, answered
    with an error status, answered with a body that does not parse or with
    [null], returns [null]. *)
Theorem string_inputs_and_adapters_never_throw :
  (forall env input options st,
     exists out st',
       resolveTickerOrCompanyName env input options st = Ok (out, st'))
  /\ (forall env q,
        (exists r, tryFinnhubLookup env q = Ok r)
        /\ (exists r, tryIexCloudLookup env q = Ok r)
        /\ (exists r, resolveTickerWithOpenAI env q = Ok r))
  /\ (forall env q,
        (FINNHUB_API_KEY env = None -> tryFinnhubLookup env q = Ok None)
        /\ (IEX_CLOUD_API_KEY env = None -> tryIexCloudLookup env q = Ok None)
        /\ (OPENAI_API_KEY env = None ->
            resolveTickerWithOpenAI env q = Ok None))
  /\ (forall env q,
        unanswered env ->
        tryFinnhubLookup env q = Ok None
        /\ tryIexCloudLookup env q = Ok None
        /\ resolveTickerWithOpenAI env q = Ok None).
Proof.
  split; [exact resolve_total|].
  split.
  { intros env q. split; [apply tryFinnhubLookup_total|].
    split; [apply tryIexCloudLookup_total | apply resolveTickerWithOpenAI_total]. }
  split.
  { intros env q. repeat split; intros H.
    - unfold tryFinnhubLookup. rewrite H. reflexivity.
    - unfold tryIexCloudLookup. rewrite H. reflexivity.
    - unfold resolveTickerWithOpenAI. rewrite H. reflexivity. }
  intros env q H. split; [apply finnhub_unanswered, H|].
  split; [apply iex_unanswered, H | apply openai_unanswered, H].
Qed.

Lemma string_inputs_and_adapters_never_throw_witness :
  OPENAI_API_KEY Fixtures.offline = None
  /\ unanswered Fixtures.unreachable
  /\ resolveTickerWithOpenAI Fixtures.offline "Acme Holdings" = Ok None
  /\ tryFinnhubLookup Fixtures.unreachable "Acme Holdings" = Ok None
  /\ (exists r, tryFinnhubLookup Fixtures.garbled "Acme Holdings" = Ok r)
  /\ exists out st',
       resolveTickerOrCompanyName Fixtures.unreachable "Acme Holdings"
         default_options Fixtures.fresh = Ok (out, st').
Proof.
  destruct string_inputs_and_adapters_never_throw as (Hrun & Htotal & Hkey & Hnet).
  assert (Hoff : OPENAI_API_KEY Fixtures.offline = None) by reflexivity.
  assert (Hun : unanswered Fixtures.unreachable) by (intros req; exact I).
  split; [exact Hoff|]. split; [exact Hun|].
  split; [apply (Hkey Fixtures.offline "Acme Holdings"), Hoff|].
  split; [apply (Hnet Fixtures.unreachable "Acme Holdings"), Hun|].
  split; [apply (Htotal Fixtures.garbled "Acme Holdings")|].
  apply Hrun.
Defined.

(** A body whose [result] is a string makes [map] fail inside the adapter,
    which returns [null]. *)
Example garbled_answer_is_absorbed :
  tryFinnhubLookup Fixtures.garbled "Acme Holdings" = Ok None.
Proof. reflexivity. Qed.

(** C7, as the code has it.  A call whose input is not a string throws: for
    the number 123, as for every value that is no string, [normalizeString]
    answers the empty key and then [input.trim()] raises a [TypeError]
    outside any [try], whatever the options, the state and the surroundings;
    so does a call whose options are [null].  Every other call, that is
    every call with a string and options that can be destructured, returns a
    value. *)
Theorem non_string_input_is_thrown :
  (forall env options st,
     resolveTickerOrCompanyName_call env (VNum (JsNum.of_Z 123)) options st
     = Throw TypeError)
  /\ normalizeString_of (VNum (JsNum.of_Z 123)) = ""
  /\ (forall env input st,
        resolveTickerOrCompanyName_call env input PassedNull st
        = Throw TypeError)
  /\ (forall env input options st,
        match input, destructure options with
        | VStr s, Ok destructured =>
            resolveTickerOrCompanyName_call env input options st
            = resolveTickerOrCompanyName env s destructured st
            /\ exists out st',
                 resolveTickerOrCompanyName_call env input options st
                 = Ok (out, st')
        | _, _ =>
            resolveTickerOrCompanyName_call env input options st
            = Throw TypeError
        end).
Proof.
  split; [intros env [] st; reflexivity|].
  split; [reflexivity|].
  split; [reflexivity|].
  intros env input options st. unfold resolveTickerOrCompanyName_call.
  destruct input, (destructure options) as [destructured|[]] eqn:Hd;
    try reflexivity;
    try (destruct options; simpl in Hd; congruence).
  unfold bind. split; [reflexivity|]. apply resolve_total.
Qed.

End Totality.

(* ================================================================== *)
(** * The not-found outcome *)
(* ================================================================== *)

Module NotFound.

Import JsString Js StringUtils TickerResolution Notions Fixtures MapFacts.
Local Open Scope string_scope.

(** What a lookup leaves of the cache: the cache itself, or the cache without
    the entry of the key when that entry has expired. *)
Lemma getCachedResolution_cache : forall now key cache,
  snd (getCachedResolution now key cache) = cache
  \/ (snd (getCachedResolution now key cache) = JsMap.delete key cache
      /\ exists e, JsMap.get key cache = Some e
                   /\ (CACHE_TTL_MS <= now - timestamp e)%Z).
Proof.
  intros now key cache. unfold getCachedResolution.
  destruct (JsMap.get key cache) as [e|] eqn:E; [|left; reflexivity].
  destruct (Z.ltb_spec (now - timestamp e) CACHE_TTL_MS).
  - left. reflexivity.
  - right. split; [reflexivity|]. exists e. split; [reflexivity | assumption].
Qed.

(** The AI adapter answers with a non-empty ticker or not at all. *)
Lemma openai_ticker : forall env q ai,
  resolveTickerWithOpenAI env q = Ok (Some ai) -> truthy (r_ticker ai) = true.
Proof.
  intros env q ai. unfold resolveTickerWithOpenAI.
  destruct (OPENAI_API_KEY env) as [k|]; [|discriminate].
  destruct (negb (JsString.truthy k)); [discriminate|].
  repeat (match goal with
          | |- try_catch (bind ?c _) _ = _ -> _ => destruct c eqn:?; simpl
          | |- try_catch (if ?c then _ else _) _ = _ -> _ =>
              destruct c eqn:?; simpl
          | |- Ok None = _ -> _ => discriminate
          end).
  intros [= <-]. simpl.
  match goal with
  | H : str_toUpperCase ?t = Ok _, T : truthy ?t && _ = true |- _ =>
      destruct t; try discriminate H; simpl in H, T; injection H as <-
  end.
  match goal with
  | T : JsString.truthy ?s && _ = true |- _ => destruct s; [discriminate T|]
  end.
  reflexivity.
Qed.

Lemma ai_answer_ticker : forall env raw ai,
  ai_answer env raw = Ok (Some ai) -> truthy (r_ticker ai) = true.
Proof.
  intros env raw ai. unfold ai_answer.
  destruct (import_openaiService env); simpl; [|discriminate].
  destruct (resolveTickerWithOpenAI env raw) as [r|e] eqn:E; simpl;
    [|discriminate].
  intros [= ->]. eapply openai_ticker, E.
Qed.

(** C6, as the code has it.  When the input is not ticker-shaped, the cache
    has no fresh entry for its key (or the caller forces a refresh), the
    catalog has no entry for the key, the providers return no candidate, the
    fuzzy matcher returns no match and the AI adapter returns no answer, the
    call returns the result with ticker [null], exchange [null], the trimmed
    input as name, confidence 0 and [resolvedFrom] [not_found], tagged with a
    [symbol_not_found] event.  Nothing is inserted into the cache and the
    catalog is unchanged: the cache after the call is the cache before it,
    except that an entry of the key that had expired has been removed by the
    lookup; so the size never grows, and it is unchanged when the cache held
    no entry for the key or the caller forced a refresh. *)
Theorem not_found_inserts_nothing :
  forall env input options st,
    let key := normalizeString input in
    let raw := trim input in
    isTickerSymbol (toUpperCase raw) = false ->
    (o_forceRefresh options = true
     \/ fst (getCachedResolution (now_lookup env) key (resolutionCache st))
        = None) ->
    tryLocalMapping (localTickerMapping st) key (o_exchange options) = None ->
    api_results env raw (o_exchange options) (o_provider options) = Ok [] ->
    fuzzyMatchLocalTickers (localTickerMapping st) key (Some c65) = [] ->
    ai_answer env raw = Ok None ->
    exists st',
      resolveTickerOrCompanyName env input options st
      = Ok (Single
              {| r_ticker := VNull;
                 r_exchange := VNull;
                 r_name := VStr raw;
                 r_companyName := VUndefined;
                 r_confidence := VNum (JsNum.of_Z 0);
                 r_resolvedFrom := VStr "not_found";
                 r_telemetry :=
                   Some {| ev_type := "symbol_not_found";
                           ev_input := raw;
                           ev_timestamp := now_event env;
                           ev_ticker := VUndefined;
                           ev_confidence := VUndefined;
                           ev_resolvedFrom := VUndefined;
                           ev_matches := VUndefined;
                           ev_candidates := None |} |},
            st')
      /\ localTickerMapping st' = localTickerMapping st
      /\ (resolutionCache st' = resolutionCache st
          \/ (o_forceRefresh options = false
              /\ resolutionCache st' = JsMap.delete key (resolutionCache st)
              /\ exists e,
                   JsMap.get key (resolutionCache st) = Some e
                   /\ (CACHE_TTL_MS <= now_lookup env - timestamp e)%Z))
      /\ JsMap.size (resolutionCache st') <= JsMap.size (resolutionCache st)
      /\ (o_forceRefresh options = true
          \/ JsMap.get key (resolutionCache st) = None ->
          resolutionCache st' = resolutionCache st).
Proof.
  intros env input options st key raw Hshape Hmiss Hlocal Hapi Hfuzzy Hai.
  unfold resolveTickerOrCompanyName.
  fold key. fold raw. rewrite Hshape.
  set (ev := new_event "ticker_resolution_attempt" raw (now_event env)).
  assert (Hrest : forall st0,
             localTickerMapping st0 = localTickerMapping st ->
             api_lookup env key raw (o_exchange options) (o_provider options)
               ev st0
             = Ok (Single (not_found raw ev), st0)).
  { intros st0 Hcat. unfold api_lookup. rewrite Hapi. simpl.
    unfold fuzzy_fallback. rewrite Hcat, Hfuzzy.
    unfold ai_fallback. rewrite Hai. reflexivity. }
  destruct (o_forceRefresh options) eqn:Hforce.
  - rewrite Hlocal, (Hrest st eq_refl).
    exists st. repeat split; auto.
  - destruct Hmiss as [Hmiss|Hmiss]; [discriminate Hmiss|].
    destruct (getCachedResolution (now_lookup env) key (resolutionCache st))
      as [found cache'] eqn:Hread.
    simpl in Hmiss. subst found. simpl.
    rewrite Hlocal. rewrite Hrest by reflexivity.
    exists (with_cache cache' st). simpl.
    pose proof (getCachedResolution_cache (now_lookup env) key
                  (resolutionCache st)) as Hc.
    rewrite Hread in Hc. simpl in Hc.
    repeat split.
    + destruct Hc as [Hc | (Hc & e & He & Hage)]; [left; exact Hc|].
      right. repeat split; eauto.
    + destruct Hc as [-> | (-> & _)]; [lia | apply size_delete_le].
    + intros [Hf|Hnone]; [discriminate Hf|].
      destruct Hc as [Hc | (_ & e & He & _)]; [exact Hc | congruence].
Qed.

Lemma not_found_inserts_nothing_witness :
  isTickerSymbol (toUpperCase (trim "UNKNOWNCOMPANYXYZ123")) = false
  /\ tryLocalMapping seed_catalog (normalizeString "UNKNOWNCOMPANYXYZ123") None
     = None
  /\ fuzzyMatchLocalTickers seed_catalog
       (normalizeString "UNKNOWNCOMPANYXYZ123") (Some c65) = []
  /\ exists st',
       resolveTickerOrCompanyName offline "UNKNOWNCOMPANYXYZ123"
         default_options fresh
       = Ok (Single
               {| r_ticker := VNull;
                  r_exchange := VNull;
                  r_name := VStr "UNKNOWNCOMPANYXYZ123";
                  r_companyName := VUndefined;
                  r_confidence := VNum (JsNum.of_Z 0);
                  r_resolvedFrom := VStr "not_found";
                  r_telemetry :=
                    Some {| ev_type := "symbol_not_found";
                            ev_input := "UNKNOWNCOMPANYXYZ123";
                            ev_timestamp := 1000;
                            ev_ticker := VUndefined;
                            ev_confidence := VUndefined;
                            ev_resolvedFrom := VUndefined;
                            ev_matches := VUndefined;
                            ev_candidates := None |} |},
             st')
       /\ resolutionCache st' = resolutionCache fresh.
Proof.
  assert (H1 : isTickerSymbol (toUpperCase (trim "UNKNOWNCOMPANYXYZ123"))
               = false) by reflexivity.
  assert (H2 : tryLocalMapping seed_catalog
                 (normalizeString "UNKNOWNCOMPANYXYZ123") None = None)
    by reflexivity.
  assert (H3 : fuzzyMatchLocalTickers seed_catalog
                 (normalizeString "UNKNOWNCOMPANYXYZ123") (Some c65) = [])
    by (vm_compute; reflexivity).
  split; [exact H1|]. split; [exact H2|]. split; [exact H3|].
  destruct (@not_found_inserts_nothing offline "UNKNOWNCOMPANYXYZ123"
              default_options fresh H1 (or_intror eq_refl) H2 eq_refl H3
              eq_refl)
    as (st' & Hrun & _ & _ & _ & Hsame).
  exists st'. split; [exact Hrun|].
  apply Hsame. right. reflexivity.
Defined.

(** C6, as stated, fails.  A query that the AI adapter resolved is cached;
    when the same query comes back twenty-four hours later and every strategy
    is exhausted, the call returns the not-found result and the cache, which
    held one entry before the call, holds none after it. *)
Lemma not_found_can_shrink_the_cache :
  exists r st1 st2 ev,
    resolveTickerOrCompanyName ai_answers "Quantum Widgets" default_options
      fresh = Ok (Single r, st1)
    /\ r_ticker r = VStr "QNTM"
    /\ resolveTickerOrCompanyName next_day "Quantum Widgets" default_options
         st1
       = Ok (Single
               {| r_ticker := VNull;
                  r_exchange := VNull;
                  r_name := VStr "Quantum Widgets";
                  r_companyName := VUndefined;
                  r_confidence := VNum (JsNum.of_Z 0);
                  r_resolvedFrom := VStr "not_found";
                  r_telemetry := Some ev |}, st2)
    /\ ev_type ev = "symbol_not_found"
    /\ cs_size (fst (getCacheStats 86400000 (resolutionCache st1))) = 1
    /\ cs_size (fst (getCacheStats 86400000 (resolutionCache st2))) = 0
    /\ cs_size (fst (getCacheStats 86400000 (resolutionCache st2)))
       <> cs_size (fst (getCacheStats 86400000 (resolutionCache st1))).
Proof.
  do 4 eexists.
  split; [vm_compute; reflexivity|].
  split; [reflexivity|].
  split; [vm_compute; reflexivity|].
  split; [reflexivity|].
  split; [reflexivity|].
  split; [reflexivity|].
  discriminate.
Qed.

End NotFound.

(* ================================================================== *)
(** * Inputs with the same normalized key *)
(* ================================================================== *)

Module Echo.

Import JsString Js StringUtils TickerResolution Notions Fixtures.
Local Open Scope string_scope.

(** ** Scrubbing commutes with the cache operations *)

Lemma scrub_cache_get : forall k c,
  JsMap.get k (scrub_cache c) = option_map scrub_entry (JsMap.get k c).
Proof.
  intros k c. unfold JsMap.get. induction c as [|[k' e] c IH]; simpl; auto.
  destruct (String.eqb k' k); auto.
Qed.

Lemma scrub_cache_has : forall k c,
  JsMap.has k (scrub_cache c) = JsMap.has k c.
Proof.
  intros k c. induction c as [|[k' e] c IH]; simpl; auto.
  rewrite IH. reflexivity.
Qed.

Lemma scrub_cache_replace : forall k e c,
  scrub_cache (JsMap.replace k e c)
  = JsMap.replace k (scrub_entry e) (scrub_cache c).
Proof.
  intros k e c. induction c as [|[k' e'] c IH]; simpl; auto.
  destruct (String.eqb k' k); simpl; congruence.
Qed.

Lemma scrub_cache_set : forall k e c,
  scrub_cache (JsMap.set k e c) = JsMap.set k (scrub_entry e) (scrub_cache c).
Proof.
  intros k e c. unfold JsMap.set. rewrite scrub_cache_has.
  destruct (JsMap.has k c).
  - apply scrub_cache_replace.
  - unfold scrub_cache. rewrite map_app. reflexivity.
Qed.

(** ** Two events that differ in their input only *)

Lemma alike_new : forall type raw1 raw2 stamp,
  alike (new_event type raw1 stamp) (new_event type raw2 stamp).
Proof. reflexivity. Qed.

Lemma alike_fields : forall ev1 ev2,
  alike ev1 ev2 ->
  ev_type ev1 = ev_type ev2 /\ ev_timestamp ev1 = ev_timestamp ev2
  /\ ev_ticker ev1 = ev_ticker ev2 /\ ev_confidence ev1 = ev_confidence ev2
  /\ ev_resolvedFrom ev1 = ev_resolvedFrom ev2
  /\ ev_matches ev1 = ev_matches ev2
  /\ ev_candidates ev1 = ev_candidates ev2.
Proof.
  intros ev1 ev2 H. unfold alike, scrub_event in H.
  injection H. intros. repeat split; assumption.
Qed.

Ltac alike_setter :=
  intros; unfold alike, scrub_event in *; simpl;
  match goal with
  | H : _ = _ |- _ => injection H; intros; f_equal; assumption
  end.

Lemma alike_set_type : forall t ev1 ev2,
  alike ev1 ev2 -> alike (set_type t ev1) (set_type t ev2).
Proof. alike_setter. Qed.

Lemma alike_set_ticker : forall v ev1 ev2,
  alike ev1 ev2 -> alike (set_ticker v ev1) (set_ticker v ev2).
Proof. alike_setter. Qed.

Lemma alike_set_confidence : forall v ev1 ev2,
  alike ev1 ev2 -> alike (set_confidence v ev1) (set_confidence v ev2).
Proof. alike_setter. Qed.

Lemma alike_set_resolvedFrom : forall v ev1 ev2,
  alike ev1 ev2 -> alike (set_resolvedFrom v ev1) (set_resolvedFrom v ev2).
Proof. alike_setter. Qed.

Lemma alike_set_matches : forall n l ev1 ev2,
  alike ev1 ev2 -> alike (set_matches n l ev1) (set_matches n l ev2).
Proof. alike_setter. Qed.

Create HintDb echo.

#[local] Hint Resolve alike_new alike_set_type alike_set_ticker
  alike_set_confidence alike_set_resolvedFrom alike_set_matches : echo.

#[local] Arguments tag_shared : simpl never.

(** Tagging a shared object with either event gives the same result and the
    same cache once the echo is blanked. *)
Lemma tag_shared_alike : forall key obj ev1 ev2 st,
  alike ev1 ev2 ->
  scrub_run (let (result, st') := tag_shared key obj ev1 st in
             Ok (Single result, st'))
  = scrub_run (let (result, st') := tag_shared key obj ev2 st in
               Ok (Single result, st')).
Proof.
  intros key obj ev1 ev2 st H. unfold tag_shared. simpl.
  assert (Hr : scrub_resolution (set_telemetry ev1 obj)
               = scrub_resolution (set_telemetry ev2 obj)).
  { unfold scrub_resolution, set_telemetry. simpl. rewrite H. reflexivity. }
  rewrite Hr. do 2 f_equal.
  unfold scrub_state, with_cache. simpl. f_equal.
  destruct (JsMap.get key (resolutionCache st)); [|reflexivity].
  rewrite !scrub_cache_replace. unfold scrub_entry. simpl.
  rewrite Hr. reflexivity.
Qed.

Lemma not_found_alike : forall raw1 raw2 ev1 ev2,
  alike ev1 ev2 ->
  scrub_resolution (not_found raw1 ev1) = scrub_resolution (not_found raw2 ev2).
Proof.
  intros raw1 raw2 ev1 ev2 H. unfold scrub_resolution, not_found. simpl.
  rewrite (alike_set_type "symbol_not_found" H). reflexivity.
Qed.

Ltac step := unfold bind; cbv beta iota zeta.

Ltac ambiguous_case H :=
  simpl;
  match goal with
  | |- context [scrub_event (set_matches ?n ?l (set_type ?t ?ev))] =>
      rewrite (@alike_set_matches n l _ _ (@alike_set_type t _ _ H))
  end;
  reflexivity.

Lemma ai_fallback_alike : forall env key raw1 raw2 ev1 ev2 st,
  ai_answer env raw1 = ai_answer env raw2 ->
  alike ev1 ev2 ->
  scrub_run (ai_fallback env key raw1 ev1 st)
  = scrub_run (ai_fallback env key raw2 ev2 st).
Proof.
  intros env key raw1 raw2 ev1 ev2 st Hai H. unfold ai_fallback.
  rewrite Hai. destruct (ai_answer env raw2) as [[ai|]|e]; step; auto.
  - destruct (truthy (r_ticker ai)).
    + apply tag_shared_alike. auto with echo.
    + simpl. rewrite (not_found_alike raw1 raw2 H). reflexivity.
  - simpl. rewrite (not_found_alike raw1 raw2 H). reflexivity.
Qed.

Lemma fuzzy_fallback_alike : forall env key raw1 raw2 ev1 ev2 st,
  ai_answer env raw1 = ai_answer env raw2 ->
  alike ev1 ev2 ->
  scrub_run (fuzzy_fallback env key raw1 ev1 st)
  = scrub_run (fuzzy_fallback env key raw2 ev2 st).
Proof.
  intros env key raw1 raw2 ev1 ev2 st Hai H. unfold fuzzy_fallback.
  step.
  destruct (fuzzyMatchLocalTickers _ _ _) as [|first others].
  - apply ai_fallback_alike; assumption.
  - match goal with |- context [if ?c then _ else _] => destruct c end.
    + apply tag_shared_alike. auto with echo.
    + ambiguous_case H.
Qed.

Lemma api_lookup_alike :
  forall env key raw1 raw2 exchange provider ev1 ev2 st,
    api_results env raw1 exchange provider
    = api_results env raw2 exchange provider ->
    ai_answer env raw1 = ai_answer env raw2 ->
    alike ev1 ev2 ->
    scrub_run (api_lookup env key raw1 exchange provider ev1 st)
    = scrub_run (api_lookup env key raw2 exchange provider ev2 st).
Proof.
  intros env key raw1 raw2 exchange provider ev1 ev2 st Hapi Hai H.
  unfold api_lookup. rewrite Hapi.
  destruct (api_results env raw2 exchange provider) as [l|e]; step; auto.
  destruct (sort by_confidence_desc l) as [|top rest].
  - apply fuzzy_fallback_alike; assumption.
  - match goal with |- context [if ?c then _ else _] => destruct c end.
    + apply tag_shared_alike. auto with echo.
    + ambiguous_case H.
Qed.

(** C2, as the code has it.  Take two ASCII inputs with the same normalized
    key, neither of which, once trimmed and uppercased, is ticker-shaped (one
    to five letters, optionally followed by a dot and one or two letters) or
    a plain word of six or seven letters, which the ticker detection of the
    code takes for a ticker as well.  Resolved with the same options against
    the same cache, catalog, clock and surroundings in which the providers
    and the AI adapter answer the two trimmed inputs alike (for the AI
    adapter this includes the [companyName] of its answer, which is its query
    when the provider names no company), they give the same result and leave
    the same state, apart from the places where a result echoes the trimmed
    input: the [input] field of its telemetry event and the [name] field of a
    not-found result. *)
Theorem same_key_same_result_up_to_echo :
  forall env s1 s2 options st,
    ascii_only s1 = true ->
    ascii_only s2 = true ->
    normalizeString s1 = normalizeString s2 ->
    shaped is_upper is_dot (toUpperCase (trim s1)) = false ->
    plain_letters is_upper 6 7 (toUpperCase (trim s1)) = false ->
    shaped is_upper is_dot (toUpperCase (trim s2)) = false ->
    plain_letters is_upper 6 7 (toUpperCase (trim s2)) = false ->
    answered_alike env (trim s1) (trim s2) ->
    scrub_run (resolveTickerOrCompanyName env s1 options st)
    = scrub_run (resolveTickerOrCompanyName env s2 options st).
Proof.
  intros env s1 s2 options st _ _ Hkey Hshape1 Hlong1 Hshape2 Hlong2
         (Hf & Hi & Ho).
  assert (Hs1 : isTickerSymbol (toUpperCase (trim s1)) = false)
    by (rewrite TickerShape.isTickerSymbol_shaped_or_long, Hshape1, Hlong1;
        reflexivity).
  assert (Hs2 : isTickerSymbol (toUpperCase (trim s2)) = false)
    by (rewrite TickerShape.isTickerSymbol_shaped_or_long, Hshape2, Hlong2;
        reflexivity).
  assert (Hapi : api_results env (trim s1) (o_exchange options)
                   (o_provider options)
                 = api_results env (trim s2) (o_exchange options)
                     (o_provider options)).
  { unfold api_results. rewrite Hf, Hi. reflexivity. }
  assert (Hai : ai_answer env (trim s1) = ai_answer env (trim s2)).
  { unfold ai_answer. rewrite Ho. reflexivity. }
  unfold resolveTickerOrCompanyName. rewrite Hkey, Hs1, Hs2.
  set (key := normalizeString s2).
  assert (Hrest : forall st0,
    scrub_run
      (match tryLocalMapping (localTickerMapping st0) key (o_exchange options)
       with
       | Some localMatch =>
           let ev :=
             set_resolvedFrom (VStr "local_cache")
               (set_confidence (r_confidence localMatch)
                  (set_ticker (r_ticker localMatch)
                     (set_type "symbol_resolved"
                        (new_event "ticker_resolution_attempt" (trim s1)
                           (now_event env))))) in
           let st1 := store env key localMatch st0 in
           let (result, st') := tag_shared key localMatch ev st1 in
           Ok (Single result, st')
       | None =>
           api_lookup env key (trim s1) (o_exchange options)
             (o_provider options)
             (new_event "ticker_resolution_attempt" (trim s1) (now_event env))
             st0
       end)
    = scrub_run
        (match tryLocalMapping (localTickerMapping st0) key (o_exchange options)
         with
         | Some localMatch =>
             let ev :=
               set_resolvedFrom (VStr "local_cache")
                 (set_confidence (r_confidence localMatch)
                    (set_ticker (r_ticker localMatch)
                       (set_type "symbol_resolved"
                          (new_event "ticker_resolution_attempt" (trim s2)
                             (now_event env))))) in
             let st1 := store env key localMatch st0 in
             let (result, st') := tag_shared key localMatch ev st1 in
             Ok (Single result, st')
         | None =>
             api_lookup env key (trim s2) (o_exchange options)
               (o_provider options)
               (new_event "ticker_resolution_attempt" (trim s2) (now_event env))
               st0
         end)).
  { intros st0.
    destruct (tryLocalMapping _ _ _) as [localMatch|].
    - cbv zeta. apply tag_shared_alike. auto with echo.
    - apply api_lookup_alike; auto with echo. }
  destruct (o_forceRefresh options).
  - apply Hrest.
  - destruct (getCachedResolution _ _ _) as [[cached|] cache'].
    + cbv zeta. apply tag_shared_alike. auto with echo.
    + apply Hrest.
Qed.

Lemma same_key_same_result_up_to_echo_witness :
  ascii_only "Apple Inc." = true
  /\ ascii_only "apple inc" = true
  /\ normalizeString "Apple Inc." = normalizeString "apple inc"
  /\ shaped is_upper is_dot (toUpperCase (trim "Apple Inc.")) = false
  /\ plain_letters is_upper 6 7 (toUpperCase (trim "Apple Inc.")) = false
  /\ shaped is_upper is_dot (toUpperCase (trim "apple inc")) = false
  /\ plain_letters is_upper 6 7 (toUpperCase (trim "apple inc")) = false
  /\ answered_alike offline (trim "Apple Inc.") (trim "apple inc")
  /\ scrub_run (resolveTickerOrCompanyName offline "Apple Inc."
                  default_options fresh)
     = scrub_run (resolveTickerOrCompanyName offline "apple inc"
                    default_options fresh).
Proof.
  assert (H4 : answered_alike offline (trim "Apple Inc.") (trim "apple inc"))
    by (repeat split; reflexivity).
  split; [reflexivity|]. split; [reflexivity|]. split; [reflexivity|].
  split; [reflexivity|]. split; [reflexivity|]. split; [reflexivity|].
  split; [reflexivity|]. split; [exact H4|].
  exact (@same_key_same_result_up_to_echo offline "Apple Inc." "apple inc"
           default_options fresh eq_refl eq_refl eq_refl eq_refl eq_refl
           eq_refl eq_refl H4).
Defined.

(** C2, as stated, fails.  The two inputs below have the same normalized
    key and are resolved against the same empty cache, the same catalog and
    the same surroundings at the same instants; both calls end not found, and
    the results differ in their [name], which is the trimmed input. *)
Lemma same_key_different_results :
  normalizeString "UNKNOWNCOMPANYXYZ123"
  = normalizeString "unknowncompanyxyz123"
  /\ exists r1 r2 st1 st2,
       resolveTickerOrCompanyName offline "UNKNOWNCOMPANYXYZ123"
         default_options fresh = Ok (Single r1, st1)
       /\ resolveTickerOrCompanyName offline "unknowncompanyxyz123"
            default_options fresh = Ok (Single r2, st2)
       /\ r_name r1 = VStr "UNKNOWNCOMPANYXYZ123"
       /\ r_name r2 = VStr "unknowncompanyxyz123"
       /\ option_map ev_timestamp (r_telemetry r1)
          = option_map ev_timestamp (r_telemetry r2)
       /\ r1 <> r2.
Proof.
  split; [reflexivity|].
  do 4 eexists.
  split; [vm_compute; reflexivity|].
  split; [vm_compute; reflexivity|].
  split; [reflexivity|]. split; [reflexivity|]. split; [reflexivity|].
  discriminate.
Qed.

(** A plain word of six letters and the same word followed by a full stop
    have the same key and neither is ticker-shaped; the code takes the first
    for a ticker and finds the second in the catalog. *)
Example long_word_and_its_dotted_spelling_differ :
  normalizeString "NVIDIA" = normalizeString "nvidia."
  /\ shaped is_upper is_dot (toUpperCase (trim "NVIDIA")) = false
  /\ shaped is_upper is_dot (toUpperCase (trim "nvidia.")) = false
  /\ plain_letters is_upper 6 7 (toUpperCase (trim "NVIDIA")) = true
  /\ exists r1 r2 st1 st2,
       resolveTickerOrCompanyName offline "NVIDIA" default_options fresh
       = Ok (Single r1, st1)
       /\ resolveTickerOrCompanyName offline "nvidia." default_options fresh
          = Ok (Single r2, st2)
       /\ r_ticker r1 = VStr "NVIDIA"
       /\ r_resolvedFrom r1 = VStr "input_detection"
       /\ r_ticker r2 = VStr "NVDA"
       /\ r_resolvedFrom r2 = VStr "local_cache".
Proof.
  split; [reflexivity|]. split; [reflexivity|]. split; [reflexivity|].
  split; [reflexivity|].
  do 4 eexists.
  split; [vm_compute; reflexivity|].
  split; [vm_compute; reflexivity|].
  repeat split.
Qed.

(** The spaced spelling of a ticker has the key of the ticker but is not
    detected as one: it is resolved through the catalog, with the confidence
    of the catalog entry. *)
Example spaced_ticker_goes_through_the_catalog :
  normalizeString "N V D A" = normalizeString "NVDA"
  /\ isTickerSymbol (toUpperCase (trim "N V D A")) = false
  /\ exists r1 r2 st1 st2,
       resolveTickerOrCompanyName offline "NVDA" default_options fresh
       = Ok (Single r1, st1)
       /\ resolveTickerOrCompanyName offline "N V D A" default_options fresh
          = Ok (Single r2, st2)
       /\ r_resolvedFrom r1 = VStr "input_detection"
       /\ r_confidence r1 = VNum (JsNum.of_Z 1)
       /\ r_resolvedFrom r2 = VStr "local_cache"
       /\ r_confidence r2 = VNum c99
       /\ r_ticker r1 = VStr "NVDA" /\ r_ticker r2 = VStr "NVDA".
Proof.
  split; [reflexivity|]. split; [reflexivity|].
  do 4 eexists.
  split; [vm_compute; reflexivity|].
  split; [vm_compute; reflexivity|].
  repeat split.
Qed.

(** The providers are asked with the trimmed input, not with the key: a
    provider that knows one spelling only resolves that spelling and leaves
    the other, of the same key, not found. *)
Example providers_see_the_raw_input :
  normalizeString "Acme Holdings" = normalizeString "acme holdings"
  /\ isTickerSymbol (toUpperCase (trim "Acme Holdings")) = false
  /\ isTickerSymbol (toUpperCase (trim "acme holdings")) = false
  /\ exists a r st1 st2,
       resolveTickerOrCompanyName picky "Acme Holdings" default_options fresh
       = Ok (Multiple a, st1)
       /\ a_matches a = [acme; acme_holdings]
       /\ resolveTickerOrCompanyName picky "acme holdings" default_options
            fresh = Ok (Single r, st2)
       /\ r_resolvedFrom r = VStr "not_found".
Proof.
  split; [reflexivity|]. split; [reflexivity|]. split; [reflexivity|].
  do 4 eexists.
  split; [vm_compute; reflexivity|]. split; [reflexivity|].
  split; [vm_compute; reflexivity|]. reflexivity.
Qed.

End Echo.

(* ================================================================== *)
(** * The fuzzy matcher *)
(* ================================================================== *)

Module Fuzzy.

Import JsString Js StringUtils TickerResolution Notions Fixtures NumFacts SortFacts.
Local Open Scope string_scope.

Lemma same_number_eq : forall x y, same_number x y = true -> x = y.
Proof.
  intros [s|s| |s m e] [s'|s'| |s' m' e']; simpl; try discriminate; auto.
  - intros H. apply Bool.eqb_prop in H. congruence.
  - intros H. apply Bool.eqb_prop in H. congruence.
  - intros H. apply andb_prop in H as [H He]. apply andb_prop in H as [Hs Hm].
    apply Bool.eqb_prop in Hs. apply Pos.eqb_eq in Hm. apply Z.eqb_eq in He.
    congruence.
Qed.

Lemma by_confidence_desc_asym : forall a b,
  JsNum.gt (by_confidence_desc a b) zero = true ->
  JsNum.gt (by_confidence_desc b a) zero = false.
Proof.
  intros a b. unfold by_confidence_desc. apply sub_positive_asym.
Qed.

Lemma equal_confidence_not_moved : forall a b,
  c_confidence a = c_confidence b ->
  JsNum.gt (by_confidence_desc a b) zero = false.
Proof.
  intros a b H.
  destruct (JsNum.gt (by_confidence_desc a b) zero) eqn:E; [|reflexivity].
  pose proof (by_confidence_desc_asym _ _ E) as E'.
  unfold by_confidence_desc in *. rewrite H in *. congruence.
Qed.

Lemma fuzzy_scan_In : forall key threshold entries c,
  In c (fuzzy_scan key threshold entries) <->
  exists company info,
    In (company, info) entries
    /\ JsNum.ge (similarity key company) threshold = true
    /\ c = fuzzy_candidate company info (similarity key company).
Proof.
  intros key threshold entries c.
  induction entries as [|[company info] rest IH]; simpl.
  - split; [tauto | intros (? & ? & [] & _)].
  - destruct (JsNum.ge (similarity key company) threshold) eqn:E; simpl.
    + rewrite IH. split.
      * intros [<- | (c' & i' & H & G & ->)]; eauto 8.
      * intros (c' & i' & [[= <- <-] | H] & G & ->); eauto 8.
    + rewrite IH. split.
      * intros (c' & i' & H & G & ->). eauto 8.
      * intros (c' & i' & [[= <- <-] | H] & G & ->); [congruence | eauto 8].
Qed.

Lemma fuzzy_scan_length : forall key threshold entries,
  List.length (fuzzy_scan key threshold entries)
  = List.length
      (filter (fun kv => JsNum.ge (similarity key (fst kv)) threshold) entries).
Proof.
  intros key threshold entries.
  induction entries as [|[company info] rest IH]; simpl; auto.
  destruct (JsNum.ge (similarity key company) threshold); simpl; auto.
Qed.

(** C8, as the code has it.  The fuzzy matcher keeps exactly the catalog
    entries whose similarity to the key is greater than or equal to the
    threshold it works with, which is the one it is given or 0.7 when it is
    given none: such an entry gives a candidate of the result, every
    candidate of the result comes from such an entry, and there are as many
    candidates as such entries.  Each candidate carries as confidence its
    similarity rounded to two decimals, and the result is ordered by
    descending confidence: no candidate is followed by one that the
    comparator [b.confidence - a.confidence] ranks before it, and candidates
    of equal confidence stay in catalog order.  At the threshold 0.65, which
    the orchestrator passes, a similarity of exactly 0.65 is kept and one of
    0.649999 is dropped. *)
Theorem fuzzy_matcher_keeps_and_orders :
  forall (catalog : Catalog) (key : string)
         (threshold : option JsNum.number),
    let bar := or_default threshold in
    let scanned := fuzzy_scan key bar (own catalog) in
    let result := fuzzyMatchLocalTickers catalog key threshold in
    (forall company info,
       In (company, info) (own catalog) ->
       (In (fuzzy_candidate company info (similarity key company)) result
        <-> JsNum.ge (similarity key company) bar = true))
    /\ (forall c,
          In c result ->
          exists company info,
            In (company, info) (own catalog)
            /\ JsNum.ge (similarity key company) bar = true
            /\ c = fuzzy_candidate company info (similarity key company)
            /\ c_confidence c = round2 (similarity key company))
    /\ List.length result
       = List.length
           (filter (fun kv => JsNum.ge (similarity key (fst kv)) bar)
                   (own catalog))
    /\ Sorted not_after result
    /\ (forall x,
          filter (fun c => same_number (c_confidence c) x) result
          = filter (fun c => same_number (c_confidence c) x) scanned)
    /\ or_default (Some c65) = c65
    /\ or_default None = c70
    /\ JsNum.ge c65 c65 = true
    /\ JsNum.ge (JsNum.lit 649999 1000000) c65 = false.
Proof.
  intros catalog key threshold bar scanned result.
  unfold result, fuzzyMatchLocalTickers. fold bar. fold scanned.
  split.
  { intros company info Hin. rewrite sort_In. unfold scanned.
    rewrite fuzzy_scan_In. split.
    - intros (c' & i' & _ & G & Heq).
      assert (Hname : VStr company = VStr c')
        by exact (f_equal c_name Heq).
      injection Hname as ->. exact G.
    - intros G. eauto 8. }
  split.
  { intros c Hc. rewrite sort_In in Hc. unfold scanned in Hc.
    apply fuzzy_scan_In in Hc as (company & info & Hin & G & ->).
    exists company, info. repeat split; assumption. }
  split.
  { rewrite sort_length. apply fuzzy_scan_length. }
  split.
  { apply sort_sorted. exact by_confidence_desc_asym. }
  split.
  { intros x. apply sort_filter. intros a b Ha Hb.
    apply equal_confidence_not_moved.
    apply same_number_eq in Ha, Hb. congruence. }
  repeat split.
Qed.

Lemma fuzzy_matcher_keeps_and_orders_witness :
  In ("apple inc", entry "AAPL" "NASDAQ" c99) (own seed_catalog)
  /\ JsNum.ge (similarity "appleinc" "apple inc") c65 = true
  /\ In (fuzzy_candidate "apple inc" (entry "AAPL" "NASDAQ" c99)
          (similarity "appleinc" "apple inc"))
        (fuzzyMatchLocalTickers seed_catalog "appleinc" (Some c65))
  /\ Sorted not_after
       (fuzzyMatchLocalTickers with_meridian "meridianlabs" (Some c65)).
Proof.
  assert (Hin : In ("apple inc", entry "AAPL" "NASDAQ" c99) (own seed_catalog))
    by (vm_compute; tauto).
  assert (Hge : JsNum.ge (similarity "appleinc" "apple inc") c65 = true)
    by (vm_compute; reflexivity).
  destruct (fuzzy_matcher_keeps_and_orders seed_catalog "appleinc" (Some c65))
    as (Hkeep & _).
  destruct (fuzzy_matcher_keeps_and_orders with_meridian "meridianlabs"
              (Some c65))
    as (_ & _ & _ & Hsorted & _).
  split; [exact Hin|]. split; [exact Hge|].
  split; [apply (Hkeep _ _ Hin), Hge | exact Hsorted].
Defined.

(** C8, as stated, fails.  With the two added names, the key of Meridian
    Labs has similarity 11/12 to the first and 12/13 to the second; both
    round to 0.92, the sort leaves them in catalog order, and the result
    lists the candidate of lower similarity first. *)
Lemma fuzzy_result_not_sorted_by_similarity :
  let key := normalizeString "Meridian Labs" in
  let result := fuzzyMatchLocalTickers with_meridian key (Some c65) in
  map c_name result = [VStr "meridianlab"; VStr "meridianlabsb"]
  /\ map c_confidence result = [c92; c92]
  /\ JsNum.lt (similarity key "meridianlab") (similarity key "meridianlabsb")
     = true
  /\ ~ Sorted (fun a b =>
                 exists x y,
                   c_name a = VStr x /\ c_name b = VStr y
                   /\ JsNum.ge (similarity key x) (similarity key y) = true)
              result.
Proof.
  intros key result.
  assert (Hres : result
                 = [ fuzzy_candidate "meridianlab" (entry "MLAB" "NYSE" c99)
                       (similarity key "meridianlab");
                     fuzzy_candidate "meridianlabsb" (entry "MLB.B" "NYSE" c99)
                       (similarity key "meridianlabsb") ])
    by (vm_compute; reflexivity).
  split; [rewrite Hres; reflexivity|].
  split; [rewrite Hres; vm_compute; reflexivity|].
  split; [vm_compute; reflexivity|].
  rewrite Hres. intros Hs.
  inversion Hs as [|? ? _ Hhd]; subst.
  inversion Hhd as [|? ? (x & y & Hx & Hy & Hge)]; subst.
  simpl in Hx, Hy. injection Hx as <-. injection Hy as <-.
  vm_compute in Hge. discriminate Hge.
Qed.

(** A name at distance 7 from a key of length 20 has similarity exactly
    0.65: it is kept at the threshold 0.65 and dropped when the threshold is
    left to its default 0.7. *)
Example similarity_at_threshold_is_kept :
  let catalog :=
    addLocalMapping "Abcdefghijklm Zzzzzzz" "ABCZ" "NYSE" c99 seed_catalog in
  let key := "abcdefghijklmnopqrst" in
  levenshteinDistance key "abcdefghijklmzzzzzzz" = 7
  /\ similarity key "abcdefghijklmzzzzzzz" = c65
  /\ map c_name (fuzzyMatchLocalTickers catalog key (Some c65))
     = [VStr "abcdefghijklmzzzzzzz"]
  /\ fuzzyMatchLocalTickers catalog key None = [].
Proof.
  repeat split; vm_compute; reflexivity.
Qed.

End Fuzzy.

(* ================================================================== *)
(** * The cache stays a map, and what an ambiguous answer leaves in it *)
(* ================================================================== *)

Module Invariant.

Import JsString Js StringUtils TickerResolution Notions MapFacts.
Local Open Scope string_scope.

Lemma store_wf : forall env key obj st,
  cache_wf st -> cache_wf (store env key obj st).
Proof.
  intros env key obj st H. unfold cache_wf, store, setCacheResolution. simpl.
  apply wf_set, H.
Qed.

Lemma tag_shared_wf : forall key obj ev st,
  cache_wf st -> cache_wf (snd (tag_shared key obj ev st)).
Proof.
  intros key obj ev st H. unfold cache_wf, tag_shared. simpl.
  destruct (JsMap.get key (resolutionCache st)); [|exact H].
  unfold wf. rewrite replace_keys. exact H.
Qed.

Lemma lookup_wf : forall now key cache,
  wf cache -> wf (snd (getCachedResolution now key cache)).
Proof.
  intros now key cache H. unfold getCachedResolution.
  destruct (JsMap.get key cache) as [e|]; [|exact H].
  destruct (now - timestamp e <? CACHE_TTL_MS)%Z; simpl;
    [exact H | apply wf_delete, H].
Qed.

Ltac finish :=
  match goal with
  | |- context [tag_shared ?k ?o ?e ?s] =>
      let W := fresh "W" in
      let E := fresh "E" in
      assert (W : cache_wf (snd (tag_shared k o e s)))
        by (apply tag_shared_wf; auto using store_wf);
      destruct (tag_shared k o e s) as [? ?]; simpl in W;
      intros E; injection E as <- <-; exact W
  | |- Ok _ = Ok _ -> _ =>
      let E := fresh "E" in
      intros E; injection E as <- <-; auto using store_wf
  | |- Throw _ = Ok _ -> _ => discriminate
  end.

Lemma ai_fallback_wf : forall env key raw ev st out st',
  cache_wf st -> ai_fallback env key raw ev st = Ok (out, st') -> cache_wf st'.
Proof.
  intros env key raw ev st out st' H. unfold ai_fallback, bind.
  destruct (ai_answer env raw) as [[ai|]|e]; try finish.
  destruct (truthy (r_ticker ai)); finish.
Qed.

Lemma fuzzy_fallback_wf : forall env key raw ev st out st',
  cache_wf st ->
  fuzzy_fallback env key raw ev st = Ok (out, st') -> cache_wf st'.
Proof.
  intros env key raw ev st out st' H. unfold fuzzy_fallback.
  cbv zeta. destruct (fuzzyMatchLocalTickers _ _ _) as [|first others].
  - apply ai_fallback_wf, H.
  - match goal with |- context [if ?c then _ else _] => destruct c end;
      finish.
Qed.

Lemma api_lookup_wf : forall env key raw exchange provider ev st out st',
  cache_wf st ->
  api_lookup env key raw exchange provider ev st = Ok (out, st') ->
  cache_wf st'.
Proof.
  intros env key raw exchange provider ev st out st' H.
  unfold api_lookup, bind.
  destruct (api_results env raw exchange provider) as [l|e]; try finish.
  destruct (sort by_confidence_desc l) as [|top rest].
  - apply fuzzy_fallback_wf, H.
  - cbv zeta.
    match goal with |- context [if ?c then _ else _] => destruct c end;
      finish.
Qed.

(** Every call leaves a cache with one entry for a key, if it found one. *)
Lemma resolve_wf : forall env input options st out st',
  cache_wf st ->
  resolveTickerOrCompanyName env input options st = Ok (out, st') ->
  cache_wf st'.
Proof.
  intros env input options st out st' H. unfold resolveTickerOrCompanyName.
  cbv zeta.
  destruct (isTickerSymbol _); try finish.
  assert (Hrest : forall st0,
            cache_wf st0 ->
            match tryLocalMapping (localTickerMapping st0)
                    (normalizeString input) (o_exchange options) with
            | Some localMatch =>
                let (result, st1) :=
                  tag_shared (normalizeString input) localMatch
                    (set_resolvedFrom (VStr "local_cache")
                       (set_confidence (r_confidence localMatch)
                          (set_ticker (r_ticker localMatch)
                             (set_type "symbol_resolved"
                                (new_event "ticker_resolution_attempt"
                                   (trim input) (now_event env))))))
                    (store env (normalizeString input) localMatch st0) in
                Ok (Single result, st1)
            | None =>
                api_lookup env (normalizeString input) (trim input)
                  (o_exchange options) (o_provider options)
                  (new_event "ticker_resolution_attempt" (trim input)
                     (now_event env)) st0
            end = Ok (out, st') -> cache_wf st').
  { intros st0 H0. destruct (tryLocalMapping _ _ _) as [localMatch|].
    - finish.
    - apply api_lookup_wf, H0. }
  destruct (o_forceRefresh options).
  - apply Hrest, H.
  - pose proof (lookup_wf (now_lookup env) (normalizeString input) H) as Hl.
    destruct (getCachedResolution _ _ _) as [[cached|] cache'];
      simpl in Hl.
    + cbv zeta.
      assert (W : cache_wf
                    (with_cache cache' st)) by exact Hl.
      finish.
    + apply Hrest. exact Hl.
Qed.

(** Whenever the providers return two candidates or more, the first of
    them, in sorted order, is in the cache when the ambiguous result is
    returned. *)
Lemma ambiguous_api_answer_is_stored :
  forall env key raw exchange provider ev st l top second rest,
    api_results env raw exchange provider = Ok l ->
    sort by_confidence_desc l = top :: second :: rest ->
    exists a,
      api_lookup env key raw exchange provider ev st
      = Ok (Multiple a, store env key (as_resolution top) st)
      /\ a_matches a = top :: second :: rest
      /\ JsMap.get key
           (resolutionCache (store env key (as_resolution top) st))
         = Some {| data := as_resolution top; timestamp := now_store env |}.
Proof.
  intros env key raw exchange provider ev st l top second rest Hapi Hsort.
  unfold api_lookup. rewrite Hapi. simpl. rewrite Hsort. simpl.
  eexists. split; [reflexivity|]. split; [reflexivity|].
  apply get_set_same.
Qed.

End Invariant.

(* ================================================================== *)
(** * The helper lemmas on maps, strings and pieces *)
(* ================================================================== *)

Module MapUpdates.

Import JsString Regex Js StringUtils TickerResolution OpenaiService Route.
Import Notions Fixtures MapFacts.
Local Open Scope string_scope.

Section Updates.

Context {V : Type}.

Lemma get_replace_other : forall k k' v (m : JsMap.t V),
  k' <> k -> JsMap.get k' (JsMap.replace k v m) = JsMap.get k' m.
Proof.
  intros k k' v m Hk. unfold JsMap.get.
  induction m as [|[k0 v0] m IH]; simpl; [reflexivity|].
  destruct (String.eqb k0 k) eqn:E; simpl.
  - apply String.eqb_eq in E. subst k0.
    destruct (String.eqb k k') eqn:E'; [|reflexivity].
    apply String.eqb_eq in E'. congruence.
  - destruct (String.eqb k0 k'); [reflexivity | exact IH].
Qed.

Lemma get_app_other : forall k k' v (m : JsMap.t V),
  k' <> k -> JsMap.get k' ((m ++ [(k, v)])%list) = JsMap.get k' m.
Proof.
  intros k k' v m Hk. unfold JsMap.get.
  induction m as [|[k0 v0] m IH]; simpl.
  - destruct (String.eqb k k') eqn:E; [|reflexivity].
    apply String.eqb_eq in E. congruence.
  - destruct (String.eqb k0 k'); [reflexivity | exact IH].
Qed.

Lemma get_set_other : forall k k' v (m : JsMap.t V),
  k' <> k -> JsMap.get k' (JsMap.set k v m) = JsMap.get k' m.
Proof.
  intros k k' v m Hk. unfold JsMap.set.
  destruct (JsMap.has k m);
    [apply get_replace_other | apply get_app_other]; exact Hk.
Qed.

Lemma has_replace : forall k k' v (m : JsMap.t V),
  JsMap.has k' (JsMap.replace k v m) = JsMap.has k' m.
Proof.
  intros k k' v m. induction m as [|[k0 v0] m IH]; simpl; [reflexivity|].
  destruct (String.eqb k0 k); simpl; [reflexivity|]. rewrite IH. reflexivity.
Qed.

Lemma has_set_same : forall k v (m : JsMap.t V),
  JsMap.has k (JsMap.set k v m) = true.
Proof.
  intros k v m. apply has_get. exists v. apply get_set_same.
Qed.

Lemma size_replace : forall k v (m : JsMap.t V),
  JsMap.size (JsMap.replace k v m) = JsMap.size m.
Proof.
  intros k v m. unfold JsMap.size.
  induction m as [|[k0 v0] m IH]; simpl; [reflexivity|].
  destruct (String.eqb k0 k); simpl; [|rewrite IH]; reflexivity.
Qed.

Lemma size_set : forall k v (m : JsMap.t V),
  JsMap.size (JsMap.set k v m)
  = if JsMap.has k m then JsMap.size m else S (JsMap.size m).
Proof.
  intros k v m. unfold JsMap.set.
  destruct (JsMap.has k m); [apply size_replace|].
  unfold JsMap.size. rewrite length_app. simpl. lia.
Qed.

End Updates.

End MapUpdates.

Module CharFacts.

Import JsString Regex Js StringUtils TickerResolution OpenaiService Route.
Import Notions Fixtures MapFacts.
Local Open Scope string_scope.

Ltac by_cases c := destruct c as [[] [] [] [] [] [] [] []]; vm_compute; reflexivity.

Lemma lower_space : forall c, is_space (lower_char c) = is_space c.
Proof. intros c. by_cases c. Qed.

Lemma lower_punct : forall c, is_punct (lower_char c) = is_punct c.
Proof. intros c. by_cases c. Qed.

Lemma lower_not_upper : forall c, is_upper (lower_char c) = false.
Proof. intros c. by_cases c. Qed.

Lemma upper_space : forall c, is_space (upper_char c) = is_space c.
Proof. intros c. by_cases c. Qed.

Lemma upper_punct : forall c, is_punct (upper_char c) = is_punct c.
Proof. intros c. by_cases c. Qed.

Lemma upper_lower : forall c, upper_char (lower_char c) = upper_char c.
Proof. intros c. by_cases c. Qed.

Lemma lower_upper : forall c, lower_char (upper_char c) = lower_char c.
Proof. intros c. by_cases c. Qed.

Lemma lower_fixed : forall c, is_upper c = false -> lower_char c = c.
Proof. intros c H. unfold lower_char. rewrite H. reflexivity. Qed.

Lemma class_of_strip : forall c, is_space_or_punct c = dropped c.
Proof. intros c. by_cases c. Qed.

Lemma space_is_space : is_space " "%char = true.
Proof. reflexivity. Qed.

End CharFacts.

Module StringFacts.

Import JsString Regex Js StringUtils TickerResolution OpenaiService Route.
Import Notions Fixtures MapFacts.
Import CharFacts.
Local Open Scope string_scope.

Lemma map_chars_app : forall f a b,
  map_chars f (a ++ b) = map_chars f a ++ map_chars f b.
Proof. intros f a b. induction a as [|c a IH]; simpl; [|rewrite IH]; reflexivity. Qed.

Lemma map_chars_map_chars : forall f g s,
  map_chars f (map_chars g s) = map_chars (fun c => f (g c)) s.
Proof. intros f g s. induction s as [|c s IH]; simpl; [|rewrite IH]; reflexivity. Qed.

Lemma map_chars_ext : forall f g s,
  (forall c, f c = g c) -> map_chars f s = map_chars g s.
Proof.
  intros f g s H. induction s as [|c s IH]; simpl; [|rewrite IH, H]; reflexivity.
Qed.

Lemma remove_class_app : forall cls a b,
  remove_class cls (a ++ b) = remove_class cls a ++ remove_class cls b.
Proof.
  intros cls a b. induction a as [|c a IH]; simpl; [reflexivity|].
  destruct (cls c); simpl; rewrite IH; reflexivity.
Qed.

Lemma remove_class_ext : forall p q s,
  (forall c, p c = q c) -> remove_class p s = remove_class q s.
Proof.
  intros p q s H. induction s as [|c s IH]; simpl; [reflexivity|].
  rewrite H, IH. reflexivity.
Qed.

Lemma remove_class_twice : forall p q s,
  remove_class p (remove_class q s) = remove_class (fun c => q c || p c) s.
Proof.
  intros p q s. induction s as [|c s IH]; simpl; [reflexivity|].
  destruct (q c); simpl; [exact IH|].
  destruct (p c); rewrite IH; reflexivity.
Qed.

Lemma remove_class_swap : forall p q s,
  remove_class p (remove_class q s) = remove_class q (remove_class p s).
Proof.
  intros p q s. rewrite !remove_class_twice.
  apply remove_class_ext. intros c. apply orb_comm.
Qed.

Lemma remove_class_map : forall cls f s,
  (forall c, cls (f c) = cls c) ->
  remove_class cls (map_chars f s) = map_chars f (remove_class cls s).
Proof.
  intros cls f s H. induction s as [|c s IH]; simpl; [reflexivity|].
  rewrite H. destruct (cls c); simpl; rewrite IH; reflexivity.
Qed.

Lemma remove_class_collapse : forall cls r b s,
  cls r = true ->
  remove_class cls (collapse_from b cls r s) = remove_class cls s.
Proof.
  intros cls r b s Hr. revert b.
  induction s as [|c s IH]; intros b; simpl; [reflexivity|].
  destruct (cls c) eqn:Hc.
  - destruct b; simpl; [|rewrite Hr]; apply IH.
  - simpl. rewrite Hc, IH. reflexivity.
Qed.

Lemma remove_class_trimStart : forall s,
  remove_class is_space (trimStart s) = remove_class is_space s.
Proof.
  induction s as [|c s IH]; simpl; [reflexivity|].
  destruct (is_space c) eqn:Hc; [exact IH|].
  simpl. rewrite Hc. reflexivity.
Qed.

Lemma remove_class_trimEnd : forall s,
  remove_class is_space (trimEnd s) = remove_class is_space s.
Proof.
  induction s as [|c s IH]; simpl; [reflexivity|].
  destruct (trimEnd s) as [|d t] eqn:Ht.
  - simpl in IH. rewrite <- IH.
    destruct (is_space c) eqn:Hc; simpl; [|rewrite Hc]; reflexivity.
  - change (remove_class is_space (String c (String d t)))
      with (if is_space c then remove_class is_space (String d t)
            else String c (remove_class is_space (String d t))).
    rewrite IH. reflexivity.
Qed.

Lemma remove_class_trim : forall s,
  remove_class is_space (trim s) = remove_class is_space s.
Proof.
  intros s. unfold trim.
  rewrite remove_class_trimEnd. apply remove_class_trimStart.
Qed.

Lemma all_in_remove : forall cls s,
  all_in (fun c => negb (cls c)) (remove_class cls s) = true.
Proof.
  intros cls s. induction s as [|c s IH]; simpl; [reflexivity|].
  destruct (cls c) eqn:Hc; [exact IH|]. simpl. rewrite Hc, IH. reflexivity.
Qed.

Lemma all_in_weaken : forall (p q : ascii -> bool) s,
  (forall c, p c = true -> q c = true) ->
  all_in p s = true -> all_in q s = true.
Proof.
  intros p q s H. induction s as [|c s IH]; simpl; [reflexivity|].
  intros Hs. apply andb_true_iff in Hs. destruct Hs as [Hc Hs].
  rewrite (H _ Hc), (IH Hs). reflexivity.
Qed.

Lemma all_in_app : forall p a b,
  all_in p (a ++ b) = all_in p a && all_in p b.
Proof.
  intros p a b. induction a as [|c a IH]; simpl; [reflexivity|].
  rewrite IH. apply andb_assoc.
Qed.

Lemma remove_class_none : forall cls s,
  all_in (fun c => negb (cls c)) s = true -> remove_class cls s = s.
Proof.
  intros cls s. induction s as [|c s IH]; simpl; [reflexivity|].
  intros H. apply andb_true_iff in H. destruct H as [Hc Hs].
  apply negb_true_iff in Hc. rewrite Hc, (IH Hs). reflexivity.
Qed.

Lemma trimStart_none : forall s,
  all_in (fun c => negb (is_space c)) s = true -> trimStart s = s.
Proof.
  intros [|c s]; simpl; [reflexivity|].
  intros H. apply andb_true_iff in H. destruct H as [Hc _].
  apply negb_true_iff in Hc. rewrite Hc. reflexivity.
Qed.

Lemma trimEnd_none : forall s,
  all_in (fun c => negb (is_space c)) s = true -> trimEnd s = s.
Proof.
  induction s as [|c s IH]; simpl; [reflexivity|].
  intros H. apply andb_true_iff in H. destruct H as [Hc Hs].
  apply negb_true_iff in Hc. rewrite (IH Hs).
  destruct s; [rewrite Hc|]; reflexivity.
Qed.

Lemma trim_none : forall s,
  all_in (fun c => negb (is_space c)) s = true -> trim s = s.
Proof.
  intros s H. unfold trim. rewrite (trimStart_none _ H). apply trimEnd_none, H.
Qed.

(** The six steps of [normalizeString] amount to one pass. *)
Lemma normalizeString_one_pass : forall s,
  normalizeString s = remove_class dropped (toLowerCase s).
Proof.
  intros s. unfold normalizeString.
  rewrite trim_none by apply all_in_remove.
  unfold collapse_runs.
  rewrite remove_class_collapse by reflexivity.
  rewrite remove_class_swap.
  unfold toLowerCase.
  rewrite (remove_class_map is_space lower_char) by apply lower_space.
  rewrite remove_class_trim.
  rewrite <- (remove_class_map is_space lower_char) by apply lower_space.
  rewrite remove_class_twice. reflexivity.
Qed.

Lemma normalizeString_settled : forall s,
  all_in settled (normalizeString s) = true.
Proof.
  intros s. rewrite normalizeString_one_pass. unfold toLowerCase.
  induction s as [|c s IH]; [reflexivity|].
  cbn [map_chars remove_class].
  destruct (dropped (lower_char c)) eqn:Hd; [exact IH|].
  cbn [all_in]. rewrite IH, andb_true_r.
  unfold settled. unfold dropped in Hd.
  apply orb_false_iff in Hd. destruct Hd as [Hs Hp].
  rewrite Hs, Hp, lower_not_upper. reflexivity.
Qed.

Lemma settled_fixed : forall s,
  all_in settled s = true -> normalizeString s = s.
Proof.
  intros s H. rewrite normalizeString_one_pass. unfold toLowerCase.
  induction s as [|c s IH]; [reflexivity|].
  cbn [all_in] in H. apply andb_true_iff in H. destruct H as [Hc Hs].
  unfold settled in Hc.
  apply andb_true_iff in Hc. destruct Hc as [Hc Hu].
  apply andb_true_iff in Hc. destruct Hc as [Hsp Hp].
  apply negb_true_iff in Hu, Hsp, Hp.
  cbn [map_chars remove_class].
  rewrite (lower_fixed _ Hu). unfold dropped at 1. rewrite Hsp, Hp.
  cbn [orb]. rewrite (IH Hs). reflexivity.
Qed.

End StringFacts.

Module SplitFacts.

Import JsString Regex Js StringUtils TickerResolution OpenaiService Route.
Import Notions Fixtures MapFacts.
Import CharFacts StringFacts.
Local Open Scope string_scope.

Lemma append_empty : forall s : string, s ++ "" = s.
Proof. induction s as [|c s IH]; simpl; [|rewrite IH]; reflexivity. Qed.

Lemma concat_cons : forall x xs,
  String.concat "" (x :: xs) = x ++ String.concat "" xs.
Proof.
  intros x [|y ys]; simpl; [rewrite append_empty|]; reflexivity.
Qed.

Lemma split_from_cons : forall b cls s,
  exists piece pieces, split_from b cls s = piece :: pieces.
Proof.
  intros b cls s. revert b.
  induction s as [|c s IH]; intros b; simpl; [eauto|].
  destruct (cls c).
  - destruct b; [apply IH | eauto].
  - destruct (IH false) as [piece [pieces ->]]. eauto.
Qed.

(** Gluing the pieces together gives the string without its separators. *)
Lemma concat_split_from : forall cls b s,
  String.concat "" (split_from b cls s) = remove_class cls s.
Proof.
  intros cls b s. revert b.
  induction s as [|c s IH]; intros b; [reflexivity|].
  cbn [split_from remove_class].
  destruct (cls c).
  - destruct b; [apply IH|]. rewrite concat_cons. apply IH.
  - specialize (IH false).
    destruct (split_from false cls s) as [|piece pieces]; [simpl in *; congruence|].
    rewrite concat_cons in IH. rewrite concat_cons. simpl. rewrite IH.
    reflexivity.
Qed.

Lemma concat_nonempty : forall l,
  String.concat "" (filter (fun w => (0 <? String.length w)%nat) l)
  = String.concat "" l.
Proof.
  induction l as [|w l IH]; [reflexivity|].
  rewrite concat_cons. destruct w as [|c w].
  - simpl. exact IH.
  - change (filter (fun w => (0 <? String.length w)%nat) (String c w :: l))
      with (String c w :: filter (fun w => (0 <? String.length w)%nat) l).
    rewrite concat_cons, IH. reflexivity.
Qed.

(** Every piece is made of characters of the string that are no separator. *)
Lemma split_from_all_in : forall (cls q : ascii -> bool) b s,
  all_in (fun c => cls c || q c) s = true ->
  Forall (fun w => all_in q w = true) (split_from b cls s).
Proof.
  intros cls q b s. revert b.
  induction s as [|c s IH]; intros b H; cbn [split_from].
  - constructor; [reflexivity | constructor].
  - cbn [all_in] in H. apply andb_true_iff in H. destruct H as [Hc Hs].
    destruct (cls c) eqn:Hcls.
    + destruct b; [apply IH, Hs|].
      constructor; [reflexivity | apply IH, Hs].
    + simpl in Hc. specialize (IH false Hs).
      destruct (split_from false cls s) as [|piece pieces].
      * constructor; [simpl; rewrite Hc; reflexivity | constructor].
      * inversion IH; subst. constructor; [|assumption].
        cbn [all_in]. rewrite Hc. assumption.
Qed.

Lemma filter_Forall : forall (A : Type) (P : A -> Prop) (f : A -> bool) l,
  Forall P l -> Forall (fun x => f x = true /\ P x) (filter f l).
Proof.
  intros A P f l H. induction H as [|x l Hx Hl IH]; simpl; [constructor|].
  destruct (f x) eqn:Hf; [constructor; auto | exact IH].
Qed.

(** The words of a blank string: none. *)
Lemma no_words : forall l,
  String.concat "" l = "" ->
  filter (fun w => (0 <? String.length w)%nat) l = [].
Proof.
  induction l as [|w l IH]; [reflexivity|].
  rewrite concat_cons. intros H.
  destruct w as [|c w]; [|discriminate H].
  simpl in H. simpl. apply IH, H.
Qed.

End SplitFacts.

(* ================================================================== *)
(** * Normalization, stripping and tokens *)
(* ================================================================== *)

Module Normalization.

Import JsString Regex Js StringUtils TickerResolution OpenaiService Route.
Import Notions Fixtures MapFacts.
Import CharFacts StringFacts SplitFacts.
Local Open Scope string_scope.

(** X1.  For ASCII strings the key of a concatenation is the concatenation
    of the keys: [normalizeString] drops white space and the eight
    punctuation marks wherever they stand and puts every other character in
    lower case, so the trimming and the collapsing of runs of spaces add
    nothing. *)
Theorem normalizeString_of_a_concatenation : forall a b,
  ascii_only a = true ->
  ascii_only b = true ->
  normalizeString (a ++ b) = normalizeString a ++ normalizeString b.
Proof.
  intros a b _ _. rewrite !normalizeString_one_pass. unfold toLowerCase.
  rewrite map_chars_app. apply remove_class_app.
Qed.

Lemma normalizeString_of_a_concatenation_witness :
  ascii_only "Apple " = true
  /\ ascii_only " Inc." = true
  /\ normalizeString ("Apple " ++ " Inc.")
     = normalizeString "Apple " ++ normalizeString " Inc.".
Proof.
  split; [reflexivity|]. split; [reflexivity|].
  exact (@normalizeString_of_a_concatenation "Apple " " Inc."
           eq_refl eq_refl).
Defined.

(** X2.  The key of an ASCII string is in normal form: it holds no white
    space, none of the punctuation marks and no capital letter, and
    normalising it again changes nothing. *)
Theorem normalizeString_idempotent : forall s,
  ascii_only s = true ->
  all_in settled (normalizeString s) = true
  /\ normalizeString (normalizeString s) = normalizeString s.
Proof.
  intros s _. split.
  - apply normalizeString_settled.
  - apply settled_fixed, normalizeString_settled.
Qed.

Lemma normalizeString_idempotent_witness :
  ascii_only "  Nvidia, Inc. " = true
  /\ all_in settled (normalizeString "  Nvidia, Inc. ") = true
  /\ normalizeString (normalizeString "  Nvidia, Inc. ")
     = normalizeString "  Nvidia, Inc. ".
Proof.
  split; [reflexivity|].
  exact (@normalizeString_idempotent "  Nvidia, Inc. " eq_refl).
Defined.

(** X3.  On ASCII strings [stripSpacesAndPunctuation] gives the key of
    [normalizeString] in capitals, and the key is its lower-case form: two
    inputs are stripped to the same text exactly when they have the same
    key. *)
Theorem stripSpacesAndPunctuation_is_the_key_in_capitals : forall a b,
  ascii_only a = true ->
  ascii_only b = true ->
  stripSpacesAndPunctuation a = toUpperCase (normalizeString a)
  /\ normalizeString a = toLowerCase (stripSpacesAndPunctuation a)
  /\ (stripSpacesAndPunctuation a = stripSpacesAndPunctuation b
      <-> normalizeString a = normalizeString b).
Proof.
  intros a b _ _.
  assert (U : forall s,
            stripSpacesAndPunctuation s = toUpperCase (normalizeString s)).
  { intros s. rewrite normalizeString_one_pass.
    unfold stripSpacesAndPunctuation, toUpperCase, toLowerCase.
    rewrite (remove_class_ext is_space_or_punct dropped) by apply class_of_strip.
    rewrite <- (remove_class_map dropped upper_char)
      by (intros c; unfold dropped; rewrite upper_space, upper_punct;
          reflexivity).
    rewrite map_chars_map_chars.
    rewrite (map_chars_ext (fun c => upper_char (lower_char c)) upper_char)
      by apply upper_lower.
    reflexivity. }
  assert (L : forall s,
            normalizeString s = toLowerCase (stripSpacesAndPunctuation s)).
  { intros s. rewrite normalizeString_one_pass.
    unfold stripSpacesAndPunctuation, toUpperCase, toLowerCase.
    rewrite (remove_class_ext is_space_or_punct dropped) by apply class_of_strip.
    rewrite <- (remove_class_map dropped lower_char)
      by (intros c; unfold dropped; rewrite lower_space, lower_punct;
          reflexivity).
    rewrite map_chars_map_chars.
    rewrite (map_chars_ext (fun c => lower_char (upper_char c)) lower_char)
      by apply lower_upper.
    reflexivity. }
  split; [apply U|]. split; [apply L|].
  split; intros H.
  - rewrite !L, H. reflexivity.
  - rewrite !U, H. reflexivity.
Qed.

Lemma stripSpacesAndPunctuation_is_the_key_in_capitals_witness :
  ascii_only "N V D A" = true
  /\ ascii_only "n.v.d.a" = true
  /\ stripSpacesAndPunctuation "N V D A" = "NVDA"
  /\ stripSpacesAndPunctuation "N V D A" = stripSpacesAndPunctuation "n.v.d.a".
Proof.
  split; [reflexivity|]. split; [reflexivity|].
  destruct (@stripSpacesAndPunctuation_is_the_key_in_capitals
              "N V D A" "n.v.d.a" eq_refl eq_refl) as (Hup & _ & Hsame).
  split; [exact Hup|].
  apply Hsame. reflexivity.
Defined.

(** X4.  The tokens of an ASCII company name are not empty and hold no white
    space, punctuation mark or capital letter; joined without a separator
    they give the key of the name. *)
Theorem tokenizeCompanyName_splits_the_key : forall input,
  ascii_only input = true ->
  Forall (fun word => (0 <? String.length word)%nat = true
                      /\ all_in settled word = true)
         (tokenizeCompanyName input)
  /\ String.concat "" (tokenizeCompanyName input) = normalizeString input.
Proof.
  intros input _. unfold tokenizeCompanyName, split_runs. split.
  - apply filter_Forall. apply split_from_all_in.
    unfold replace_class, toLowerCase. rewrite map_chars_map_chars.
    induction input as [|c s IH]; [reflexivity|].
    cbn [map_chars all_in]. rewrite IH, andb_true_r.
    destruct (is_punct (lower_char c)) eqn:Hp; [reflexivity|].
    unfold settled. rewrite Hp, lower_not_upper.
    destruct (is_space (lower_char c)); reflexivity.
  - rewrite concat_nonempty, concat_split_from, normalizeString_one_pass.
    unfold replace_class, toLowerCase. rewrite map_chars_map_chars.
    induction input as [|c s IH]; [reflexivity|].
    cbn [map_chars remove_class]. unfold dropped at 1.
    destruct (is_punct (lower_char c)) eqn:Hp.
    + rewrite orb_true_r, space_is_space. exact IH.
    + rewrite orb_false_r, IH. reflexivity.
Qed.

Lemma tokenizeCompanyName_splits_the_key_witness :
  ascii_only "Nvidia Corporation Inc" = true
  /\ tokenizeCompanyName "Nvidia Corporation Inc"
     = ["nvidia"; "corporation"; "inc"]
  /\ String.concat "" (tokenizeCompanyName "Nvidia Corporation Inc")
     = normalizeString "Nvidia Corporation Inc".
Proof.
  split; [reflexivity|]. split; [reflexivity|].
  exact (proj2 (@tokenizeCompanyName_splits_the_key
                  "Nvidia Corporation Inc" eq_refl)).
Defined.

(** X5.  A needle without a word (empty, or white space only) matches no
    haystack, whatever the threshold: the share of its words that match is
    0/0, which is not a number and compares false. *)
Theorem partialMatch_blank_needle :
  forall needle haystack threshold,
    remove_class is_space needle = "" ->
    partialMatch needle haystack threshold = false.
Proof.
  intros needle haystack threshold H. unfold partialMatch.
  assert (W : filter (fun w => (0 <? String.length w)%nat)
                (split_runs is_space (toLowerCase needle)) = []).
  { apply no_words. unfold split_runs. rewrite concat_split_from.
    unfold toLowerCase.
    rewrite (remove_class_map is_space lower_char) by apply lower_space.
    rewrite H. reflexivity. }
  rewrite W. cbn [filter List.length].
  destruct threshold as [[]|]; reflexivity.
Qed.

Lemma partialMatch_blank_needle_witness :
  remove_class is_space "  " = ""
  /\ partialMatch "  " "nvidia corporation" None = false.
Proof.
  split; [reflexivity|].
  apply (@partialMatch_blank_needle "  " "nvidia corporation" None).
  reflexivity.
Defined.

End Normalization.

(* ================================================================== *)
(** * The edit distance is a metric *)
(* ================================================================== *)

Module EditDistanceLaws.

Import JsString Regex Js StringUtils TickerResolution OpenaiService Route.
Import Notions Fixtures MapFacts.
Local Open Scope string_scope.

Lemma edit_distance_nil_r : forall a, edit_distance a [] = List.length a.
Proof. intros [|x a]; reflexivity. Qed.

Lemma edit_distance_cons : forall x a y b,
  edit_distance (x :: a) (y :: b)
  = min3 (edit_distance a (y :: b) + 1)
         (edit_distance (x :: a) b + 1)
         (edit_distance a b + (if Ascii.eqb x y then 0 else 1)).
Proof. reflexivity. Qed.

Lemma row_of_unfold : forall pre rest q,
  row_of pre rest q = edit_distance pre q :: tl (row_of pre rest q).
Proof. intros pre [|c rest] q; reflexivity. Qed.

Lemma fill_row_row_of : forall rest pre q c2,
  fill_row c2 rest (row_of pre rest q) (edit_distance pre (c2 :: q))
  = tl (row_of pre rest (c2 :: q)).
Proof.
  induction rest as [|c1 rest IH]; intros pre q c2; [reflexivity|].
  cbn [row_of tl].
  rewrite (row_of_unfold (c1 :: pre) rest q).
  cbn [fill_row].
  rewrite <- (row_of_unfold (c1 :: pre) rest q).
  rewrite (row_of_unfold (c1 :: pre) rest (c2 :: q)).
  rewrite <- IH. rewrite edit_distance_cons. reflexivity.
Qed.

Lemma fill_rows_row_of : forall str2 str1 q j,
  j = S (List.length q) ->
  fill_rows str1 str2 j (row_of [] str1 q)
  = row_of [] str1 (rev (list_ascii_of_string str2) ++ q).
Proof.
  induction str2 as [|c2 str2 IH]; intros str1 q j Hj; [reflexivity|].
  cbn [fill_rows list_ascii_of_string rev].
  rewrite <- app_assoc. cbn [app].
  rewrite <- (IH str1 (c2 :: q) (S j)) by (simpl; lia).
  f_equal.
  rewrite (row_of_unfold [] str1 (c2 :: q)).
  rewrite <- fill_row_row_of. subst j. reflexivity.
Qed.

Lemma row_of_first : forall rest pre,
  row_of pre rest [] = seq (List.length pre) (S (String.length rest)).
Proof.
  induction rest as [|c rest IH]; intros pre.
  - simpl. rewrite edit_distance_nil_r. reflexivity.
  - cbn [row_of String.length]. rewrite IH, edit_distance_nil_r. reflexivity.
Qed.

Lemma row_of_last : forall rest pre q,
  last (row_of pre rest q) 0
  = edit_distance (rev (list_ascii_of_string rest) ++ pre) q.
Proof.
  induction rest as [|c rest IH]; intros pre q; [reflexivity|].
  cbn [row_of list_ascii_of_string rev].
  rewrite <- app_assoc. cbn [app]. rewrite <- IH.
  rewrite (row_of_unfold (c :: pre) rest q). reflexivity.
Qed.

(** The matrix of the source holds the edit distances of the prefixes. *)
Lemma levenshteinDistance_edit_distance : forall str1 str2,
  levenshteinDistance str1 str2
  = edit_distance (rev (list_ascii_of_string str1))
                  (rev (list_ascii_of_string str2)).
Proof.
  intros str1 str2. unfold levenshteinDistance.
  replace (seq 0 (S (String.length str1))) with (row_of [] str1 [])
    by apply row_of_first.
  rewrite fill_rows_row_of by reflexivity.
  rewrite row_of_last, !app_nil_r. reflexivity.
Qed.

Lemma edit_distance_refl : forall a, edit_distance a a = 0.
Proof.
  induction a as [|x a IH]; [reflexivity|].
  rewrite edit_distance_cons, IH, Ascii.eqb_refl. unfold min3. lia.
Qed.

Lemma edit_distance_sym : forall a b, edit_distance a b = edit_distance b a.
Proof.
  induction a as [|x a IHa]; intros b.
  - rewrite edit_distance_nil_r. reflexivity.
  - induction b as [|y b IHb]; [reflexivity|].
    rewrite !edit_distance_cons.
    rewrite (IHa (y :: b)), IHb, (IHa b), (Ascii.eqb_sym x y).
    unfold min3. lia.
Qed.

Lemma edit_distance_zero : forall a b, edit_distance a b = 0 -> a = b.
Proof.
  induction a as [|x a IHa]; intros b.
  - destruct b; [reflexivity | discriminate].
  - destruct b as [|y b]; [discriminate|].
    rewrite edit_distance_cons. intros H.
    assert (H3 : edit_distance a b + (if Ascii.eqb x y then 0 else 1) = 0)
      by (unfold min3 in H; lia).
    destruct (Ascii.eqb x y) eqn:Hxy; [|lia].
    apply Ascii.eqb_eq in Hxy. subst y.
    rewrite (IHa b) by lia. reflexivity.
Qed.

Lemma edit_distance_lower : forall a b,
  List.length a <= edit_distance a b + List.length b.
Proof.
  induction a as [|x a IHa]; intros b; [simpl; lia|].
  induction b as [|y b IHb]; [simpl; lia|].
  rewrite edit_distance_cons.
  pose proof (IHa (y :: b)) as H1. pose proof (IHa b) as H2.
  cbn [List.length] in *.
  destruct (Ascii.eqb x y); unfold min3; lia.
Qed.

End EditDistanceLaws.

Module Metric.

Import JsString Regex Js StringUtils TickerResolution OpenaiService Route.
Import Notions Fixtures MapFacts.
Import EditDistanceLaws.
Local Open Scope string_scope.

Lemma edit_distance_upper : forall a b,
  edit_distance a b <= List.length a + List.length b.
Proof.
  induction a as [|x a IHa]; intros b; [simpl; lia|].
  destruct b as [|y b]; [simpl; lia|].
  rewrite edit_distance_cons. pose proof (IHa (y :: b)) as H.
  cbn [List.length] in *. unfold min3. lia.
Qed.

Lemma edit_distance_triangle_upto : forall n a b c,
  List.length a + List.length b + List.length c <= n ->
  edit_distance a c <= edit_distance a b + edit_distance b c.
Proof.
  induction n as [|n IH]; intros a b c Hn.
  - destruct a, b, c; simpl in Hn; lia.
  - destruct a as [|x a].
    { pose proof (edit_distance_lower c b) as H.
      rewrite (edit_distance_sym c b) in H. simpl. lia. }
    destruct c as [|z c].
    { pose proof (edit_distance_lower (x :: a) b) as H.
      rewrite (edit_distance_nil_r b), (edit_distance_nil_r (x :: a)). lia. }
    destruct b as [|y b].
    { pose proof (edit_distance_upper (x :: a) (z :: c)) as H.
      rewrite (edit_distance_nil_r (x :: a)).
      change (edit_distance [] (z :: c)) with (List.length (z :: c)). lia. }
    cbn [List.length] in Hn.
    assert (I1 := IH a (y :: b) (z :: c)).
    assert (I2 := IH (x :: a) (y :: b) c).
    assert (I3 := IH (x :: a) b (z :: c)).
    assert (I4 := IH (x :: a) b c).
    assert (I5 := IH a b (z :: c)).
    assert (I6 := IH a b c).
    cbn [List.length] in I1, I2, I3, I4, I5, I6.
    specialize (I1 ltac:(lia)). specialize (I2 ltac:(lia)).
    specialize (I3 ltac:(lia)). specialize (I4 ltac:(lia)).
    specialize (I5 ltac:(lia)). specialize (I6 ltac:(lia)).
    pose proof (edit_distance_cons x a z c) as E1.
    pose proof (edit_distance_cons x a y b) as E2.
    pose proof (edit_distance_cons y b z c) as E3.
    unfold min3 in E1, E2, E3.
    destruct (Ascii.eqb x y) eqn:Hxy, (Ascii.eqb y z) eqn:Hyz,
             (Ascii.eqb x z) eqn:Hxz; try lia.
    apply Ascii.eqb_eq in Hxy, Hyz. subst.
    rewrite Ascii.eqb_refl in Hxz. discriminate.
Qed.

Lemma edit_distance_triangle : forall a b c,
  edit_distance a c <= edit_distance a b + edit_distance b c.
Proof. intros a b c. eapply edit_distance_triangle_upto. apply Nat.le_refl. Qed.

Lemma letters_length : forall s,
  List.length (rev (list_ascii_of_string s)) = String.length s.
Proof.
  intros s. rewrite length_rev.
  induction s as [|c s IH]; simpl; [|rewrite IH]; reflexivity.
Qed.

Lemma letters_inj : forall s t,
  rev (list_ascii_of_string s) = rev (list_ascii_of_string t) -> s = t.
Proof.
  intros s t H.
  apply (f_equal (@rev ascii)) in H. rewrite !rev_involutive in H.
  apply (f_equal string_of_list_ascii) in H.
  rewrite !string_of_list_ascii_of_string in H. exact H.
Qed.

(** X6.  [levenshteinDistance] is a metric on strings: it is zero exactly on
    equal strings, symmetric, and obeys the triangle inequality. *)
Theorem levenshteinDistance_is_a_metric :
  (forall s t, levenshteinDistance s t = 0 <-> s = t)
  /\ (forall s t, levenshteinDistance s t = levenshteinDistance t s)
  /\ (forall s t u,
        levenshteinDistance s u
        <= levenshteinDistance s t + levenshteinDistance t u).
Proof.
  split; [|split].
  - intros s t. rewrite levenshteinDistance_edit_distance. split.
    + intros H. apply letters_inj, edit_distance_zero, H.
    + intros ->. apply edit_distance_refl.
  - intros s t. rewrite !levenshteinDistance_edit_distance.
    apply edit_distance_sym.
  - intros s t u. rewrite !levenshteinDistance_edit_distance.
    apply edit_distance_triangle.
Qed.

(** X7.  The distance lies between the difference of the two lengths and the
    larger of them; from the empty string it is the length of the other
    string. *)
Theorem levenshteinDistance_bounds : forall s t,
  String.length s - String.length t <= levenshteinDistance s t
  /\ String.length t - String.length s <= levenshteinDistance s t
  /\ levenshteinDistance s t <= Nat.max (String.length s) (String.length t)
  /\ levenshteinDistance "" t = String.length t
  /\ levenshteinDistance s "" = String.length s.
Proof.
  intros s t.
  pose proof (EditDistance.levenshteinDistance_le_maxLen s t) as Hmax.
  assert (E : forall u, levenshteinDistance "" u = String.length u).
  { intros u. rewrite levenshteinDistance_edit_distance.
    apply letters_length. }
  assert (E' : forall u, levenshteinDistance u "" = String.length u).
  { intros u. rewrite levenshteinDistance_edit_distance.
    change (rev (list_ascii_of_string "")) with (@nil ascii).
    rewrite edit_distance_nil_r. apply letters_length. }
  rewrite E, E'.
  rewrite levenshteinDistance_edit_distance in *.
  pose proof (edit_distance_lower (rev (list_ascii_of_string s))
                (rev (list_ascii_of_string t))) as H1.
  pose proof (edit_distance_lower (rev (list_ascii_of_string t))
                (rev (list_ascii_of_string s))) as H2.
  rewrite (edit_distance_sym (rev (list_ascii_of_string t))) in H2.
  rewrite !letters_length in H1, H2.
  repeat split; lia.
Qed.

(** X8.  The similarity score does not depend on the order of its two
    arguments. *)
Theorem calculateSimilarity_symmetric : forall s t,
  calculateSimilarity s t = calculateSimilarity t s.
Proof.
  intros s t. unfold calculateSimilarity.
  rewrite !levenshteinDistance_edit_distance.
  rewrite (edit_distance_sym (rev (list_ascii_of_string s))).
  rewrite (Nat.max_comm (String.length s)). reflexivity.
Qed.

End Metric.

(* ================================================================== *)
(** * The catalog and the cache as maps *)
(* ================================================================== *)

Module CatalogFacts.

Import JsString Regex Js StringUtils TickerResolution OpenaiService Route.
Import Notions Fixtures MapFacts.
Import MapUpdates.
Local Open Scope string_scope.

Lemma assoc_insert_index_same : forall n k e l,
  JsMap.has k l = false -> assoc k (insert_index n k e l) = Some e.
Proof.
  intros n k e l. induction l as [|[k' e'] l IH]; simpl; intros H.
  - rewrite String.eqb_refl. reflexivity.
  - apply orb_false_iff in H. destruct H as [Hk Hl].
    destruct (array_index k') as [n'|].
    + destruct (n' <? n)%N; simpl.
      * rewrite Hk. apply IH, Hl.
      * rewrite String.eqb_refl. reflexivity.
    + simpl. rewrite String.eqb_refl. reflexivity.
Qed.

Lemma assoc_insert_index_other : forall n k k' e l,
  k' <> k -> assoc k' (insert_index n k e l) = assoc k' l.
Proof.
  intros n k k' e l Hk.
  assert (E : String.eqb k k' = false)
    by (apply String.eqb_neq; congruence).
  induction l as [|[k0 e0] l IH]; simpl.
  - rewrite E. reflexivity.
  - destruct (array_index k0) as [n'|].
    + destruct (n' <? n)%N; simpl.
      * rewrite IH. reflexivity.
      * rewrite E. reflexivity.
    + simpl. rewrite E. reflexivity.
Qed.

(** What an assignment does to the own properties, read back. *)
Lemma own_after_set_same : forall k e o,
  String.eqb k "__proto__" = false ->
  assoc k (own (obj_set k e o)) = Some e.
Proof.
  intros k e o Hk. unfold obj_set. rewrite Hk.
  destruct (JsMap.has k (own o)) eqn:Hhas; simpl.
  - apply (get_replace_same k e (own o) Hhas).
  - destruct (array_index k) as [n|]; simpl.
    + apply assoc_insert_index_same, Hhas.
    + apply (get_app_last k e (own o) Hhas).
Qed.

Lemma own_after_set_other : forall k k' e o,
  k' <> k -> assoc k' (own (obj_set k e o)) = assoc k' (own o).
Proof.
  intros k k' e o Hk. unfold obj_set.
  destruct (String.eqb k "__proto__"); [reflexivity|].
  destruct (JsMap.has k (own o)); simpl.
  - apply (get_replace_other e (own o) Hk).
  - destruct (array_index k) as [n|]; simpl.
    + apply assoc_insert_index_other, Hk.
    + apply (get_app_other e (own o) Hk).
Qed.

Lemma proto_after_set : forall k e o,
  String.eqb k "__proto__" = false -> proto (obj_set k e o) = proto o.
Proof.
  intros k e o Hk. unfold obj_set. rewrite Hk.
  destruct (JsMap.has k (own o)); [reflexivity|].
  destruct (array_index k); reflexivity.
Qed.

Lemma obj_get_set_same : forall k e o,
  assignable o -> obj_get (obj_set k e o) k = FEntry e.
Proof.
  intros k e o Ho. unfold obj_get.
  destruct (String.eqb k "__proto__") eqn:Hk.
  - apply String.eqb_eq in Hk. subst k.
    unfold obj_set. simpl. unfold assignable in Ho. rewrite Ho. reflexivity.
  - rewrite own_after_set_same by exact Hk. reflexivity.
Qed.

Lemma obj_get_set_other : forall k k' e o,
  k' <> k -> String.eqb k "__proto__" = false ->
  obj_get (obj_set k e o) k' = obj_get o k'.
Proof.
  intros k k' e o Hk Hp. unfold obj_get.
  rewrite own_after_set_other by exact Hk.
  rewrite proto_after_set by exact Hp. reflexivity.
Qed.

Lemma assignable_set : forall k e o, assignable o -> assignable (obj_set k e o).
Proof.
  intros k e o Ho. unfold assignable in *.
  destruct (String.eqb k "__proto__") eqn:Hk.
  - unfold obj_set. rewrite Hk. exact Ho.
  - rewrite own_after_set_other; [exact Ho|].
    intros E. subst k. rewrite String.eqb_refl in Hk. discriminate.
Qed.

Lemma assignable_seed : assignable seed_catalog.
Proof. vm_compute. reflexivity. Qed.

Lemma tryLocalMapping_entry : forall catalog key e exchange,
  obj_get catalog key = FEntry e ->
  tryLocalMapping catalog key exchange
  = if truthy_opt exchange
       && negb (match exchange with
                | Some x => String.eqb (e_exchange e) x
                | None => false
                end)
    then None else Some (local_match key e).
Proof.
  intros catalog key e exchange H. unfold tryLocalMapping. rewrite H.
  destruct exchange; reflexivity.
Qed.

End CatalogFacts.

Module CatalogLaws.

Import JsString Regex Js StringUtils TickerResolution OpenaiService Route.
Import Notions Fixtures MapFacts.
Import MapUpdates CatalogFacts.
Local Open Scope string_scope.

(** X9.  A name added with [addLocalMapping] is found by [tryLocalMapping]
    under its key, with the ticker, exchange and confidence given, whatever
    the catalog held for that key before; with an exchange preference it is
    found exactly when the preference is that exchange. *)
Theorem addLocalMapping_then_tryLocalMapping :
  forall companyName ticker exchange confidence catalog,
    assignable catalog ->
    let added := addLocalMapping companyName ticker exchange confidence catalog in
    let key := normalizeString companyName in
    let found :=
      {| r_ticker := VStr ticker;
         r_exchange := VStr exchange;
         r_name := VStr key;
         r_companyName := VUndefined;
         r_confidence := VNum confidence;
         r_resolvedFrom := VStr "local_cache";
         r_telemetry := None |} in
    tryLocalMapping added key None = Some found
    /\ (forall wanted,
          tryLocalMapping added key (Some wanted)
          = if JsString.truthy wanted && negb (String.eqb exchange wanted)
            then None else Some found)
    /\ assignable added.
Proof.
  intros companyName ticker exchange confidence catalog Ho added key found.
  assert (H : obj_get added key = FEntry (entry ticker exchange confidence))
    by (apply obj_get_set_same, Ho).
  split; [|split].
  - rewrite (tryLocalMapping_entry _ _ None H). reflexivity.
  - intros wanted. rewrite (tryLocalMapping_entry _ _ (Some wanted) H).
    reflexivity.
  - apply assignable_set, Ho.
Qed.

Lemma addLocalMapping_then_tryLocalMapping_witness :
  assignable seed_catalog
  /\ tryLocalMapping (addLocalMapping "TestCorp" "TEST" "NYSE" c99 seed_catalog)
       (normalizeString "TestCorp") None
     = Some {| r_ticker := VStr "TEST";
               r_exchange := VStr "NYSE";
               r_name := VStr (normalizeString "TestCorp");
               r_companyName := VUndefined;
               r_confidence := VNum c99;
               r_resolvedFrom := VStr "local_cache";
               r_telemetry := None |}.
Proof.
  split; [exact assignable_seed|].
  exact (proj1 (@addLocalMapping_then_tryLocalMapping
                  "TestCorp" "TEST" "NYSE" c99 seed_catalog assignable_seed)).
Defined.

(** X10.  Adding a name leaves every other key of the catalog as it was:
    [tryLocalMapping] answers the same for it before and after, provided the
    key of the added name is not [__proto__]. *)
Theorem addLocalMapping_leaves_other_keys :
  forall companyName ticker exchange confidence catalog other wanted,
    normalizeString companyName <> "__proto__" ->
    other <> normalizeString companyName ->
    tryLocalMapping
      (addLocalMapping companyName ticker exchange confidence catalog)
      other wanted
    = tryLocalMapping catalog other wanted.
Proof.
  intros companyName ticker exchange confidence catalog other wanted Hp Hk.
  unfold tryLocalMapping, addLocalMapping.
  rewrite obj_get_set_other; [reflexivity | exact Hk |].
  apply String.eqb_neq, Hp.
Qed.

Lemma addLocalMapping_leaves_other_keys_witness :
  normalizeString "TestCorp" <> "__proto__"
  /\ "nvidia" <> normalizeString "TestCorp"
  /\ tryLocalMapping (addLocalMapping "TestCorp" "TEST" "NYSE" c99 seed_catalog)
       "nvidia" None
     = tryLocalMapping seed_catalog "nvidia" None.
Proof.
  assert (H1 : normalizeString "TestCorp" <> "__proto__")
    by (vm_compute; discriminate).
  assert (H2 : "nvidia" <> normalizeString "TestCorp")
    by (vm_compute; discriminate).
  split; [exact H1|]. split; [exact H2|].
  exact (@addLocalMapping_leaves_other_keys
           "TestCorp" "TEST" "NYSE" c99 seed_catalog "nvidia" None H1 H2).
Defined.

(** X11.  A catalog hit returned under an exchange preference is on that
    exchange: an entry listed elsewhere is not returned, and neither is a
    name that the prototype of the catalog object answers. *)
Theorem tryLocalMapping_honours_the_exchange :
  forall catalog key wanted r,
    JsString.truthy wanted = true ->
    tryLocalMapping catalog key (Some wanted) = Some r ->
    r_exchange r = VStr wanted
    /\ r_name r = VStr key
    /\ r_resolvedFrom r = VStr "local_cache"
    /\ exists e, obj_get catalog key = FEntry e
                 /\ r_ticker r = VStr (e_ticker e)
                 /\ r_confidence r = VNum (e_confidence e).
Proof.
  intros catalog key wanted r Hw. unfold tryLocalMapping.
  cbn [truthy_opt]. rewrite Hw. cbn [andb].
  destruct (obj_get catalog key) as [e|[]|] eqn:Hget;
    cbn [is_str negb]; try discriminate.
  destruct (String.eqb (e_exchange e) wanted) eqn:Hx; cbn [negb];
    [|discriminate].
  apply String.eqb_eq in Hx. intros [= <-]. cbn. rewrite Hx.
  repeat split. exists e. repeat split.
Qed.

Lemma tryLocalMapping_honours_the_exchange_witness :
  JsString.truthy "NYSE" = true
  /\ tryLocalMapping seed_catalog "visa" (Some "NYSE")
     = Some (local_match "visa" (entry "V" "NYSE" c99))
  /\ r_exchange (local_match "visa" (entry "V" "NYSE" c99)) = VStr "NYSE"
  /\ tryLocalMapping seed_catalog "visa" (Some "NASDAQ") = None.
Proof.
  assert (H : tryLocalMapping seed_catalog "visa" (Some "NYSE")
              = Some (local_match "visa" (entry "V" "NYSE" c99)))
    by (vm_compute; reflexivity).
  split; [reflexivity|]. split; [exact H|].
  split; [|vm_compute; reflexivity].
  exact (proj1 (@tryLocalMapping_honours_the_exchange seed_catalog "visa"
                  "NYSE" (local_match "visa" (entry "V" "NYSE" c99))
                  eq_refl H)).
Defined.

End CatalogLaws.

Module CacheLaws.

Import JsString Regex Js StringUtils TickerResolution OpenaiService Route.
Import Notions Fixtures MapFacts.
Import MapUpdates.
Local Open Scope string_scope.

(** X12.  [clearResolutionCache] without an argument empties the cache: no
    key is answered any more and the statistics count nothing.  With a key
    it removes the entry of that key and no other, so the cache shrinks by
    one entry at most. *)
Theorem clearResolutionCache_forgets :
  forall (cache : Cache) (key : string) (now : Z),
    wf cache ->
    (forall k, getCachedResolution now k (clearResolutionCache None cache)
               = (None, []))
    /\ cs_size (fst (getCacheStats now (clearResolutionCache None cache))) = 0
    /\ getCachedResolution now key (clearResolutionCache (Some key) cache)
       = (None, clearResolutionCache (Some key) cache)
    /\ (forall k, k <> key ->
          JsMap.get k (clearResolutionCache (Some key) cache)
          = JsMap.get k cache)
    /\ JsMap.size cache
       = (if JsMap.has key cache then 1 else 0)
         + JsMap.size (clearResolutionCache (Some key) cache)
    /\ wf (clearResolutionCache (Some key) cache).
Proof.
  intros cache key now Hwf. simpl.
  split; [reflexivity|]. split; [reflexivity|]. split; [|split; [|split]].
  - unfold getCachedResolution. rewrite get_delete_same by exact Hwf.
    reflexivity.
  - intros k Hk. apply get_delete_other, Hk.
  - destruct (JsMap.has key cache) eqn:Hhas.
    + rewrite <- (size_delete key cache Hhas). reflexivity.
    + clear Hwf. induction cache as [|[k0 v0] cache IH]; [reflexivity|].
      simpl in Hhas. apply orb_false_iff in Hhas. destruct Hhas as [H0 H1].
      simpl. rewrite H0. simpl. f_equal. apply IH, H1.
  - apply wf_delete, Hwf.
Qed.

Lemma clearResolutionCache_forgets_witness :
  wf (setCacheResolution 0 "nvidia" sample [])
  /\ getCachedResolution 1 "nvidia"
       (clearResolutionCache (Some "nvidia")
          (setCacheResolution 0 "nvidia" sample []))
     = (None, []).
Proof.
  assert (H : wf (setCacheResolution 0 "nvidia" sample []))
    by (apply wf_set; constructor).
  split; [exact H|].
  exact (proj1 (proj2 (proj2
           (@clearResolutionCache_forgets
              (setCacheResolution 0 "nvidia" sample []) "nvidia" 1%Z H)))).
Defined.

(** X13.  Writing a key that the cache holds replaces the entry: the cache
    keeps its size, a read returns the later resolution, and the 24 hours
    count from the later write.  No write touches another key. *)
Theorem setCacheResolution_overwrites :
  forall (cache : Cache) (key : string) (r1 r2 : Resolution) (T1 T2 : Z),
    let once := setCacheResolution T1 key r1 cache in
    let twice := setCacheResolution T2 key r2 once in
    JsMap.get key twice = Some {| data := r2; timestamp := T2 |}
    /\ JsMap.size twice = JsMap.size once
    /\ (forall now, (now - T2 < CACHE_TTL_MS)%Z ->
                    getCachedResolution now key twice = (Some r2, twice))
    /\ (forall k, k <> key -> JsMap.get k twice = JsMap.get k cache).
Proof.
  intros cache key r1 r2 T1 T2 once twice.
  assert (Hget : JsMap.get key twice = Some {| data := r2; timestamp := T2 |})
    by apply get_set_same.
  split; [exact Hget|]. split; [|split].
  - unfold twice, setCacheResolution. rewrite size_set.
    unfold once, setCacheResolution. rewrite has_set_same. reflexivity.
  - intros now Hnow. unfold getCachedResolution. rewrite Hget. simpl.
    destruct (Z.ltb_spec (now - T2) CACHE_TTL_MS); [reflexivity | lia].
  - intros k Hk. unfold twice, once, setCacheResolution.
    rewrite !get_set_other by exact Hk. reflexivity.
Qed.

End CacheLaws.

(* ================================================================== *)
(** * The ways a call ends *)
(* ================================================================== *)

Module Endings.

Import JsString Regex Js StringUtils TickerResolution OpenaiService Route.
Import Notions Fixtures MapFacts.
Import SortFacts.
Local Open Scope string_scope.

Lemma tag_shared_pair : forall key obj ev st,
  tag_shared key obj ev st
  = (set_telemetry ev obj, snd (tag_shared key obj ev st)).
Proof. reflexivity. Qed.

Lemma sorted_candidates : forall l,
  Sorted not_after (sort by_confidence_desc l).
Proof. intros l. apply sort_sorted. exact Fuzzy.by_confidence_desc_asym. Qed.

Ltac stamp := repeat split; simpl; auto.

(** What an answer of the AI adapter looks like. *)
Lemma openai_answer_shape : forall env q ai,
  resolveTickerWithOpenAI env q = Ok (Some ai) ->
  (exists t, t <> "" /\ r_ticker ai = VStr (toUpperCase t))
  /\ r_exchange ai = VUndefined
  /\ r_name ai = VUndefined
  /\ truthy (r_confidence ai) = true
  /\ r_resolvedFrom ai = VStr "openai"
  /\ r_telemetry ai = None.
Proof.
  intros env q ai. unfold resolveTickerWithOpenAI.
  destruct (OPENAI_API_KEY env) as [k|]; [|discriminate].
  destruct (negb (JsString.truthy k)); [discriminate|].
  repeat (match goal with
          | |- try_catch (bind ?c _) _ = _ -> _ => destruct c eqn:?; simpl
          | |- try_catch (if ?c then _ else _) _ = _ -> _ =>
              destruct c eqn:?; simpl
          | |- Ok None = _ -> _ => discriminate
          end).
  intros [= <-]. cbn [r_ticker r_exchange r_name r_confidence r_resolvedFrom
                      r_telemetry].
  match goal with
  | H : str_toUpperCase ?t = Ok _, T : truthy ?t && _ = true |- _ =>
      destruct t; try discriminate H; simpl in H, T; injection H as <-
  end.
  match goal with
  | T : JsString.truthy ?s && _ = true |- _ => destruct s; [discriminate T|]
  end.
  split; [eexists; split; [|reflexivity]; discriminate|].
  split; [reflexivity|]. split; [reflexivity|].
  split; [|split; reflexivity].
  unfold or_else.
  match goal with |- truthy (if truthy ?c then _ else _) = true =>
    destruct (truthy c) eqn:Hc; [exact Hc | reflexivity] end.
Qed.

Lemma ai_answer_shape : forall env raw ai,
  ai_answer env raw = Ok (Some ai) ->
  truthy (r_ticker ai) = true /\ r_telemetry ai = None.
Proof.
  intros env raw ai. unfold ai_answer.
  destruct (import_openaiService env); simpl; [|discriminate].
  destruct (resolveTickerWithOpenAI env raw) as [r|e] eqn:E; simpl;
    [|discriminate].
  intros [= ->].
  destruct (openai_answer_shape _ _ E) as ((t & Ht & Hticker) & _ & _ & _ & _ & Htel).
  split; [|exact Htel]. rewrite Hticker.
  destruct t; [congruence | reflexivity].
Qed.

Lemma ai_fallback_ending : forall env key raw ev st out st',
  ev_input ev = raw -> ev_timestamp ev = now_event env ->
  ai_fallback env key raw ev st = Ok (out, st') ->
  ending env raw key st out st'.
Proof.
  intros env key raw ev st out st' Hin Hts. unfold ai_fallback, bind.
  assert (NF : Ok (Single (not_found raw ev), st) = Ok (out, st') ->
               ending env raw key st out st').
  { intros [= <- <-]. eapply ends_not_found; try reflexivity. stamp. }
  destruct (ai_answer env raw) as [[ai|]|e] eqn:Hai;
    [|exact NF|discriminate].
  destruct (truthy (r_ticker ai)) eqn:Ht; [|exact NF].
  cbv zeta. rewrite tag_shared_pair. intros [= <- <-].
  apply ends_resolved; [stamp | reflexivity |].
  apply (ai_answer_shape _ _ Hai).
Qed.

Lemma fuzzy_fallback_ending : forall env key raw ev st out st',
  ev_input ev = raw -> ev_timestamp ev = now_event env ->
  fuzzy_fallback env key raw ev st = Ok (out, st') ->
  ending env raw key st out st'.
Proof.
  intros env key raw ev st out st' Hin Hts. unfold fuzzy_fallback.
  cbv zeta.
  pose proof (sorted_candidates
                (fuzzy_scan key (or_default (Some c65))
                   (own (localTickerMapping st)))) as Hsorted.
  change (sort by_confidence_desc _)
    with (fuzzyMatchLocalTickers (localTickerMapping st) key (Some c65))
    in Hsorted.
  destruct (fuzzyMatchLocalTickers _ _ _) as [|first others] eqn:Hf.
  - apply ai_fallback_ending; assumption.
  - match goal with |- context [if ?c then _ else _] => destruct c end.
    + rewrite tag_shared_pair. intros [= <- <-].
      apply ends_resolved; [stamp | reflexivity | reflexivity].
    + intros [= <- <-].
      eapply ends_fuzzy_ambiguous; try reflexivity;
        [stamp | split; reflexivity | exact Hsorted].
Qed.

Lemma api_lookup_ending :
  forall env key raw exchange provider ev st out st',
    ev_input ev = raw -> ev_timestamp ev = now_event env ->
    api_lookup env key raw exchange provider ev st = Ok (out, st') ->
    ending env raw key st out st'.
Proof.
  intros env key raw exchange provider ev st out st' Hin Hts.
  unfold api_lookup, bind.
  destruct (api_results env raw exchange provider) as [l|e]; [|discriminate].
  pose proof (sorted_candidates l) as Hsorted.
  destruct (sort by_confidence_desc l) as [|top rest] eqn:Hs.
  - apply fuzzy_fallback_ending; assumption.
  - cbv zeta.
    match goal with |- context [if ?c then _ else _] => destruct c eqn:Hone end.
    + rewrite tag_shared_pair. intros [= <- <-].
      apply ends_resolved; [stamp | reflexivity | reflexivity].
    + intros [= <- <-].
      destruct rest as [|second others]; [discriminate Hone|].
      eapply ends_api_ambiguous; try reflexivity;
        [stamp | split; reflexivity | exact Hsorted].
Qed.

(** Every call ends in one of the ways of [resolved_as]. *)
Lemma resolve_resolved_as : forall env input options st out st',
  resolveTickerOrCompanyName env input options st = Ok (out, st') ->
  resolved_as env input options st out st'.
Proof.
  intros env input options st out st'. unfold resolveTickerOrCompanyName.
  cbv zeta.
  destruct (isTickerSymbol (toUpperCase (trim input))) eqn:Hdet.
  { intros [= <- <-]. eapply as_detected; try reflexivity; [exact Hdet|stamp]. }
  assert (Hrest : forall st0,
            match tryLocalMapping (localTickerMapping st0)
                    (normalizeString input) (o_exchange options) with
            | Some localMatch =>
                let (result, st1) :=
                  tag_shared (normalizeString input) localMatch
                    (set_resolvedFrom (VStr "local_cache")
                       (set_confidence (r_confidence localMatch)
                          (set_ticker (r_ticker localMatch)
                             (set_type "symbol_resolved"
                                (new_event "ticker_resolution_attempt"
                                   (trim input) (now_event env))))))
                    (store env (normalizeString input) localMatch st0) in
                Ok (Single result, st1)
            | None =>
                api_lookup env (normalizeString input) (trim input)
                  (o_exchange options) (o_provider options)
                  (new_event "ticker_resolution_attempt" (trim input)
                     (now_event env)) st0
            end = Ok (out, st') ->
            ending env (trim input) (normalizeString input) st0 out st').
  { intros st0.
    destruct (tryLocalMapping _ _ _) as [localMatch|] eqn:Hl.
    - rewrite tag_shared_pair. intros [= <- <-].
      apply ends_resolved; [stamp | reflexivity |].
      unfold tryLocalMapping in Hl.
      destruct (obj_get _ _) as [e|[]|];
        repeat match type of Hl with
               | (if ?c then _ else _) = _ => destruct c; try discriminate
               end;
        try discriminate; injection Hl as <-; reflexivity.
    - apply api_lookup_ending; reflexivity. }
  destruct (o_forceRefresh options) eqn:Hforce.
  - intros H. eapply as_looked_up; [exact Hdet | | left; exact Hforce |].
    + rewrite Hforce. reflexivity.
    + apply Hrest, H.
  - unfold getCachedResolution.
    destruct (JsMap.get (normalizeString input) (resolutionCache st))
      as [held|] eqn:Hget.
    + destruct (now_lookup env - timestamp held <? CACHE_TTL_MS)%Z eqn:Hfresh.
      * cbv zeta.
        assert (W : with_cache (resolutionCache st) st = st)
          by (destruct st; reflexivity).
        rewrite W, tag_shared_pair. intros [= <- <-].
        apply as_cache_hit; try assumption; [|stamp|reflexivity].
        apply Z.ltb_lt, Hfresh.
      * intros H. eapply as_looked_up; [exact Hdet | | right | ].
        -- rewrite Hforce. unfold getCachedResolution.
           rewrite Hget, Hfresh. reflexivity.
        -- unfold getCachedResolution. rewrite Hget, Hfresh. reflexivity.
        -- apply Hrest, H.
    + intros H. eapply as_looked_up; [exact Hdet | | right | ].
      * rewrite Hforce. unfold getCachedResolution. rewrite Hget. reflexivity.
      * unfold getCachedResolution. rewrite Hget. reflexivity.
      * apply Hrest, H.
Qed.

End Endings.

Module StateFacts.

Import JsString Regex Js StringUtils TickerResolution OpenaiService Route.
Import Notions Fixtures MapFacts.
Import MapUpdates.
Local Open Scope string_scope.

Lemma tag_catalog : forall key obj ev st,
  localTickerMapping (snd (tag_shared key obj ev st)) = localTickerMapping st.
Proof. reflexivity. Qed.

Lemma tag_get_other : forall key obj ev st k,
  k <> key ->
  JsMap.get k (resolutionCache (snd (tag_shared key obj ev st)))
  = JsMap.get k (resolutionCache st).
Proof.
  intros key obj ev st k Hk. unfold tag_shared. simpl.
  destruct (JsMap.get key (resolutionCache st)); [|reflexivity].
  apply get_replace_other, Hk.
Qed.

Lemma tag_size : forall key obj ev st,
  JsMap.size (resolutionCache (snd (tag_shared key obj ev st)))
  = JsMap.size (resolutionCache st).
Proof.
  intros key obj ev st. unfold tag_shared. simpl.
  destruct (JsMap.get key (resolutionCache st)); [|reflexivity].
  apply size_replace.
Qed.

Lemma tag_get_same : forall key obj ev st held,
  JsMap.get key (resolutionCache st) = Some held ->
  JsMap.get key (resolutionCache (snd (tag_shared key obj ev st)))
  = Some {| data := set_telemetry ev obj; timestamp := timestamp held |}.
Proof.
  intros key obj ev st held H. unfold tag_shared. simpl. rewrite H.
  apply get_replace_same, has_get. eauto.
Qed.

Lemma store_get_other : forall env key obj st k,
  k <> key ->
  JsMap.get k (resolutionCache (store env key obj st))
  = JsMap.get k (resolutionCache st).
Proof.
  intros env key obj st k Hk. unfold store, setCacheResolution. simpl.
  apply get_set_other, Hk.
Qed.

Lemma store_get_same : forall env key obj st,
  JsMap.get key (resolutionCache (store env key obj st))
  = Some {| data := obj; timestamp := now_store env |}.
Proof.
  intros env key obj st. unfold store, setCacheResolution. simpl.
  apply get_set_same.
Qed.

Lemma store_size : forall env key obj st,
  JsMap.size (resolutionCache (store env key obj st))
  <= S (JsMap.size (resolutionCache st)).
Proof.
  intros env key obj st. unfold store, setCacheResolution. simpl.
  rewrite size_set. destruct (JsMap.has _ _); lia.
Qed.

Lemma lookup_get_other : forall now key cache k,
  k <> key ->
  JsMap.get k (snd (getCachedResolution now key cache)) = JsMap.get k cache.
Proof.
  intros now key cache k Hk. unfold getCachedResolution.
  destruct (JsMap.get key cache) as [e|]; [|reflexivity].
  destruct (now - timestamp e <? CACHE_TTL_MS)%Z; simpl; [reflexivity|].
  apply get_delete_other, Hk.
Qed.

Lemma lookup_size : forall now key cache,
  JsMap.size (snd (getCachedResolution now key cache)) <= JsMap.size cache.
Proof.
  intros now key cache. unfold getCachedResolution.
  destruct (JsMap.get key cache) as [e|]; [|apply Nat.le_refl].
  destruct (now - timestamp e <? CACHE_TTL_MS)%Z; simpl;
    [apply Nat.le_refl | apply size_delete_le].
Qed.

Lemma stored_and_tagged_get : forall env key obj ev st,
  JsMap.get key (resolutionCache (stored_and_tagged env key obj ev st))
  = Some {| data := set_telemetry ev obj; timestamp := now_store env |}.
Proof.
  intros env key obj ev st. unfold stored_and_tagged.
  apply (tag_get_same key obj ev (store env key obj st)
           (store_get_same env key obj st)).
Qed.

(** An ending leaves the catalog alone, touches no key but its own and adds
    one entry at most. *)
Lemma ending_frame : forall env raw key st0 out st',
  ending env raw key st0 out st' ->
  localTickerMapping st' = localTickerMapping st0
  /\ (forall k, k <> key ->
        JsMap.get k (resolutionCache st') = JsMap.get k (resolutionCache st0))
  /\ JsMap.size (resolutionCache st') <= S (JsMap.size (resolutionCache st0)).
Proof.
  intros env raw key st0 out st' H. destruct H.
  - repeat split; auto.
  - repeat split; auto.
  - split; [reflexivity|]. split; [|apply store_size].
    intros k Hk. apply store_get_other, Hk.
  - unfold stored_and_tagged. split; [reflexivity|]. split.
    + intros k Hk. rewrite tag_get_other by exact Hk.
      apply store_get_other, Hk.
    + rewrite tag_size. apply store_size.
Qed.

End StateFacts.

Module Orchestrator.

Import JsString Regex Js StringUtils TickerResolution OpenaiService Route.
Import Notions Fixtures MapFacts.
Import MapUpdates Endings StateFacts.
Local Open Scope string_scope.

(** X14.  A call leaves the catalog as it is, reads and writes no cache
    entry but the one of its key, and adds one entry at most. *)
Theorem resolution_touches_one_key :
  forall env input options st out st',
    resolveTickerOrCompanyName env input options st = Ok (out, st') ->
    localTickerMapping st' = localTickerMapping st
    /\ (forall k, k <> normalizeString input ->
          JsMap.get k (resolutionCache st') = JsMap.get k (resolutionCache st))
    /\ JsMap.size (resolutionCache st') <= S (JsMap.size (resolutionCache st)).
Proof.
  intros env input options st out st' Hrun.
  destruct (resolve_resolved_as _ _ _ _ Hrun)
    as [r ev _ _ _ _ _ _ | held ev _ _ _ _ _ _ | st0 out st' _ Hst0 _ Hend].
  - repeat split; auto.
  - split; [reflexivity|]. split.
    + intros k Hk. apply tag_get_other, Hk.
    + rewrite tag_size. auto.
  - destruct (ending_frame Hend) as (Hcat & Hget & Hsize).
    assert (H0 : localTickerMapping st0 = localTickerMapping st
                 /\ (forall k, k <> normalizeString input ->
                       JsMap.get k (resolutionCache st0)
                       = JsMap.get k (resolutionCache st))
                 /\ JsMap.size (resolutionCache st0)
                    <= JsMap.size (resolutionCache st)).
    { subst st0. destruct (o_forceRefresh options); [auto|].
      split; [reflexivity|]. split.
      - intros k Hk. apply lookup_get_other, Hk.
      - apply lookup_size. }
    destruct H0 as (Hcat0 & Hget0 & Hsize0).
    split; [congruence|]. split.
    + intros k Hk. rewrite Hget by exact Hk. apply Hget0, Hk.
    + lia.
Qed.

Lemma resolution_touches_one_key_witness :
  match resolveTickerOrCompanyName offline "Apple Inc." default_options
          after_two_hits with
  | Ok (out, st') =>
      localTickerMapping st' = seed_catalog
      /\ JsMap.get "acmeholdings" (resolutionCache st')
         = Some {| data := as_resolution acme; timestamp := 1000 |}
      /\ JsMap.size (resolutionCache st') <= 2
  | Throw _ => False
  end.
Proof.
  destruct (resolveTickerOrCompanyName offline "Apple Inc." default_options
              after_two_hits) as [[out st']|e] eqn:Hrun.
  - destruct (@resolution_touches_one_key offline "Apple Inc."
                default_options after_two_hits out st' Hrun)
      as (Hcat & Hget & Hsize).
    split; [exact Hcat|]. split; [|exact Hsize].
    rewrite Hget; [reflexivity|]. vm_compute. discriminate.
  - vm_compute in Hrun. discriminate Hrun.
Defined.

(** X15.  Every outcome carries the event of its call: the event names the
    trimmed input and the instant the call started, and its type tells how
    the call ended.  An ambiguous result has the type [symbol_ambiguous] and
    no other outcome has it; the type [ticker_resolution_attempt], which the
    event starts with, is never the type of a returned event. *)
Theorem every_outcome_carries_its_event :
  forall env input options st out st',
    resolveTickerOrCompanyName env input options st = Ok (out, st') ->
    exists ev,
      event_of out = Some ev
      /\ ev_input ev = trim input
      /\ ev_timestamp ev = now_event env
      /\ match out with
         | Multiple _ => ev_type ev = "symbol_ambiguous"
         | Single r =>
             In (ev_type ev)
                [ "ticker_resolution_detected_ticker";
                  "ticker_resolution_cache_hit";
                  "symbol_resolved";
                  "symbol_not_found" ]
             /\ (ev_type ev = "symbol_not_found" -> r_ticker r = VNull)
             /\ (ev_type ev = "ticker_resolution_detected_ticker" ->
                 r_ticker r = VStr (toUpperCase (trim input)))
         end.
Proof.
  intros env input options st out st' Hrun.
  destruct (resolve_resolved_as _ _ _ _ Hrun)
    as [r ev _ Htel (Hty & Hin & Hts) Hticker _ _
       | held ev _ _ _ _ (Hty & Hin & Hts) _
       | st0 out st' _ _ _ Hend].
  - exists ev. rewrite Hty. simpl. repeat split; auto. discriminate.
  - exists ev. rewrite Hty. simpl. repeat split; auto; discriminate.
  - destruct Hend
      as [r ev Htel (Hty & Hin & Hts) Hticker _
         | a first others (Hty & Hin & Hts) _ _ _ _ _
         | a top second others (Hty & Hin & Hts) _ _ _ _ _
         | obj ev (Hty & Hin & Hts) _ _].
    + exists ev. rewrite Hty. simpl. repeat split; auto. discriminate.
    + exists (a_telemetry a). simpl. auto.
    + exists (a_telemetry a). simpl. auto.
    + exists ev. rewrite Hty. simpl. repeat split; auto; discriminate.
Qed.

Lemma every_outcome_carries_its_event_witness :
  match resolveTickerOrCompanyName two_hits " Acme Holdings " default_options
          fresh with
  | Ok (out, st') =>
      exists ev,
        event_of out = Some ev
        /\ ev_input ev = "Acme Holdings"
        /\ ev_timestamp ev = 1000%Z
  | Throw _ => False
  end.
Proof.
  destruct (resolveTickerOrCompanyName two_hits " Acme Holdings "
              default_options fresh) as [[out st']|e] eqn:Hrun.
  - destruct (@every_outcome_carries_its_event two_hits " Acme Holdings "
                default_options fresh out st' Hrun)
      as (ev & Hev & Hin & Hts & _).
    exists ev. split; [exact Hev|]. split; [exact Hin | exact Hts].
  - vm_compute in Hrun. discriminate Hrun.
Defined.

(** X16.  What a call resolves, the next call gets from the cache.  If a
    call returns a single result of type [symbol_resolved], then a later
    call for an input of the same key that is not taken for a ticker, made
    without [forceRefresh] less than 24 hours after the result was stored,
    returns the very same object with a new event of type
    [ticker_resolution_cache_hit], whatever its options and whatever the
    providers would answer, and leaves the entry with its time stamp. *)
Theorem resolved_once_then_served_from_the_cache :
  forall env1 env2 input1 input2 options1 options2 st r1 st1 ev1,
    resolveTickerOrCompanyName env1 input1 options1 st = Ok (Single r1, st1) ->
    r_telemetry r1 = Some ev1 ->
    ev_type ev1 = "symbol_resolved" ->
    normalizeString input2 = normalizeString input1 ->
    isTickerSymbol (toUpperCase (trim input2)) = false ->
    o_forceRefresh options2 = false ->
    (now_lookup env2 - now_store env1 < CACHE_TTL_MS)%Z ->
    exists ev2 st2,
      resolveTickerOrCompanyName env2 input2 options2 st1
      = Ok (Single (set_telemetry ev2 r1), st2)
      /\ ev_type ev2 = "ticker_resolution_cache_hit"
      /\ ev_input ev2 = trim input2
      /\ ev_ticker ev2 = r_ticker r1
      /\ JsMap.get (normalizeString input1) (resolutionCache st2)
         = Some {| data := set_telemetry ev2 r1; timestamp := now_store env1 |}
      /\ JsMap.size (resolutionCache st2) = JsMap.size (resolutionCache st1).
Proof.
  intros env1 env2 input1 input2 options1 options2 st r1 st1 ev1
         Hrun Htel1 Hty1 Hkey Hdet Hforce Hfresh.
  assert (Hheld : JsMap.get (normalizeString input1) (resolutionCache st1)
                  = Some {| data := r1; timestamp := now_store env1 |}).
  { pose proof (resolve_resolved_as _ _ _ _ Hrun) as Has.
    inversion Has
      as [r ev _ Htel (Hty & _) _ _ _ Hr Hst
         | held ev _ _ _ _ (Hty & _) _ Hr Hst
         | st0 out st' _ _ _ Hend Hout Hst]; subst.
    - congruence.
    - simpl in Htel1. injection Htel1 as <-. congruence.
    - inversion Hend
        as [r ev Htel (Hty & _) _ _ Hr Hst
           | | | obj ev _ _ _ Hr Hst]; subst.
      + congruence.
      + apply stored_and_tagged_get. }
  unfold resolveTickerOrCompanyName. cbv zeta.
  rewrite Hdet, Hforce, Hkey. unfold getCachedResolution.
  rewrite Hheld. cbn [timestamp data].
  apply Z.ltb_lt in Hfresh. rewrite Hfresh.
  assert (W : with_cache (resolutionCache st1) st1 = st1)
    by (destruct st1; reflexivity).
  rewrite W, tag_shared_pair.
  do 2 eexists. split; [reflexivity|].
  split; [reflexivity|]. split; [reflexivity|]. split; [reflexivity|].
  split.
  - apply (tag_get_same _ _ _ _ Hheld).
  - apply tag_size.
Qed.

Lemma resolved_once_then_served_from_the_cache_witness :
  resolveTickerOrCompanyName offline "Microsoft" default_options fresh
  = Ok (Single microsoft_resolved, after_microsoft)
  /\ exists ev2 st2,
       resolveTickerOrCompanyName unreachable " MICROSOFT, " on_nyse
         after_microsoft
       = Ok (Single (set_telemetry ev2 microsoft_resolved), st2)
       /\ ev_type ev2 = "ticker_resolution_cache_hit"
       /\ r_exchange (set_telemetry ev2 microsoft_resolved) = VStr "NASDAQ".
Proof.
  assert (Hrun : resolveTickerOrCompanyName offline "Microsoft"
                   default_options fresh
                 = Ok (Single microsoft_resolved, after_microsoft))
    by (vm_compute; reflexivity).
  split; [exact Hrun|].
  destruct (@resolved_once_then_served_from_the_cache
              offline unreachable "Microsoft" " MICROSOFT, "
              default_options on_nyse fresh microsoft_resolved
              after_microsoft microsoft_event Hrun eq_refl eq_refl
              eq_refl eq_refl eq_refl eq_refl)
    as (ev2 & st2 & Hhit & Hty & _).
  exists ev2, st2. split; [exact Hhit|]. split; [exact Hty | reflexivity].
Defined.

(** X17.  With [forceRefresh] the result of a call does not depend on what
    the cache holds: two states with the same catalog give the same
    outcome. *)
Theorem forceRefresh_ignores_the_cache :
  forall env input options st1 st2,
    o_forceRefresh options = true ->
    localTickerMapping st1 = localTickerMapping st2 ->
    outcome_of (resolveTickerOrCompanyName env input options st1)
    = outcome_of (resolveTickerOrCompanyName env input options st2).
Proof.
  intros env input options [cache1 catalog1] [cache2 catalog2] Hforce Hcat.
  simpl in Hcat. subst catalog2.
  assert (Hai : forall key raw ev st st',
            localTickerMapping st = localTickerMapping st' ->
            outcome_of (ai_fallback env key raw ev st)
            = outcome_of (ai_fallback env key raw ev st')).
  { intros key raw ev st st' _. unfold ai_fallback, bind.
    destruct (ai_answer env raw) as [[ai|]|e]; try reflexivity.
    destruct (truthy (r_ticker ai)); [|reflexivity].
    cbv zeta. unfold tag_shared. reflexivity. }
  assert (Hfuzzy : forall key raw ev st st',
            localTickerMapping st = localTickerMapping st' ->
            outcome_of (fuzzy_fallback env key raw ev st)
            = outcome_of (fuzzy_fallback env key raw ev st')).
  { intros key raw ev st st' Hc. unfold fuzzy_fallback. cbv zeta.
    rewrite Hc.
    destruct (fuzzyMatchLocalTickers _ _ _) as [|first others].
    - apply Hai, Hc.
    - match goal with |- context [if ?c then _ else _] => destruct c end;
        [unfold tag_shared|]; reflexivity. }
  assert (Hapi : forall key raw exchange provider ev st st',
            localTickerMapping st = localTickerMapping st' ->
            outcome_of (api_lookup env key raw exchange provider ev st)
            = outcome_of (api_lookup env key raw exchange provider ev st')).
  { intros key raw exchange provider ev st st' Hc. unfold api_lookup, bind.
    destruct (api_results env raw exchange provider) as [l|e];
      [|reflexivity].
    destruct (sort by_confidence_desc l) as [|top rest].
    - apply Hfuzzy, Hc.
    - cbv zeta.
      match goal with |- context [if ?c then _ else _] => destruct c end;
        [unfold tag_shared|]; reflexivity. }
  unfold resolveTickerOrCompanyName. cbv zeta. rewrite Hforce.
  destruct (isTickerSymbol _); [reflexivity|].
  cbn [localTickerMapping].
  destruct (tryLocalMapping _ _ _) as [localMatch|].
  - unfold tag_shared. reflexivity.
  - apply Hapi. reflexivity.
Qed.

Lemma forceRefresh_ignores_the_cache_witness :
  outcome_of (resolveTickerOrCompanyName offline "Microsoft" refreshing
                after_microsoft)
  = outcome_of (resolveTickerOrCompanyName offline "Microsoft" refreshing
                  fresh).
Proof.
  exact (@forceRefresh_ignores_the_cache offline "Microsoft" refreshing
           after_microsoft fresh eq_refl eq_refl).
Defined.

(** X18.  An ambiguous result is never empty and lists its candidates from
    the highest confidence down; its event counts them and names the first
    three.  It comes from the fuzzy matcher or from the providers, and from
    the providers only with two candidates or more. *)
Theorem ambiguous_results_are_ranked :
  forall env input options st a st',
    resolveTickerOrCompanyName env input options st = Ok (Multiple a, st') ->
    a_confidence a = "ambiguous"
    /\ a_matches a <> []
    /\ Sorted not_after (a_matches a)
    /\ ev_matches (a_telemetry a)
       = VNum (JsNum.of_nat (List.length (a_matches a)))
    /\ ev_candidates (a_telemetry a)
       = Some (map summary (firstn 3 (a_matches a)))
    /\ (a_resolvedFrom a = "fuzzy_match"
        \/ (a_resolvedFrom a = "api_search"
            /\ 2 <= List.length (a_matches a))).
Proof.
  intros env input options st a st' Hrun.
  pose proof (resolve_resolved_as _ _ _ _ Hrun) as Has.
  inversion Has as [ | | st0 out st'' _ _ _ Hend Hout Hst]; subst.
  inversion Hend
    as [ | a' first others _ (Hn & Hc) Hconf Hfrom Hm Hsorted
         | a' top second others _ (Hn & Hc) Hconf Hfrom Hm Hsorted | ];
    subst.
  - split; [exact Hconf|]. split; [rewrite Hm; discriminate|].
    split; [exact Hsorted|]. split; [exact Hn|]. split; [exact Hc|].
    left. exact Hfrom.
  - split; [exact Hconf|]. split; [rewrite Hm; discriminate|].
    split; [exact Hsorted|]. split; [exact Hn|]. split; [exact Hc|].
    right. split; [exact Hfrom|]. rewrite Hm. simpl. lia.
Qed.

Lemma ambiguous_results_are_ranked_witness :
  match resolveTickerOrCompanyName two_hits "Acme Holdings" default_options
          fresh with
  | Ok (Multiple a, _) =>
      a_matches a <> [] /\ Sorted not_after (a_matches a)
  | _ => False
  end.
Proof.
  destruct (resolveTickerOrCompanyName two_hits "Acme Holdings"
              default_options fresh) as [[[r|a] st']|e] eqn:Hrun.
  - vm_compute in Hrun. discriminate Hrun.
  - destruct (@ambiguous_results_are_ranked two_hits "Acme Holdings"
                default_options fresh a st' Hrun) as (_ & Hne & Hs & _).
    split; [exact Hne | exact Hs].
  - vm_compute in Hrun. discriminate Hrun.
Defined.

End Orchestrator.

Module Providers.

Import JsString Regex Js StringUtils TickerResolution OpenaiService Route.
Import Notions Fixtures MapFacts.
Import Endings.
Local Open Scope string_scope.

Lemma mapM_Forall : forall (A B : Type) (f : A -> comp B) (P : B -> Prop)
    (items : list A) (l : list B),
  (forall x y, f x = Ok y -> P y) ->
  mapM f items = Ok l ->
  List.length l = List.length items /\ Forall P l.
Proof.
  intros A B f P items. induction items as [|x items IH]; intros l Hf; simpl.
  - intros [= <-]. split; [reflexivity | constructor].
  - unfold bind. destruct (f x) as [y|e] eqn:Hx; [|discriminate].
    destruct (mapM f items) as [ys|e]; [|discriminate].
    intros [= <-]. destruct (IH ys Hf eq_refl) as [Hlen Hall].
    split; [simpl; rewrite Hlen; reflexivity|].
    constructor; [exact (Hf _ _ Hx) | exact Hall].
Qed.

Lemma finnhub_item_marks : forall item c,
  finnhub_item item = Ok c ->
  c_confidence c = c85 /\ c_resolvedFrom c = "finnhub_api".
Proof.
  intros item c. unfold finnhub_item, bind.
  destruct (get item "symbol"); [|discriminate].
  destruct (get item "type"); [|discriminate].
  destruct (get item "mic"); [|discriminate].
  destruct (get item "description"); [|discriminate].
  intros [= <-]. split; reflexivity.
Qed.

Lemma iex_item_marks : forall item c,
  iex_item item = Ok c ->
  c_confidence c = c88 /\ c_resolvedFrom c = "iex_cloud_api".
Proof.
  intros item c. unfold iex_item, bind.
  destruct (get item "symbol"); [|discriminate].
  destruct (get item "exchange"); [|discriminate].
  destruct (get item "name"); [|discriminate].
  intros [= <-]. split; reflexivity.
Qed.

(** X19.  A provider adapter answers [null] or a list that is not empty,
    and never throws.  Every candidate of Finnhub has confidence 0.85 and the
    source [finnhub_api], every candidate of IEX Cloud has confidence 0.88
    and the source [iex_cloud_api], whatever the provider sent. *)
Theorem provider_answers_are_marked : forall env input,
  match tryFinnhubLookup env input with
  | Ok (Some results) =>
      results <> []
      /\ Forall (fun c => c_confidence c = c85
                          /\ c_resolvedFrom c = "finnhub_api") results
  | Ok None => True
  | Throw _ => False
  end
  /\ match tryIexCloudLookup env input with
     | Ok (Some results) =>
         results <> []
         /\ Forall (fun c => c_confidence c = c88
                             /\ c_resolvedFrom c = "iex_cloud_api") results
     | Ok None => True
     | Throw _ => False
     end.
Proof.
  intros env input. split.
  - unfold tryFinnhubLookup.
    destruct (FINNHUB_API_KEY env) as [k|]; [|exact I].
    destruct (negb (JsString.truthy k)); [exact I|].
    unfold try_catch, bind.
    destruct (fetch env _) as [response|e]; [|exact I].
    destruct (negb (ok response)); [exact I|].
    destruct (json response) as [body|e]; [|exact I].
    destruct (get body "result") as [result|e]; [|exact I].
    destruct (truthy result); [|exact I].
    destruct (get result "length") as [len|e] eqn:Hlen; [|exact I].
    destruct (gt_zero env len) as [[]|e] eqn:Hpos; try exact I.
    destruct result as [| | b | x | s | items | fields]; try exact I.
    simpl. destruct (mapM finnhub_item items) as [results|e] eqn:Hmap;
      [|exact I].
    destruct (@mapM_Forall _ _ finnhub_item
                (fun c => c_confidence c = c85
                          /\ c_resolvedFrom c = "finnhub_api")
                items results finnhub_item_marks Hmap) as [Hl Hall].
    split; [|exact Hall].
    intros ->. simpl in Hl. destruct items; [|discriminate Hl].
    simpl in Hlen. injection Hlen as <-. simpl in Hpos.
    vm_compute in Hpos. discriminate Hpos.
  - unfold tryIexCloudLookup.
    destruct (IEX_CLOUD_API_KEY env) as [k|]; [|exact I].
    destruct (negb (JsString.truthy k)); [exact I|].
    unfold try_catch, bind.
    destruct (fetch env _) as [response|e]; [|exact I].
    destruct (negb (ok response)); [exact I|].
    destruct (json response) as [body|e]; [|exact I].
    destruct body as [| | b | x | s | [|item items] | fields]; try exact I.
    destruct (mapM iex_item (item :: items)) as [results|e] eqn:Hmap;
      [|exact I].
    destruct (@mapM_Forall _ _ iex_item
                (fun c => c_confidence c = c88
                          /\ c_resolvedFrom c = "iex_cloud_api")
                (item :: items) results iex_item_marks Hmap) as [Hl Hall].
    split; [|exact Hall].
    intros ->. discriminate Hl.
Qed.

(** X20.  The exchange preference narrows the candidates of the providers
    to those on that exchange when there is one, and leaves the list as it is
    when there is none: it never turns an answer into no answer.  [raw] is
    what the providers give without a preference. *)
Theorem exchange_preference_never_empties :
  forall env input wanted provider raw,
    api_results env input None provider = Ok raw ->
    let on_exchange :=
      filter (fun r => is_str (c_exchange r) wanted) raw in
    api_results env input (Some wanted) provider
    = Ok (if JsString.truthy wanted && (0 <? List.length on_exchange)%nat
          then on_exchange else raw).
Proof.
  intros env input wanted provider raw. unfold api_results, bind.
  destruct (if String.eqb provider "auto" || String.eqb provider "finnhub"
            then tryFinnhubLookup env input else Ok None) as [f|e];
    [|discriminate].
  destruct (if _ && _ then tryIexCloudLookup env input else Ok None)
    as [i|e]; [|discriminate].
  cbn [truthy_opt andb]. intros [= <-]. cbv zeta.
  set (l := match i with Some found => found | None => _ end).
  destruct (JsString.truthy wanted); [|reflexivity].
  cbn [andb]. destruct (0 <? List.length l)%nat eqn:Hl; [reflexivity|].
  destruct l; [reflexivity | discriminate Hl].
Qed.

Lemma exchange_preference_never_empties_witness :
  api_results two_hits "Acme Holdings" None "auto" = Ok [acme; acme_holdings]
  /\ api_results two_hits "Acme Holdings" (Some "NASDAQ") "auto"
     = Ok [acme; acme_holdings]
  /\ api_results two_hits "Acme Holdings" (Some "NYSE") "auto"
     = Ok [acme; acme_holdings].
Proof.
  assert (H : api_results two_hits "Acme Holdings" None "auto"
              = Ok [acme; acme_holdings]) by (vm_compute; reflexivity).
  split; [exact H|]. split.
  - exact (@exchange_preference_never_empties two_hits "Acme Holdings"
             "NASDAQ" "auto" [acme; acme_holdings] H).
  - exact (@exchange_preference_never_empties two_hits "Acme Holdings"
             "NYSE" "auto" [acme; acme_holdings] H).
Defined.

(** X21.  An answer of the AI adapter has a ticker that is a string, not
    empty and in capitals, no exchange and no name, a confidence that is not
    falsy (0.85 when the provider gives none) and the source [openai]. *)
Theorem openai_answers_are_marked : forall env companyName,
  match resolveTickerWithOpenAI env companyName with
  | Ok (Some answer) =>
      (exists t, t <> "" /\ r_ticker answer = VStr (toUpperCase t))
      /\ r_exchange answer = VUndefined
      /\ r_name answer = VUndefined
      /\ truthy (r_confidence answer) = true
      /\ r_resolvedFrom answer = VStr "openai"
      /\ r_telemetry answer = None
  | Ok None => True
  | Throw _ => False
  end.
Proof.
  intros env companyName.
  destruct (resolveTickerWithOpenAI env companyName) as [[answer|]|e] eqn:H.
  - apply (openai_answer_shape _ _ H).
  - exact I.
  - destruct (Totality.resolveTickerWithOpenAI_total env companyName)
      as [r Hr]. congruence.
Qed.

End Providers.

Module AddedNames.

Import JsString Regex Js StringUtils TickerResolution OpenaiService Route.
Import Notions Fixtures MapFacts.
Import CatalogFacts Endings StateFacts.
Local Open Scope string_scope.

(** X22.  A name added with [addLocalMapping] is resolved by the next call
    for it: unless the name is taken for a ticker, the cache holds a fresh
    entry for its key or the options ask for another exchange, the call
    returns the ticker, exchange and confidence that were given, with the
    source [local_cache], and stores the result under the key. *)
Theorem added_name_is_resolved :
  forall env companyName ticker exchange confidence options cache catalog,
    assignable catalog ->
    isTickerSymbol (toUpperCase (trim companyName)) = false ->
    (o_forceRefresh options = true
     \/ JsMap.get (normalizeString companyName) cache = None) ->
    (truthy_opt (o_exchange options) = false
     \/ o_exchange options = Some exchange) ->
    let key := normalizeString companyName in
    let added :=
      {| resolutionCache := cache;
         localTickerMapping :=
           addLocalMapping companyName ticker exchange confidence catalog |} in
    exists ev st',
      resolveTickerOrCompanyName env companyName options added
      = Ok (Single
              {| r_ticker := VStr ticker;
                 r_exchange := VStr exchange;
                 r_name := VStr key;
                 r_companyName := VUndefined;
                 r_confidence := VNum confidence;
                 r_resolvedFrom := VStr "local_cache";
                 r_telemetry := Some ev |}, st')
      /\ ev_type ev = "symbol_resolved"
      /\ ev_ticker ev = VStr ticker
      /\ JsMap.get key (resolutionCache st')
         = Some {| data :=
                     {| r_ticker := VStr ticker;
                        r_exchange := VStr exchange;
                        r_name := VStr key;
                        r_companyName := VUndefined;
                        r_confidence := VNum confidence;
                        r_resolvedFrom := VStr "local_cache";
                        r_telemetry := Some ev |};
                   timestamp := now_store env |}.
Proof.
  intros env companyName ticker exchange confidence options cache catalog
         Hcat Hdet Hcache Hexchange key added.
  assert (Hlocal : tryLocalMapping (localTickerMapping added) key
                     (o_exchange options)
                   = Some (local_match key (entry ticker exchange confidence))).
  { rewrite (@tryLocalMapping_entry _ key
               (entry ticker exchange confidence) (o_exchange options))
      by (apply obj_get_set_same, Hcat).
    destruct Hexchange as [H|H]; rewrite H; [reflexivity|].
    cbn [e_exchange entry]. rewrite String.eqb_refl, andb_false_r.
    reflexivity. }
  assert (Hrest : forall st0,
            localTickerMapping st0 = localTickerMapping added ->
            exists ev st',
              match tryLocalMapping (localTickerMapping st0) key
                      (o_exchange options) with
              | Some localMatch =>
                  let (result, st1) :=
                    tag_shared key localMatch
                      (set_resolvedFrom (VStr "local_cache")
                         (set_confidence (r_confidence localMatch)
                            (set_ticker (r_ticker localMatch)
                               (set_type "symbol_resolved"
                                  (new_event "ticker_resolution_attempt"
                                     (trim companyName) (now_event env))))))
                      (store env key localMatch st0) in
                  Ok (Single result, st1)
              | None =>
                  api_lookup env key (trim companyName)
                    (o_exchange options) (o_provider options)
                    (new_event "ticker_resolution_attempt"
                       (trim companyName) (now_event env)) st0
              end
              = Ok (Single
                      (set_telemetry ev
                         (local_match key (entry ticker exchange confidence))),
                    st')
              /\ ev_type ev = "symbol_resolved"
              /\ ev_ticker ev = VStr ticker
              /\ JsMap.get key (resolutionCache st')
                 = Some {| data :=
                             set_telemetry ev
                               (local_match key
                                  (entry ticker exchange confidence));
                           timestamp := now_store env |}).
  { intros st0 H0. rewrite H0, Hlocal, tag_shared_pair.
    do 2 eexists. split; [reflexivity|].
    split; [reflexivity|]. split; [reflexivity|].
    apply (stored_and_tagged_get env key). }
  unfold resolveTickerOrCompanyName. cbv zeta. fold key. rewrite Hdet.
  destruct (o_forceRefresh options) eqn:Hforce.
  - apply (Hrest added). reflexivity.
  - destruct Hcache as [H|H]; [discriminate H|].
    unfold getCachedResolution.
    change (resolutionCache added) with cache. unfold key at 1. rewrite H.
    apply Hrest. reflexivity.
Qed.

Lemma added_name_is_resolved_witness :
  assignable seed_catalog
  /\ isTickerSymbol (toUpperCase (trim "TestCorp")) = false
  /\ exists ev st',
       resolveTickerOrCompanyName offline "TestCorp" default_options
         {| resolutionCache := [];
            localTickerMapping :=
              addLocalMapping "TestCorp" "TEST" "NYSE" c99 seed_catalog |}
       = Ok (Single
               {| r_ticker := VStr "TEST";
                  r_exchange := VStr "NYSE";
                  r_name := VStr (normalizeString "TestCorp");
                  r_companyName := VUndefined;
                  r_confidence := VNum c99;
                  r_resolvedFrom := VStr "local_cache";
                  r_telemetry := Some ev |}, st').
Proof.
  split; [exact assignable_seed|]. split; [reflexivity|].
  destruct (@added_name_is_resolved offline "TestCorp" "TEST" "NYSE" c99
              default_options [] seed_catalog assignable_seed eq_refl
              (or_intror eq_refl) (or_introl eq_refl))
    as (ev & st' & Hrun & _).
  exists ev, st'. exact Hrun.
Defined.

End AddedNames.

(* ================================================================== *)
(** * The helpers of the AI service *)
(* ================================================================== *)

Module IncludesFacts.

Import JsString Regex Js StringUtils TickerResolution OpenaiService Route.
Import Notions Fixtures MapFacts.
Import CharFacts StringFacts.
Local Open Scope string_scope.

Lemma starts_with_app : forall p r, starts_with (p ++ r) p = true.
Proof.
  induction p as [|c p IH]; intros r; simpl; [reflexivity|].
  rewrite Ascii.eqb_refl. apply IH.
Qed.

Lemma starts_with_self : forall p, starts_with p p = true.
Proof.
  induction p as [|c p IH]; simpl; [reflexivity|].
  rewrite Ascii.eqb_refl. exact IH.
Qed.

Lemma starts_with_app_r : forall p s r,
  starts_with s p = true -> starts_with (s ++ r) p = true.
Proof.
  induction p as [|c p IH]; intros s r; simpl; [reflexivity|].
  destruct s as [|d s]; [discriminate|]. simpl.
  destruct (Ascii.eqb c d); [apply IH | discriminate].
Qed.

Lemma includes_empty : forall s, includes s "" = true.
Proof. intros [|c s]; reflexivity. Qed.

Lemma includes_app_l : forall s r x,
  includes s x = true -> includes (s ++ r) x = true.
Proof.
  induction s as [|c s IH]; intros r x H.
  - simpl in H. rewrite orb_false_r in H.
    destruct x; [apply includes_empty | discriminate H].
  - cbn [includes] in H. change (String c s ++ r) with (String c (s ++ r)).
    cbn [includes]. apply orb_true_iff in H. apply orb_true_iff.
    destruct H as [H|H]; [left | right].
    + apply (starts_with_app_r x (String c s) r H).
    + apply IH, H.
Qed.

Lemma includes_app_r : forall s r x,
  includes r x = true -> includes (s ++ r) x = true.
Proof.
  induction s as [|c s IH]; intros r x H; [exact H|].
  change (String c s ++ r) with (String c (s ++ r)).
  cbn [includes]. rewrite (IH r x H). apply orb_true_r.
Qed.

Lemma includes_front : forall s x,
  starts_with s x = true -> includes s x = true.
Proof. intros [|c s] x H; cbn [includes]; rewrite H; reflexivity. Qed.

(** A text includes what stands in its middle. *)
Lemma includes_middle : forall a x b, includes (a ++ x ++ b) x = true.
Proof.
  intros a x b. apply includes_app_r, includes_front, starts_with_app.
Qed.

End IncludesFacts.

Module Enrichment.

Import JsString Regex Js StringUtils TickerResolution OpenaiService Route.
Import Notions Fixtures MapFacts.
Import CharFacts StringFacts IncludesFacts.
Local Open Scope string_scope.

(** X23.  The enriched query starts with the query of the user and names
    the ticker, and the company when one is given, whatever the case of the
    letters; enriching it again changes nothing. *)
Theorem constructEnrichedQuery_names_the_ticker :
  forall userQuery ticker companyName,
    ascii_only userQuery = true ->
    ascii_only ticker = true ->
    match companyName with
    | Some name => ascii_only name = true
    | None => True
    end ->
    let enriched := constructEnrichedQuery userQuery ticker companyName in
    starts_with enriched userQuery = true
    /\ includes (toUpperCase enriched) (toUpperCase ticker) = true
    /\ match companyName with
       | Some name =>
           includes (toLowerCase enriched) (toLowerCase name) = true
       | None => True
       end
    /\ constructEnrichedQuery enriched ticker companyName = enriched.
Proof.
  intros userQuery ticker companyName _ _ _.
  set (first :=
         if negb (includes (toUpperCase userQuery) (toUpperCase ticker))
         then userQuery ++ " (Ticker: " ++ ticker ++ ")"
         else userQuery).
  assert (Hprefix1 : starts_with first userQuery = true).
  { unfold first. destruct (negb _);
      [apply starts_with_app | apply starts_with_self]. }
  assert (Hticker1 : includes (toUpperCase first) (toUpperCase ticker) = true).
  { unfold first.
    destruct (includes (toUpperCase userQuery) (toUpperCase ticker)) eqn:H;
      [exact H|].
    cbn [negb]. unfold toUpperCase. rewrite !map_chars_app.
    apply includes_app_r, includes_middle. }
  assert (Hshape :
    forall enriched,
      enriched = constructEnrichedQuery userQuery ticker companyName ->
      starts_with enriched userQuery = true
      /\ includes (toUpperCase enriched) (toUpperCase ticker) = true
      /\ match companyName with
         | Some name =>
             includes (toLowerCase enriched) (toLowerCase name) = true
         | None => True
         end).
  { intros enriched ->. unfold constructEnrichedQuery. cbv zeta. fold first.
    destruct companyName as [name|]; [|auto].
    destruct (JsString.truthy name) eqn:Hname.
    - destruct (includes (toLowerCase first) (toLowerCase name)) eqn:H;
        cbn [andb negb].
      + auto.
      + split; [apply starts_with_app_r, Hprefix1|]. split.
        * unfold toUpperCase in *. rewrite map_chars_app.
          apply includes_app_l, Hticker1.
        * unfold toLowerCase. rewrite !map_chars_app.
          apply includes_app_r, includes_app_r, includes_front.
          apply starts_with_self.
    - cbn [andb]. split; [exact Hprefix1|]. split; [exact Hticker1|].
      destruct name; [apply includes_empty | discriminate Hname]. }
  intros enriched.
  destruct (Hshape enriched eq_refl) as (Hp & Ht & Hn).
  split; [exact Hp|]. split; [exact Ht|]. split; [exact Hn|].
  unfold constructEnrichedQuery at 1. cbv zeta. rewrite Ht. cbn [negb].
  destruct companyName as [name|]; [|reflexivity].
  rewrite Hn. cbn [negb]. rewrite andb_false_r. reflexivity.
Qed.

Lemma constructEnrichedQuery_names_the_ticker_witness :
  constructEnrichedQuery "nvidia earnings" "NVDA" (Some "NVIDIA Corporation")
  = "nvidia earnings (Ticker: NVDA) - NVIDIA Corporation"
  /\ constructEnrichedQuery
       (constructEnrichedQuery "nvidia earnings" "NVDA"
          (Some "NVIDIA Corporation"))
       "NVDA" (Some "NVIDIA Corporation")
     = constructEnrichedQuery "nvidia earnings" "NVDA"
         (Some "NVIDIA Corporation").
Proof.
  split; [reflexivity|].
  exact (proj2 (proj2 (proj2
           (@constructEnrichedQuery_names_the_ticker
              "nvidia earnings" "NVDA" (Some "NVIDIA Corporation")
              eq_refl eq_refl eq_refl)))).
Defined.

End Enrichment.

Module RateLimiter.

Import JsString Regex Js StringUtils TickerResolution OpenaiService Route.
Import Notions Fixtures MapFacts.
Import MapUpdates.
Local Open Scope string_scope.

Lemma filter_length_le : forall (A : Type) (f : A -> bool) l,
  List.length (filter f l) <= List.length l.
Proof.
  intros A f l. induction l as [|x l IH]; simpl; [lia|].
  destruct (f x); simpl; lia.
Qed.



End RateLimiter.

(* ================================================================== *)
(** * The handlers of the route *)
(* ================================================================== *)

Module Handlers.

Import JsString Regex Js StringUtils TickerResolution OpenaiService Route.
Import Notions Fixtures MapFacts.
Import MapUpdates.
Local Open Scope string_scope.

(** X25.  [GET] answers 200, 400 or 404 and never 500, the resolver having
    a value for every string: 400 exactly for a request without a query that
    does not ask for the statistics either, and 404 only with a single
    result that has no ticker.  A request without a query leaves the state
    alone. *)
Theorem GET_statuses :
  forall env now_stats now_response searchParams st,
    let response := fst (GET env now_stats now_response searchParams st) in
    let st' := snd (GET env now_stats now_response searchParams st) in
    In (status response) [200; 400; 404]
    /\ (status response = 400
        <-> truthy_opt (sp_query searchParams) = false
            /\ is_true (sp_stats searchParams) = false)
    /\ (truthy_opt (sp_query searchParams) = false -> st' = st)
    /\ (status response = 404 ->
        exists query r cacheStats,
          body response
          = Resolved (VStr query) (Single r) now_response cacheStats
          /\ truthy (r_ticker r) = false).
Proof.
  intros env now_stats now_response [query exchange provider refresh stats] st.
  unfold GET. cbn [sp_query sp_exchange sp_provider sp_refresh sp_stats].
  assert (Hnone :
    forall response : HttpResponse * State,
      response
      = (if is_true stats
         then ({| status := 200;
                  body := Stats (fst (getCacheStats now_stats
                                        (resolutionCache st))) |}, st)
         else ({| status := 400;
                  body := Required "query parameter is required" |}, st)) ->
      In (status (fst response)) [200; 400; 404]
      /\ (status (fst response) = 400 <-> false = false /\ is_true stats = false)
      /\ (false = false -> snd response = st)
      /\ (status (fst response) = 404 ->
          exists query r cacheStats,
            body (fst response)
            = Resolved (VStr query) (Single r) now_response cacheStats
            /\ truthy (r_ticker r) = false)).
  { intros response ->. destruct (is_true stats); simpl.
    - split; [auto|]. split; [split; [discriminate | intros [_ H]; discriminate]|].
      split; [reflexivity | discriminate].
    - split; [auto|]. split; [split; auto|].
      split; [reflexivity | discriminate]. }
  destruct query as [query|]; cbn [truthy_opt]; [|apply Hnone; reflexivity].
  destruct (JsString.truthy query) eqn:Hq; [|apply Hnone; reflexivity].
  match goal with
  | |- context [resolveTickerOrCompanyName ?e ?q ?o ?s] =>
      destruct (Totality.resolve_total e q o s) as (out & st1 & Hrun);
      rewrite Hrun
  end.
  cbv zeta. destruct (unresolved out) eqn:Hu; cbn [fst snd status body].
  - split; [simpl; auto|].
    split; [split; [discriminate | intros [H _]; discriminate]|].
    split; [discriminate|]. intros _.
    destruct out as [r|a]; simpl in Hu.
    + exists query, r. eexists. split; [reflexivity|].
      apply andb_true_iff in Hu. destruct Hu as [Hu _].
      apply negb_true_iff, Hu.
    + exfalso.
      pose proof (Endings.resolve_resolved_as _ _ _ _ Hrun) as Has.
      inversion Has as [ | | st0 out st'' _ _ _ Hend Hout Hst]; subst.
      inversion Hend
        as [ | a' first others _ _ Hconf | a' top second others _ _ Hconf | ];
        subst; rewrite Hconf in Hu; discriminate Hu.
  - split; [simpl; auto|].
    split; [split; [discriminate | intros [H _]; discriminate]|].
    split; discriminate.
Qed.

(** X26.  [POST] passes the query of the body to the resolver without
    looking at its type.  A body whose query is not falsy and not a string,
    such as the number 123, is answered 500 with a [TypeError] and leaves the
    state alone; a query that is a string and not empty is answered 200,
    whether it resolves or not; a falsy query and a body without properties
    are answered 400; a body that does not parse or is [null] is answered
    500. *)
Theorem POST_statuses :
  forall env now_response json st,
    let response := fst (POST env now_response json st) in
    let st' := snd (POST env now_response json st) in
    match json with
    | Ok (BodyObject query exchange provider forceRefresh) =>
        if negb (truthy query) then status response = 400 /\ st' = st
        else if is_string query then
          status response = 200
          /\ exists resolution,
               body response = Resolved query resolution now_response None
        else response = {| status := 500; body := Failed TypeError |}
             /\ st' = st
    | Ok BodyPlain => status response = 400 /\ st' = st
    | Ok BodyNull => status response = 500 /\ st' = st
    | Throw error =>
        response = {| status := 500; body := Failed error |} /\ st' = st
    end.
Proof.
  intros env now_response [[| |query exchange provider forceRefresh]|e] st;
    cbv zeta; unfold POST; try (split; reflexivity).
  destruct (negb (truthy query)) eqn:Hq; [split; reflexivity|].
  destruct query as [| | b | x | text | items | fields];
    try discriminate Hq; cbn [is_string]; try (split; reflexivity).
  unfold resolveTickerOrCompanyName_call, destructure, bind.
  match goal with
  | |- context [resolveTickerOrCompanyName ?e ?q ?o ?s] =>
      destruct (Totality.resolve_total e q o s) as (out & st1 & Hrun);
      rewrite Hrun
  end.
  split; [reflexivity|]. exists out. reflexivity.
Qed.



End Handlers.

(* ================================================================== *)
(** * Cases of tests/unit.test.js, replayed on the embedding *)
(* ================================================================== *)

Module UnitTests.

Import JsString Js StringUtils TickerResolution Notions Fixtures.
Local Open Scope string_scope.

Example levenshteinDistance_identical :
  levenshteinDistance "hello" "hello" = 0.
Proof. reflexivity. Qed.

Example levenshteinDistance_one_substitution :
  levenshteinDistance "hello" "hallo" = 1.
Proof. reflexivity. Qed.

Example levenshteinDistance_kitten_sitting :
  levenshteinDistance "kitten" "sitting" = 3.
Proof. reflexivity. Qed.

Example calculateSimilarity_identical :
  calculateSimilarity "nvidia" "nvidia" = JsNum.of_Z 1.
Proof. reflexivity. Qed.

Example calculateSimilarity_similar :
  JsNum.gt (calculateSimilarity "nvidia" "nvida") (JsNum.lit 8 10) = true
  /\ JsNum.lt (calculateSimilarity "nvidia" "nvida") (JsNum.of_Z 1) = true.
Proof. split; reflexivity. Qed.

Example normalizeString_trims_and_lowercases :
  normalizeString "  NVIDIA  " = "nvidia".
Proof. reflexivity. Qed.

Example normalizeString_removes_punctuation :
  normalizeString "Nvidia, Inc." = "nvidiainc"
  /\ normalizeString "Apple Inc." = "appleinc"
  /\ normalizeString "Alphabet (Google)" = "alphabetgoogle".
Proof. repeat split. Qed.

Example isValidTickerFormat_cases :
  isValidTickerFormat "AAPL" = true
  /\ isValidTickerFormat "MSFT" = true
  /\ isValidTickerFormat "BRK.B" = true
  /\ isValidTickerFormat "A" = true
  /\ isValidTickerFormat "TOOLONG" = false
  /\ isValidTickerFormat "123" = false.
Proof. repeat split. Qed.

Example detect_ticker_symbol_directly :
  exists r st,
    resolveTickerOrCompanyName offline "NVDA" default_options fresh
    = Ok (Single r, st)
    /\ r_ticker r = VStr "NVDA"
    /\ r_resolvedFrom r = VStr "input_detection"
    /\ r_confidence r = VNum (JsNum.of_Z 1)
    /\ option_map ev_type (r_telemetry r)
       = Some "ticker_resolution_detected_ticker".
Proof. do 2 eexists. repeat split. Qed.

Example not_found_handling :
  exists r st,
    resolveTickerOrCompanyName offline "NONEXISTENT_COMPANY_XYZ"
      default_options fresh = Ok (Single r, st)
    /\ r_ticker r = VNull
    /\ r_resolvedFrom r = VStr "not_found"
    /\ r_confidence r = VNum (JsNum.of_Z 0)
    /\ option_map ev_type (r_telemetry r) = Some "symbol_not_found".
Proof.
  do 2 eexists. split; [vm_compute; reflexivity|]. repeat split.
Qed.

Example empty_string_does_not_resolve :
  exists r st,
    resolveTickerOrCompanyName offline "" default_options fresh
    = Ok (Single r, st)
    /\ r_ticker r = VNull.
Proof.
  do 2 eexists. split; [vm_compute; reflexivity|]. reflexivity.
Qed.

End UnitTests.
